(** * Scalarm Simulation Manager (Go): a shallow embedding

    The worker of [scalarmSimulationManager.go]: the failover request
    dispatcher ([ExecuteScalarmRequest], [GetWithTimeout]), the job
    acquisition loop and the result reporting of [main], and the
    stop / acknowledge handshake between [main], [IntermediateMonitoring]
    and the clean-up goroutine.

    Conventions.
    - Go's [int] (64-bit targets) and [time.Duration] are [Z] values kept in
      the int64 range with the wrap-around written out ([wrap64]).
    - Wall-clock instants are [Z] nanoseconds; the clock is threaded through
      every function that reads [time.Now()] or sleeps.
    - A [[]byte] or [error] that may be [nil] is an [option].
    - The network is an oracle.  As [Http], the n-th [client.Do] of one
      [GetWithTimeout] call on a request returns after a finite time with a
      transport error or a response.  As [Net], a call may also never
      return, the body reader of a [RequestInfo] is shared by the requests
      built on it, and the calls made are recorded. *)

From Stdlib Require Import ZArith QArith Lia.
From stdpp Require Import base option gmap strings list pretty.

Set Warnings "-register-all".
Open Scope Z_scope.

(* ================================================================== *)
(** ** Durations and the configuration *)

Definition wrap64 (z : Z) : Z := (z + 2 ^ 63) mod 2 ^ 64 - 2 ^ 63.

Definition int64_range (z : Z) : Prop := - 2 ^ 63 <= z < 2 ^ 63.

(** [time.Second], in nanoseconds. *)
Definition Second : Z := 1000000000.

(** Multiplication of two [time.Duration] values. *)
Definition Duration_mul (a b : Z) : Z := wrap64 (a * b).

(** Config file description, as decoded from [config.json]; a field that
    is absent from the file keeps Go's zero value. *)
Record SimulationManagerConfig := {
  ExperimentId : string;
  InformationServiceUrl : string;
  ExperimentManagerUser : string;
  ExperimentManagerPass : string;
  Development : bool;
  StartAt : string;
  Timeout : Z;
  ScalarmCertificatePath : string;
  InsecureSSL : bool
}.

Definition set_Timeout (t : Z) (c : SimulationManagerConfig) : SimulationManagerConfig :=
  {| ExperimentId := ExperimentId c;
     InformationServiceUrl := InformationServiceUrl c;
     ExperimentManagerUser := ExperimentManagerUser c;
     ExperimentManagerPass := ExperimentManagerPass c;
     Development := Development c;
     StartAt := StartAt c;
     Timeout := t;
     ScalarmCertificatePath := ScalarmCertificatePath c;
     InsecureSSL := InsecureSSL c |}.

(** [main], lines 290-292: [if config.Timeout <= 0 { config.Timeout = 60 }]. *)
Definition main_defaultTimeout (config : SimulationManagerConfig) : SimulationManagerConfig :=
  if bool_decide (Timeout config <= 0) then set_Timeout 60 config else config.

(** [main], line 293:
    [communicationTimeout := time.Duration(config.Timeout) * time.Second]. *)
Definition main_communicationTimeout (config : SimulationManagerConfig) : Z :=
  Duration_mul (Timeout (main_defaultTimeout config)) Second.

(* ================================================================== *)
(** ** Requests and the network oracle *)

(** [url.Values]: [Set] replaces the values of a key, [Add] appends one. *)
Definition Values_Set (k v : string) (d : gmap string (list string)) : gmap string (list string) :=
  <[k := [v]]> d.

Definition Values_Add (k v : string) (d : gmap string (list string)) : gmap string (list string) :=
  <[k := default [] (d !! k) ++ [v]]> d.

(** What the [io.Reader] of a request carries; [NoBody] is the [nil] reader,
    [RestOfBody] what is left in a reader that an earlier call has read:
    nothing, once it was read to its end. *)
Inductive RequestBody :=
| NoBody
| FormBody (data : gmap string (list string))
| MultipartBody (field filename content : string)
| RestOfBody.

Record RequestInfo := {
  HttpMethod : string;
  Body : RequestBody;
  ContentType : string;
  ServiceMethod : string
}.

(** The [*http.Request] handed to [client.Do]. *)
Record Request := {
  req_method : string;
  req_url : string;
  req_body : RequestBody;
  req_basic_auth : string * string;
  req_content_type : option string
}.

(** [ioutil.ReadAll(resp.Body)]. *)
Inductive ReadResult :=
| ReadOk (body : string)
| ReadErr (err : string).

(** [client.Do(request)] when it returns: a transport error, or a response
    with its status code and the outcome of reading its body. *)
Inductive DoResult :=
| DoErr (err : string)
| DoResp (StatusCode : Z) (rd : ReadResult).

Record Attempt := {
  elapsed : N;
  outcome : DoResult
}.

(** A network on which every call of [client.Do] returns. *)
Record Http := {
  (** [http.NewRequest(method, url, body)]: its error, if any. *)
  NewRequest_err : string -> string -> option string;
  (** The n-th [client.Do] on a request within one [GetWithTimeout]. *)
  Do : Request -> nat -> Attempt
}.

(* ================================================================== *)
(** ** GetWithTimeout *)

Inductive LoopExit :=
| Broke (StatusCode : Z) (rd : ReadResult)
| Expired (err : option string).

(** The [for communicationStart.Add(communicationTimeout).After(time.Now())]
    loop; [n] counts the calls of [client.Do] made so far and [err] is the
    last value assigned to [err]. *)
Fixpoint GetWithTimeout_loop (fuel : nat) (client : Http) (request : Request)
    (deadline now : Z) (n : nat) (err : option string) : option (LoopExit * Z) :=
  if bool_decide (now < deadline) then
    match fuel with
    | O => None
    | S fuel' =>
        let a := Do client request n in
        let now1 := now + Z.of_N (elapsed a) in
        match outcome a with
        | DoErr e =>
            GetWithTimeout_loop fuel' client request deadline (now1 + 1 * Second) (S n) (Some e)
        | DoResp code rd => Some (Broke code rd, now1)
        end
    end
  else Some (Expired err, now).

(** Every failed iteration sleeps one second, so the loop body runs at most
    this many times. *)
Definition GetWithTimeout_fuel (communicationTimeout : Z) : nat :=
  S (Z.to_nat (communicationTimeout / Second)).

(** Returns [((body, err), now')]. *)
Definition GetWithTimeout (client : Http) (request : Request)
    (communicationTimeout now : Z) : option ((option string * option string) * Z) :=
  let communicationStart := now in
  match GetWithTimeout_loop (GetWithTimeout_fuel communicationTimeout) client request
          (communicationStart + communicationTimeout) now 0 None with
  | None => None
  | Some (Expired err, now') => Some ((None, err), now')
  | Some (Broke _ (ReadErr e), now') => Some ((None, Some e), now')
  | Some (Broke _ (ReadOk body), now') => Some ((Some body, None), now')
  end.

(* ================================================================== *)
(** ** ExecuteScalarmRequest *)

(** [Fatal] prints the error and calls [os.Exit(1)]. *)
Inductive DispatchResult :=
| Response (body : option string)
| Fatal (err : string)
| IndexOutOfRange.

Definition protocol (config : SimulationManagerConfig) : string :=
  if Development config then "http" else "https".

Definition request_url (config : SimulationManagerConfig) (serviceUrl : string)
    (reqInfo : RequestInfo) : string :=
  protocol config +:+ "://" +:+ serviceUrl +:+ "/" +:+ ServiceMethod reqInfo.

(** The request built on a body reader that has not been read yet. *)
Definition build_request (config : SimulationManagerConfig) (serviceUrl : string)
    (reqInfo : RequestInfo) : Request :=
  {| req_method := HttpMethod reqInfo;
     req_url := request_url config serviceUrl reqInfo;
     req_body := Body reqInfo;
     req_basic_auth := (ExperimentManagerUser config, ExperimentManagerPass config);
     req_content_type :=
       match Body reqInfo with
       | NoBody => None
       | _ => Some (ContentType reqInfo)
       end |}.

(** The [for _, v := range perm] loop; [perm] is the value drawn by
    [rand.Perm(len(serviceUrls))]. *)
Fixpoint ExecuteScalarmRequest_range (client : Http) (reqInfo : RequestInfo)
    (serviceUrls : list string) (config : SimulationManagerConfig) (timeout : Z)
    (perm : list nat) (now : Z) : option (DispatchResult * Z) :=
  match perm with
  | [] => Some (Fatal "Could not execute request against Scalarm service", now)
  | v :: perm' =>
      match serviceUrls !! v with
      | None => Some (IndexOutOfRange, now)
      | Some serviceUrl =>
          match NewRequest_err client (HttpMethod reqInfo) (request_url config serviceUrl reqInfo) with
          | Some err => Some (Fatal err, now)
          | None =>
              match GetWithTimeout client (build_request config serviceUrl reqInfo) timeout now with
              | None => None
              | Some ((response, None), now') => Some (Response response, now')
              | Some ((_, Some _), now') =>
                  ExecuteScalarmRequest_range client reqInfo serviceUrls config timeout perm' now'
              end
          end
      end
  end.

Definition ExecuteScalarmRequest (client : Http) (reqInfo : RequestInfo)
    (serviceUrls : list string) (config : SimulationManagerConfig) (timeout : Z)
    (perm : list nat) (now : Z) : option (DispatchResult * Z) :=
  ExecuteScalarmRequest_range client reqInfo serviceUrls config timeout perm now.

(** *** What it means for an endpoint to answer *)

(** Time spent by the first [k] failed iterations of the retry loop. *)
Fixpoint spent (client : Http) (request : Request) (k : nat) : Z :=
  match k with
  | O => 0
  | S k' => spent client request k' + Z.of_N (elapsed (Do client request k')) + 1 * Second
  end.

(** The request is answered within the window: attempts [0 .. k-1] fail,
    attempt [k] starts before the deadline and returns a response, with
    any status code, whose body is read in full. *)
Definition answers (client : Http) (request : Request) (timeout : Z) (body : string) : Prop :=
  exists (k : nat) (code : Z),
    (forall j, (j < k)%nat -> exists e, outcome (Do client request j) = DoErr e) /\
    spent client request k < timeout /\
    outcome (Do client request k) = DoResp code (ReadOk body).

(** The same network with every status code replaced by [code]. *)
Definition with_status (code : Z) (client : Http) : Http :=
  {| NewRequest_err := NewRequest_err client;
     Do := fun request n =>
       let a := Do client request n in
       {| elapsed := elapsed a;
          outcome := match outcome a with
                     | DoErr e => DoErr e
                     | DoResp _ rd => DoResp code rd
                     end |} |}.

(** A loop exit with its status code replaced by [code]. *)
Definition erase_code (code : Z) (x : LoopExit * Z) : LoopExit * Z :=
  match x with
  | (Broke _ rd, t) => (Broke code rd, t)
  | (Expired err, t) => (Expired err, t)
  end.

(** The endpoint with index [v] can be asked and answers with [body]. *)
Definition endpoint_answers (client : Http) (reqInfo : RequestInfo) (serviceUrls : list string)
    (config : SimulationManagerConfig) (timeout : Z) (v : nat) (body : string) : Prop :=
  exists serviceUrl,
    serviceUrls !! v = Some serviceUrl /\
    answers client (build_request config serviceUrl reqInfo) timeout body.

(** No complete answer comes from endpoint [v] within the window. *)
Definition endpoint_silent (client : Http) (reqInfo : RequestInfo) (serviceUrls : list string)
    (config : SimulationManagerConfig) (timeout : Z) (v : nat) : Prop :=
  forall body, ~ endpoint_answers client reqInfo serviceUrls config timeout v body.

(** [http.NewRequest] accepts the URL built for every endpoint of the pool. *)
Definition requests_well_formed (client : Http) (reqInfo : RequestInfo)
    (serviceUrls : list string) (config : SimulationManagerConfig) : Prop :=
  forall serviceUrl, serviceUrl ∈ serviceUrls ->
    NewRequest_err client (HttpMethod reqInfo) (request_url config serviceUrl reqInfo) = None.


(* ================================================================== *)
(** ** The dispatcher on the wire *)

(** The [http.Client] of line 311 is built without a timeout, and
    [GetWithTimeout] looks at its window only between two calls: a call of
    [client.Do] on an endpoint that accepts the connection and never
    answers does not return.  And every request of one
    [ExecuteScalarmRequest] is built on the one [io.Reader] of the
    [RequestInfo]: a call that sends the body reads it, and what is sent
    afterwards, to the same or to another endpoint, is what is left.

    [Net] is the network with both effects: [Do_blocks] tells the calls
    that never return, [Do_reads_body] the calls that read the body of a
    request that has one, and [client_of] is what the calls that return
    give. *)
Record Net := {
  client_of : Http;
  Do_blocks : Request -> nat -> bool;
  Do_reads_body : Request -> nat -> bool
}.

(** One call of [client.Do] as it was made: the request, the number of the
    attempt within its [GetWithTimeout], and whether the body reader had
    not been read yet. *)
Record Call := {
  call_request : Request;
  call_attempt : nat;
  call_body_unread : bool
}.

(** The clock, the state of the body reader and the calls made so far, in
    the order in which they were made. *)
Record Wire := {
  wire_now : Z;
  body_read : bool;
  calls : list Call
}.

(** A function either returns or is stuck for ever in a call. *)
Inductive Run (A : Type) :=
| Returned (a : A) (w : Wire)
| Hangs (w : Wire).
Arguments Returned {A} a w.
Arguments Hangs {A} w.

Definition wire_of {A : Type} (x : Run A) : Wire :=
  match x with
  | Returned _ w => w
  | Hangs w => w
  end.

(** The result and the clock of a run that returns. *)
Definition Run_result {A : Type} (x : Run A) : option (A * Z) :=
  match x with
  | Returned a w => Some (a, wire_now w)
  | Hangs _ => None
  end.

Definition has_body (request : Request) : bool :=
  match req_body request with
  | NoBody => false
  | _ => true
  end.

(** The loop of [GetWithTimeout], lines 160-170. *)
Fixpoint GetWithTimeout_net_loop (fuel : nat) (net : Net) (request : Request)
    (deadline : Z) (w : Wire) (n : nat) (err : option string) : option (Run LoopExit) :=
  if bool_decide (wire_now w < deadline) then
    match fuel with
    | O => None
    | S fuel' =>
        let made := calls w ++ [{| call_request := request; call_attempt := n;
                                   call_body_unread := negb (body_read w) |}] in
        if Do_blocks net request n then
          Some (Hangs {| wire_now := wire_now w; body_read := body_read w; calls := made |})
        else
          let a := Do (client_of net) request n in
          let now1 := wire_now w + Z.of_N (elapsed a) in
          let read1 := body_read w || (has_body request && Do_reads_body net request n) in
          match outcome a with
          | DoErr e =>
              GetWithTimeout_net_loop fuel' net request deadline
                {| wire_now := now1 + 1 * Second; body_read := read1; calls := made |}
                (S n) (Some e)
          | DoResp code rd =>
              Some (Returned (Broke code rd)
                      {| wire_now := now1; body_read := read1; calls := made |})
          end
    end
  else Some (Returned (Expired err) w).

Definition GetWithTimeout_net (net : Net) (request : Request) (communicationTimeout : Z)
    (w : Wire) : option (Run (option string * option string)) :=
  match GetWithTimeout_net_loop (GetWithTimeout_fuel communicationTimeout) net request
          (wire_now w + communicationTimeout) w 0 None with
  | None => None
  | Some (Hangs w') => Some (Hangs w')
  | Some (Returned (Expired err) w') => Some (Returned (None, err) w')
  | Some (Returned (Broke _ (ReadErr e)) w') => Some (Returned (None, Some e) w')
  | Some (Returned (Broke _ (ReadOk body)) w') => Some (Returned (Some body, None) w')
  end.

(** [http.NewRequest(method, url, reqInfo.Body)] and the two header lines
    after it, [read] telling whether the reader has been read before: the
    request then carries what is left of the body, under the same
    [Content-Type]. *)
Definition build_request_net (config : SimulationManagerConfig) (serviceUrl : string)
    (reqInfo : RequestInfo) (read : bool) : Request :=
  let request := build_request config serviceUrl reqInfo in
  match Body reqInfo with
  | NoBody => request
  | _ =>
      if read then
        {| req_method := req_method request;
           req_url := req_url request;
           req_body := RestOfBody;
           req_basic_auth := req_basic_auth request;
           req_content_type := req_content_type request |}
      else request
  end.

(** The [for _, v := range perm] loop of [ExecuteScalarmRequest]. *)
Fixpoint ExecuteScalarmRequest_net_range (net : Net) (reqInfo : RequestInfo)
    (serviceUrls : list string) (config : SimulationManagerConfig) (timeout : Z)
    (perm : list nat) (w : Wire) : option (Run DispatchResult) :=
  match perm with
  | [] => Some (Returned (Fatal "Could not execute request against Scalarm service") w)
  | v :: perm' =>
      match serviceUrls !! v with
      | None => Some (Returned IndexOutOfRange w)
      | Some serviceUrl =>
          match NewRequest_err (client_of net) (HttpMethod reqInfo)
                  (request_url config serviceUrl reqInfo) with
          | Some err => Some (Returned (Fatal err) w)
          | None =>
              match GetWithTimeout_net net
                      (build_request_net config serviceUrl reqInfo (body_read w)) timeout w with
              | None => None
              | Some (Hangs w') => Some (Hangs w')
              | Some (Returned (response, None) w') => Some (Returned (Response response) w')
              | Some (Returned (_, Some _) w') =>
                  ExecuteScalarmRequest_net_range net reqInfo serviceUrls config timeout perm' w'
              end
          end
      end
  end.

Definition ExecuteScalarmRequest_net (net : Net) (reqInfo : RequestInfo)
    (serviceUrls : list string) (config : SimulationManagerConfig) (timeout : Z)
    (perm : list nat) (w : Wire) : option (Run DispatchResult) :=
  ExecuteScalarmRequest_net_range net reqInfo serviceUrls config timeout perm w.

(** A request that [ExecuteScalarmRequest] may build for this pool. *)
Definition pool_request (config : SimulationManagerConfig) (reqInfo : RequestInfo)
    (serviceUrls : list string) (request : Request) : Prop :=
  exists serviceUrl read,
    serviceUrl ∈ serviceUrls /\ request = build_request_net config serviceUrl reqInfo read.

(** The URLs of the first attempts among the calls: the endpoints that
    were tried, in the order in which they were. *)
Fixpoint endpoints_tried (l : list Call) : list string :=
  match l with
  | [] => []
  | c :: l' =>
      match call_attempt c with
      | O => req_url (call_request c) :: endpoints_tried l'
      | S _ => endpoints_tried l'
      end
  end.

(** A network on which every call returns and no call reads the body. *)
Definition Net_of (client : Http) : Net :=
  {| client_of := client;
     Do_blocks := fun _ _ => false;
     Do_reads_body := fun _ _ => false |}.
(* ================================================================== *)
(** ** Decoded JSON *)

(** What [encoding/json] stores in an [interface{}]: [nil], [bool],
    [float64], [string], [[]interface{}] and [map[string]interface{}].
    A float64 decoded from JSON is finite; it is kept as the rational it
    denotes. *)
Inductive JSON :=
| JNull
| JBool (b : bool)
| JNumber (f : Q)
| JString (s : string)
| JArray (items : list JSON)
| JObject (fields : list (string * JSON)).

(** [json.Unmarshal(body, &simulation_run)] on a [map[string]interface{}],
    for a body that is decoded in full or not at all.  [decoded] is the
    value of the body, [None] when the body is not valid JSON.  An object
    is stored key by key into the map that is already there, keeping the
    entries of keys it does not mention; [null] resets the map; a syntax
    error or any other JSON value is reported as an error and leaves the
    map as it was.  A nil map reads like the empty one.  Returns the map
    and whether [err != nil].  The third outcome of [json.Unmarshal] is
    [Unmarshal_partly]. *)
Definition Unmarshal_map (decoded : option JSON) (m : gmap string JSON) : gmap string JSON * bool :=
  match decoded with
  | None => (m, true)
  | Some JNull => (∅, false)
  | Some (JObject fields) => (foldl (fun acc kv => <[kv.1 := kv.2]> acc) m fields, false)
  | Some _ => (m, true)
  end.

(** [json.Unmarshal] on an object that is valid JSON but holds a number
    that no float64 can hold (such as [1e999]): the decoder goes through
    the whole object, stores its keys into the map that is already there
    ([stored]: the keys with what was stored under them, nil for such a
    number) and then returns the error it saved on the way. *)
Definition Unmarshal_partly (stored : list (string * JSON)) (m : gmap string JSON)
    : gmap string JSON * bool :=
  (foldl (fun acc kv => <[kv.1 := kv.2]> acc) m stored, true).

(** The value a JSON object gives to key [k]: its last binding. *)
Fixpoint fields_get (k : string) (fields : list (string * JSON)) : option JSON :=
  match fields with
  | [] => None
  | (k', v) :: rest =>
      match fields_get k rest with
      | Some v' => Some v'
      | None => if bool_decide (k' = k) then Some v else None
      end
  end.

(** The type assertions [x.(string)] and [x.(float64)] on a map entry;
    [None] stands for the run-time panic of a failed assertion (a missing
    key reads as the nil interface). *)
Definition assert_string (x : option JSON) : option string :=
  match x with
  | Some (JString s) => Some s
  | _ => None
  end.

Definition assert_float64 (x : option JSON) : option Q :=
  match x with
  | Some (JNumber f) => Some f
  | _ => None
  end.

(** [time.Duration(f)] for a float64 [f]: truncation toward zero.  Outside
    the int64 range Go leaves the result to the implementation; amd64
    yields the smallest int64. *)
Definition Duration_of_float64 (f : Q) : Z :=
  let t := Z.quot (Qnum f) (Z.pos (Qden f)) in
  if bool_decide (- 2 ^ 63 <= t < 2 ^ 63) then t else - 2 ^ 63.

(* ================================================================== *)
(** ** The job acquisition loop of [main] (step 4.a) *)

(** One call of [ExecuteScalarmRequest] for [next_simulation] as the loop
    sees it: how long it took and either the [Fatal] exit or the body,
    given by what [json.Unmarshal] makes of it: a body decoded in full or
    rejected as a whole ([ReplyBody]), or an object rejected for one of
    its numbers after its keys were stored ([ReplyBodyPartly]). *)
Inductive Reply :=
| ReplyFatal (err : string)
| ReplyBody (decoded : option JSON)
| ReplyBodyPartly (stored : list (string * JSON)).

(** [json.Unmarshal(nextSimulationBody, &simulation_run)] on the body of a
    reply. *)
Definition Unmarshal_reply (rp : Reply) (m : gmap string JSON)
    : option (gmap string JSON * bool) :=
  match rp with
  | ReplyFatal _ => None
  | ReplyBody decoded => Some (Unmarshal_map decoded m)
  | ReplyBodyPartly stored => Some (Unmarshal_partly stored m)
  end.

(** The object whose keys [json.Unmarshal] stores, if the body is one. *)
Definition reply_fields (rp : Reply) : option (list (string * JSON)) :=
  match rp with
  | ReplyBody (Some (JObject fields)) => Some fields
  | ReplyBodyPartly stored => Some stored
  | _ => None
  end.

Record Fetch := {
  took : N;
  reply : Reply
}.

(** The map [simulation_run] once the first [n] replies of a round have
    been through [json.Unmarshal]; a round starts with the nil map. *)
Fixpoint simulation_run_after (env : nat -> Fetch) (n : nat) : gmap string JSON :=
  match n with
  | O => ∅
  | S n' =>
      let m := simulation_run_after env n' in
      match Unmarshal_reply (reply (env n')) m with
      | Some (m', _) => m'
      | None => m
      end
  end.

(** The [status] string carried by the body of a reply, if it has one. *)
Definition reply_status (f : Fetch) : option string :=
  match reply f with
  | ReplyBody (Some (JObject fields)) => assert_string (fields_get "status" fields)
  | _ => None
  end.

(** What the [if / else if] chain on [status] does with a decoded reply. *)
Inductive Classification :=
| StatusPanic                 (* [simulation_run["status"].(string)] fails *)
| Retry (log : string)        (* falls through to the 5 s sleep *)
| WaitBreak                   (* [wait = true; break] *)
| OkBreak.                    (* [nextSimulationFailed = false; break] *)

Definition classify (simulation_run : gmap string JSON) : Classification :=
  match assert_string (simulation_run !! "status") with
  | None => StatusPanic
  | Some status =>
      if bool_decide (status = "all_sent") then
        Retry "[SiM] There is no more simulations to run in this experiment."
      else if bool_decide (status = "error") then
        Retry "[SiM] An error occurred while getting next simulation."
      else if bool_decide (status = "wait") then WaitBreak
      else if bool_decide (status <> "ok") then
        Retry "[SiM] We cannot continue due to unsupported status."
      else OkBreak
  end.

(** How the inner [for] loop is left. *)
Inductive Round :=
| RoundOk                     (* [nextSimulationFailed = false] *)
| RoundWait                   (* [wait = true] *)
| RoundFailed                 (* the window closed, [nextSimulationFailed] still true *)
| RoundFatal (err : string)   (* [Fatal] inside the dispatcher: exit code 1 *)
| RoundPanic.                 (* failed type assertion on [status] *)

Record RoundEnd := {
  round : Round;
  simulation_run : gmap string JSON;
  round_now : Z;
  requests : nat              (* calls of [ExecuteScalarmRequest] made *)
}.

(** The inner loop, lines 418-450.  [k] counts the requests made so far,
    [env k] is the outcome of request number [k]. *)
Fixpoint nextSimulation_loop (fuel : nat) (env : nat -> Fetch) (deadline now : Z) (k : nat)
    (m : gmap string JSON) : option RoundEnd :=
  if bool_decide (now < deadline) then
    match fuel with
    | O => None
    | S fuel' =>
        let now1 := now + Z.of_N (took (env k)) in
        match reply (env k) with
        | ReplyFatal err =>
            Some {| round := RoundFatal err; simulation_run := m; round_now := now1;
                    requests := S k |}
        | ReplyBody decoded =>
            let '(m', err) := Unmarshal_map decoded m in
            if err then
              nextSimulation_loop fuel' env deadline (now1 + 5 * Second) (S k) m'
            else
              match classify m' with
              | StatusPanic =>
                  Some {| round := RoundPanic; simulation_run := m'; round_now := now1;
                          requests := S k |}
              | Retry _ =>
                  nextSimulation_loop fuel' env deadline (now1 + 5 * Second) (S k) m'
              | WaitBreak =>
                  Some {| round := RoundWait; simulation_run := m'; round_now := now1;
                          requests := S k |}
              | OkBreak =>
                  Some {| round := RoundOk; simulation_run := m'; round_now := now1;
                          requests := S k |}
              end
        | ReplyBodyPartly stored =>
            let '(m', _) := Unmarshal_partly stored m in
            nextSimulation_loop fuel' env deadline (now1 + 5 * Second) (S k) m'
        end
    end
  else Some {| round := RoundFailed; simulation_run := m; round_now := now; requests := k |}.

(** Every pass through the loop that does not leave it sleeps 5 seconds. *)
Definition nextSimulation_fuel (window : Z) : nat :=
  S (Z.to_nat (window / (5 * Second))).

(** What one iteration of the outer [for] of [main] does up to line 461. *)
Inductive Acquired :=
| SleepThenContinue (d : Z) (now : Z)   (* [time.Sleep(d)] then [continue] *)
| ExitProcess (code : Z)                (* [os.Exit(code)] *)
| Panicked                              (* failed type assertion *)
| Job (simulation_index : Q) (m : gmap string JSON) (now : Z).

(** The instant at which [time.Sleep(d)] returns. *)
Definition after_Sleep (d now : Z) : Z := now + Z.max 0 d.

(** Lines 451-461: what [main] does once the inner loop is left. *)
Definition main_afterRound (r : RoundEnd) : Acquired :=
  match round r with
  | RoundFatal _ => ExitProcess 1
  | RoundPanic => Panicked
  | RoundWait =>
      match assert_float64 (simulation_run r !! "duration_in_seconds") with
      | None => Panicked
      | Some f =>
          let d := Duration_mul (Duration_of_float64 f) Second in
          SleepThenContinue d (after_Sleep d (round_now r))
      end
  | RoundFailed => ExitProcess 0
  | RoundOk =>
      match assert_float64 (simulation_run r !! "simulation_id") with
      | None => Panicked
      | Some simulation_index => Job simulation_index (simulation_run r) (round_now r)
      end
  end.

(** Lines 410-461: one acquisition round and what follows it.
    Returns the result and the number of [next_simulation] requests made. *)
Definition main_acquire (env : nat -> Fetch) (communicationTimeout : Z)
    (experimentManagers : list string) (now : Z) : option (Acquired * nat) :=
  let communicationStart := now in
  let window := Duration_mul communicationTimeout (Z.of_nat (length experimentManagers)) in
  match nextSimulation_loop (nextSimulation_fuel window) env (communicationStart + window)
          now 0 ∅ with
  | None => None
  | Some r =>
      Some (match round r with
            | RoundFatal _ => ExitProcess 1
            | RoundPanic => Panicked
            | RoundWait =>
                match assert_float64 (simulation_run r !! "duration_in_seconds") with
                | None => Panicked
                | Some f =>
                    let d := Duration_mul (Duration_of_float64 f) Second in
                    SleepThenContinue d (after_Sleep d (round_now r))
                end
            | RoundFailed => ExitProcess 0
            | RoundOk =>
                match assert_float64 (simulation_run r !! "simulation_id") with
                | None => Panicked
                | Some simulation_index => Job simulation_index (simulation_run r) (round_now r)
                end
            end, requests r)
  end.

(* ================================================================== *)
(** ** Result files and their upload *)

(** Results structure - sent back to Experiment Manager.  [Results] is an
    [interface{}]: [JNull] is the nil interface. *)
Record SimulationRunResults := {
  Status : string;
  Results : JSON;
  Reason : string
}.

(** [new(SimulationRunResults)]. *)
Definition new_SimulationRunResults : SimulationRunResults :=
  {| Status := ""; Results := JNull; Reason := "" |}.

Definition set_error (reason : string) (r : SimulationRunResults) : SimulationRunResults :=
  {| Status := "error"; Results := Results r; Reason := reason |}.

(** What [json.NewDecoder(file).Decode(&results)] leaves behind: the
    struct the pointer refers to afterwards ([None]: the pointer was set
    to nil by a JSON [null]) and the error returned. *)
Record DecodeOutcome := {
  decoded_value : option SimulationRunResults;
  decode_err : option string
}.

(** What the worker finds when it looks for a result file. *)
Inductive FileProbe :=
| NotExist (err : string)          (* [os.Stat] fails and [os.IsNotExist(err)] *)
| OpenFails (err : string)         (* [os.Open] fails *)
| Opened (d : DecodeOutcome).

(** Library functions the worker formats values with. *)
Record GoLib := {
  json_Marshal : JSON -> string;       (* [json.Marshal], as a string *)
  fmt_v_float64 : Q -> string          (* the verb [%v] on a float64 *)
}.

(** Lines 547-568; the messages name [output.json].  [None] is a nil
    [simulationRunResults]. *)
Definition main_readOutput (probe : FileProbe) : option SimulationRunResults :=
  let simulationRunResults := new_SimulationRunResults in
  match probe with
  | NotExist err =>
      Some (set_error ("No output.json file found: " +:+ err) simulationRunResults)
  | OpenFails err =>
      Some (set_error ("Could not open output.json: " +:+ err) simulationRunResults)
  | Opened d =>
      match decode_err d with
      | None => decoded_value d
      | Some err =>
          set_error ("Error during output.json parsing: " +:+ err) <$> decoded_value d
      end
  end.

(** Lines 205-226 of [IntermediateMonitoring]. *)
Definition IntermediateMonitoring_readResult (probe : FileProbe) : option SimulationRunResults :=
  let intermediateResults := new_SimulationRunResults in
  match probe with
  | NotExist err =>
      Some (set_error ("No 'intermediate_result.json' file found: " +:+ err)
              intermediateResults)
  | OpenFails err =>
      Some (set_error ("Could not open 'intermediate_result.json': " +:+ err)
              intermediateResults)
  | Opened d =>
      match decode_err d with
      | None => decoded_value d
      | Some err =>
          set_error ("Error during 'intermediate_result.json' parsing: " +:+ err)
            <$> decoded_value d
      end
  end.

(** The form sent with [progress_info] and [mark_as_complete]. *)
Definition results_form (lib : GoLib) (r : SimulationRunResults) : gmap string (list string) :=
  Values_Add "result" (json_Marshal lib (Results r))
    (Values_Add "reason" (Reason r)
       (Values_Set "status" (Status r) ∅)).

Definition markAsCompleteInfo (lib : GoLib) (config : SimulationManagerConfig)
    (simulation_index : Q) (r : SimulationRunResults) : RequestInfo :=
  {| HttpMethod := "POST";
     Body := FormBody (results_form lib r);
     ContentType := "application/x-www-form-urlencoded";
     ServiceMethod := "experiments/" +:+ ExperimentId config +:+ "/simulations/"
                      +:+ fmt_v_float64 lib simulation_index +:+ "/mark_as_complete" |}.

Definition progressInfo (lib : GoLib) (config : SimulationManagerConfig)
    (simIndex : Q) (r : SimulationRunResults) : RequestInfo :=
  {| HttpMethod := "POST";
     Body := FormBody (results_form lib r);
     ContentType := "application/x-www-form-urlencoded";
     ServiceMethod := "experiments/" +:+ ExperimentId config +:+ "/simulations/"
                      +:+ fmt_v_float64 lib simIndex +:+ "/progress_info" |}.

(** How a step of the worker ends. *)
Inductive StepEnd :=
| Continues (body : option string) (now : Z)
| Exits (code : Z)                 (* [os.Exit(code)] *)
| NilDereference                   (* field access through a nil pointer *)
| BadIndex.                        (* slice index out of range *)

Definition after_dispatch (r : DispatchResult * Z) : StepEnd :=
  match r with
  | (Response body, now') => Continues body now'
  | (Fatal _, _) => Exits 1
  | (IndexOutOfRange, _) => BadIndex
  end.

(** Steps 4e and 4f of [main], lines 547-584: read [output.json] and send
    the result with [mark_as_complete]. *)
Definition main_reportResults (lib : GoLib) (client : Http) (config : SimulationManagerConfig)
    (experimentManagers : list string) (communicationTimeout : Z) (simulation_index : Q)
    (probe : FileProbe) (perm : list nat) (now : Z) : option StepEnd :=
  match main_readOutput probe with
  | None => Some NilDereference
  | Some simulationRunResults =>
      after_dispatch <$>
        ExecuteScalarmRequest client
          (markAsCompleteInfo lib config simulation_index simulationRunResults)
          experimentManagers config communicationTimeout perm now
  end.

(** Lines 228-244 of [IntermediateMonitoring]: the intermediate result is
    sent only when its status is [ok]; the timeout is 30 seconds. *)
Definition IntermediateMonitoring_report (lib : GoLib) (client : Http)
    (config : SimulationManagerConfig) (experimentManagers : list string) (simIndex : Q)
    (intermediateResults : option SimulationRunResults) (perm : list nat) (now : Z)
    : option StepEnd :=
  let communicationTimeout := 30 * Second in
  match intermediateResults with
  | None => Some NilDereference
  | Some r =>
      if bool_decide (Status r = "ok") then
        after_dispatch <$>
          ExecuteScalarmRequest client (progressInfo lib config simIndex r)
            experimentManagers config communicationTimeout perm now
      else Some (Continues None now)
  end.


(** Steps 4e and 4f on the wire.  Line 580 makes a new reader for the
    form. *)
Definition new_reader (w : Wire) : Wire :=
  {| wire_now := wire_now w; body_read := false; calls := calls w |}.

Definition main_reportResults_net (lib : GoLib) (net : Net) (config : SimulationManagerConfig)
    (experimentManagers : list string) (communicationTimeout : Z) (simulation_index : Q)
    (probe : FileProbe) (perm : list nat) (w : Wire) : option (Run StepEnd) :=
  match main_readOutput probe with
  | None => Some (Returned NilDereference w)
  | Some simulationRunResults =>
      match ExecuteScalarmRequest_net net
              (markAsCompleteInfo lib config simulation_index simulationRunResults)
              experimentManagers config communicationTimeout perm (new_reader w) with
      | None => None
      | Some (Hangs w') => Some (Hangs w')
      | Some (Returned r w') => Some (Returned (after_dispatch (r, wire_now w')) w')
      end
  end.
(* ================================================================== *)
(** ** The stop / acknowledge handshake of one job

    The three goroutines of a job, from the [go IntermediateMonitoring(...)]
    statement of [main] (line 511) on: the rest of the loop body of [main],
    [IntermediateMonitoring], and the clean-up goroutine of step 5.  They
    share the channels [messages] and [finished], both made by
    [make(chan struct{}, 1)].  A step of the system is a step of one
    goroutine, chosen by the scheduler. *)

(** A [chan struct{}] of capacity 1: how many values are queued and whether
    it has been closed. *)
Record Chan := {
  queued : nat;
  closed : bool
}.

Definition make_chan : Chan := {| queued := 0; closed := false |}.

Inductive ChanOp :=
| Done (c : Chan)
| Blocks
| ChanPanic.

(** [c <- struct{}{}]. *)
Definition chan_send (c : Chan) : ChanOp :=
  if closed c then ChanPanic
  else if bool_decide (queued c < 1)%nat then Done {| queued := S (queued c); closed := false |}
  else Blocks.

(** [<-c]: a queued value, or the zero value of a closed channel. *)
Definition chan_recv (c : Chan) : ChanOp :=
  match queued c with
  | S n => Done {| queued := n; closed := closed c |}
  | O => if closed c then Done c else Blocks
  end.

(** [close(c)]. *)
Definition chan_close (c : Chan) : ChanOp :=
  if closed c then ChanPanic else Done {| queued := queued c; closed := true |}.

(** Where [main] stands in the body of its loop. *)
Inductive MainPC :=
| M_Executor            (* 4c: [executorCmd.Run()] *)
| M_SendStop            (* line 527: [messages <- struct{}{}] *)
| M_CloseMessages       (* line 528: [close(messages)] *)
| M_StatOutputReader    (* 4d: [os.Stat] of [output_reader] *)
| M_RunOutputReader     (* 4d: [outputReaderCmd.Run()] *)
| M_MarkAsComplete      (* 4e, 4f: read [output.json], send [mark_as_complete] *)
| M_StatBinaries        (* 4g: [os.Stat("output.tar.gz")] *)
| M_UploadBinaries      (* 4g: the upload *)
| M_StatStdout          (* 4h: [os.Stat("_stdout.txt")] *)
| M_UploadStdout        (* 4h: the upload *)
| M_SpawnCleanup        (* 5: [go func() { ... }()] *)
| M_Chdir               (* 6: [rootDir.Chdir()] *)
| M_NextJob.            (* back at the head of the loop: later jobs *)

(** Where [IntermediateMonitoring] stands. *)
Inductive MonitorPC :=
| Mon_Stat              (* [os.Stat] of [progress_monitor] *)
| Mon_RunAdapter        (* [progressMonitorCmd.Run()] *)
| Mon_ReadResult        (* read [intermediate_result.json] *)
| Mon_Report            (* [ExecuteScalarmRequest(progressInfo, ...)] *)
| Mon_Sleep             (* [time.Sleep(10 * time.Second)] *)
| Mon_Select            (* [select { case <-messages: ... default: }] *)
| Mon_AckStopped        (* line 250: [finished <- struct{}{}] *)
| Mon_AckNoScript       (* line 257: [finished <- struct{}{}] *)
| Mon_Return            (* [return], or the end of the function *)
| Mon_Done.

(** Where the clean-up goroutine stands. *)
Inductive CleanupPC :=
| C_NotSpawned
| C_Receive             (* [case _ = <-finished] *)
| C_RemoveAll           (* [os.RemoveAll(simulationDirPath)] *)
| C_CloseFinished       (* [close(finished)] *)
| C_Done.

Inductive Process :=
| Running
| Exited (code : Z)
| Crashed.                (* run-time panic *)

Record State := {
  main_pc : MainPC;
  monitor_pc : MonitorPC;
  cleanup_pc : CleanupPC;
  messages : Chan;
  finished : Chan;
  process : Process
}.

Definition initial : State :=
  {| main_pc := M_Executor; monitor_pc := Mon_Stat; cleanup_pc := C_NotSpawned;
     messages := make_chan; finished := make_chan; process := Running |}.

Inductive Thread := TMain | TMonitor | TCleanup.

(** What the world answers to the step taken, where it has a say: [Yes]
    (the file exists, the command succeeds, the dispatcher returns, the
    intermediate status is [ok]), [No] (it does not), or [Panics] (the step
    dereferences a nil result). *)
Inductive Outcome := Yes | No | Panics.

Definition Label : Type := Thread * Outcome.

Definition set_main (pc : MainPC) (s : State) : State :=
  {| main_pc := pc; monitor_pc := monitor_pc s; cleanup_pc := cleanup_pc s;
     messages := messages s; finished := finished s; process := process s |}.

Definition set_monitor (pc : MonitorPC) (s : State) : State :=
  {| main_pc := main_pc s; monitor_pc := pc; cleanup_pc := cleanup_pc s;
     messages := messages s; finished := finished s; process := process s |}.

Definition set_cleanup (pc : CleanupPC) (s : State) : State :=
  {| main_pc := main_pc s; monitor_pc := monitor_pc s; cleanup_pc := pc;
     messages := messages s; finished := finished s; process := process s |}.

Definition set_messages (c : Chan) (s : State) : State :=
  {| main_pc := main_pc s; monitor_pc := monitor_pc s; cleanup_pc := cleanup_pc s;
     messages := c; finished := finished s; process := process s |}.

Definition set_finished (c : Chan) (s : State) : State :=
  {| main_pc := main_pc s; monitor_pc := monitor_pc s; cleanup_pc := cleanup_pc s;
     messages := messages s; finished := c; process := process s |}.

Definition set_process (p : Process) (s : State) : State :=
  {| main_pc := main_pc s; monitor_pc := monitor_pc s; cleanup_pc := cleanup_pc s;
     messages := messages s; finished := finished s; process := p |}.

(** A step that needs the world: go to [pc] on [Yes], [os.Exit(1)] on
    [No]; it cannot panic. *)
Definition main_or_exit (o : Outcome) (pc : MainPC) (s : State) : option State :=
  match o with
  | Yes => Some (set_main pc s)
  | No => Some (set_process (Exited 1) s)
  | Panics => None
  end.

Definition main_branch (o : Outcome) (yes no : MainPC) (s : State) : option State :=
  match o with
  | Yes => Some (set_main yes s)
  | No => Some (set_main no s)
  | Panics => None
  end.

(** One step of [main]. *)
Definition step_main (o : Outcome) (s : State) : option State :=
  match main_pc s with
  | M_Executor => main_or_exit o M_SendStop s
  | M_SendStop =>
      match chan_send (messages s) with
      | Done c => Some (set_main M_CloseMessages (set_messages c s))
      | Blocks => None
      | ChanPanic => Some (set_process Crashed s)
      end
  | M_CloseMessages =>
      match chan_close (messages s) with
      | Done c => Some (set_main M_StatOutputReader (set_messages c s))
      | Blocks => None
      | ChanPanic => Some (set_process Crashed s)
      end
  | M_StatOutputReader => main_branch o M_RunOutputReader M_MarkAsComplete s
  | M_RunOutputReader => main_or_exit o M_MarkAsComplete s
  | M_MarkAsComplete =>
      match o with
      | Yes => Some (set_main M_StatBinaries s)
      | No => Some (set_process (Exited 1) s)
      | Panics => Some (set_process Crashed s)
      end
  | M_StatBinaries => main_branch o M_UploadBinaries M_StatStdout s
  | M_UploadBinaries => main_or_exit o M_StatStdout s
  | M_StatStdout => main_branch o M_UploadStdout M_SpawnCleanup s
  | M_UploadStdout => main_or_exit o M_SpawnCleanup s
  | M_SpawnCleanup => Some (set_main M_Chdir (set_cleanup C_Receive s))
  | M_Chdir => main_or_exit o M_NextJob s
  | M_NextJob =>
      (* the later iterations of the loop use channels of their own; they
         go on ([Yes]), end the process ([No]) or panic *)
      match o with
      | Yes => Some s
      | No => Some (set_process (Exited 0) s)
      | Panics => Some (set_process Crashed s)
      end
  end.

(** One step of [IntermediateMonitoring]. *)
Definition step_monitor (o : Outcome) (s : State) : option State :=
  let ack :=
    match chan_send (finished s) with
    | Done c => Some (set_monitor Mon_Return (set_finished c s))
    | Blocks => None
    | ChanPanic => Some (set_process Crashed s)
    end in
  match monitor_pc s with
  | Mon_Stat =>
      match o with
      | Yes => Some (set_monitor Mon_RunAdapter s)
      | No => Some (set_monitor Mon_AckNoScript s)
      | Panics => None
      end
  | Mon_RunAdapter =>
      match o with
      | Yes => Some (set_monitor Mon_ReadResult s)
      | No => Some (set_process (Exited 1) s)
      | Panics => None
      end
  | Mon_ReadResult =>
      match o with
      | Yes => Some (set_monitor Mon_Report s)
      | No => Some (set_monitor Mon_Sleep s)
      | Panics => Some (set_process Crashed s)
      end
  | Mon_Report =>
      match o with
      | Yes => Some (set_monitor Mon_Sleep s)
      | No => Some (set_process (Exited 1) s)
      | Panics => None
      end
  | Mon_Sleep => Some (set_monitor Mon_Select s)
  | Mon_Select =>
      match chan_recv (messages s) with
      | Done c => Some (set_monitor Mon_AckStopped (set_messages c s))
      | Blocks => Some (set_monitor Mon_RunAdapter s)      (* [default:] *)
      | ChanPanic => None
      end
  | Mon_AckStopped => ack
  | Mon_AckNoScript => ack
  | Mon_Return => Some (set_monitor Mon_Done s)
  | Mon_Done => None
  end.

(** One step of the clean-up goroutine. *)
Definition step_cleanup (s : State) : option State :=
  match cleanup_pc s with
  | C_NotSpawned => None
  | C_Receive =>
      match chan_recv (finished s) with
      | Done c => Some (set_cleanup C_RemoveAll (set_finished c s))
      | Blocks => None
      | ChanPanic => None
      end
  | C_RemoveAll => Some (set_cleanup C_CloseFinished s)
  | C_CloseFinished =>
      match chan_close (finished s) with
      | Done c => Some (set_cleanup C_Done (set_finished c s))
      | Blocks => None
      | ChanPanic => Some (set_process Crashed s)
      end
  | C_Done => None
  end.

(** One step of the system; [None] when the goroutine chosen cannot move
    (it is blocked or over, or the process has ended). *)
Definition step (l : Label) (s : State) : option State :=
  match process s with
  | Running =>
      match l with
      | (TMain, o) => step_main o s
      | (TMonitor, o) => step_monitor o s
      | (TCleanup, _) => step_cleanup s
      end
  | _ => None
  end.

Fixpoint run (trace : list Label) (s : State) : option State :=
  match trace with
  | [] => Some s
  | l :: trace' =>
      match step l s with
      | Some s' => run trace' s'
      | None => None
      end
  end.

Definition reachable (s : State) : Prop := exists trace, run trace initial = Some s.

(** The monitor has sent its acknowledgment on [finished]. *)
Definition acknowledged (pc : MonitorPC) : bool :=
  match pc with
  | Mon_Return | Mon_Done => true
  | _ => false
  end.

(** The clean-up goroutine has got past its receive: the removal has begun. *)
Definition removal_begun (pc : CleanupPC) : bool :=
  match pc with
  | C_RemoveAll | C_CloseFinished | C_Done => true
  | _ => false
  end.

(** [main] has got past the two statements that stop the monitor. *)
Definition stop_sent (pc : MainPC) : bool :=
  match pc with
  | M_Executor | M_SendStop | M_CloseMessages => false
  | _ => true
  end.

(** What holds in every state the three goroutines can reach. *)
Definition handshake_inv (s : State) : Prop :=
  (queued (finished s) <> 0%nat \/ removal_begun (cleanup_pc s) = true ->
   acknowledged (monitor_pc s) = true) /\
  (closed (finished s) = true -> cleanup_pc s = C_Done) /\
  (cleanup_pc s <> C_NotSpawned -> main_pc s = M_Chdir \/ main_pc s = M_NextJob) /\
  (stop_sent (main_pc s) = true -> closed (messages s) = true) /\
  (main_pc s = M_Executor \/ main_pc s = M_SendStop -> messages s = make_chan) /\
  (main_pc s = M_CloseMessages -> closed (messages s) = false).

(* ================================================================== *)
(** ** Concrete configurations and networks used in the examples *)

Definition example_config : SimulationManagerConfig :=
  {| ExperimentId := "e1";
     InformationServiceUrl := "is.example";
     ExperimentManagerUser := "worker";
     ExperimentManagerPass := "secret";
     Development := true;
     StartAt := "";
     Timeout := 0;
     ScalarmCertificatePath := "";
     InsecureSSL := false |}.

Definition example_reqInfo : RequestInfo :=
  {| HttpMethod := "GET";
     Body := NoBody;
     ContentType := "";
     ServiceMethod := "experiments/e1/next_simulation" |}.

(** Nothing listens on any host but [em2]; [em2] replies with status 503. *)
Definition example_client : Http :=
  {| NewRequest_err := fun _ _ => None;
     Do := fun request _ =>
       if String.prefix "http://em2/" (req_url request)
       then {| elapsed := 200000000; outcome := DoResp 503 (ReadOk "busy") |}
       else {| elapsed := 0; outcome := DoErr "connection refused" |} |}.

(** No host can be reached at all. *)
Definition unreachable_client : Http :=
  {| NewRequest_err := fun _ _ => None;
     Do := fun _ _ => {| elapsed := 0; outcome := DoErr "connection refused" |} |}.

(** A configuration whose timeout exceeds the seconds an int64 count of
    nanoseconds can hold. *)
Definition overflow_config : SimulationManagerConfig :=
  set_Timeout 9223372037 example_config.

(** Replies of the coordinator used in the examples. *)
Definition reply_with (fields : list (string * JSON)) : Fetch :=
  {| took := 0; reply := ReplyBody (Some (JObject fields)) |}.

Definition always_all_sent : nat -> Fetch :=
  fun _ => reply_with [("status", JString "all_sent")].

Definition all_sent_then_ok : nat -> Fetch :=
  fun k =>
    match k with
    | O => reply_with [("status", JString "all_sent")]
    | _ => reply_with [("status", JString "ok"); ("simulation_id", JNumber 3);
                       ("input_parameters", JObject [("x", JNumber 1)]);
                       ("execution_constraints", JObject [])]
    end.

Definition empty_object_reply : nat -> Fetch :=
  fun _ => reply_with [].

Definition wait_5s_reply : nat -> Fetch :=
  fun _ => reply_with [("status", JString "wait"); ("duration_in_seconds", JNumber 5)].

Definition wait_without_duration : nat -> Fetch :=
  fun _ => reply_with [("status", JString "wait")].

Definition wait_with_text_duration : nat -> Fetch :=
  fun _ => reply_with [("status", JString "wait"); ("duration_in_seconds", JString "5")].

(** The first reply reports an error and carries a duration; the replies
    after it say [wait] and carry none. *)
Definition stale_duration_replies : nat -> Fetch :=
  fun k =>
    match k with
    | O => reply_with [("status", JString "error"); ("duration_in_seconds", JNumber 7)]
    | _ => reply_with [("status", JString "wait")]
    end.

(** The coordinator asks for a wait of half a second, of two seconds and
    a half. *)
Definition wait_half_second : nat -> Fetch :=
  fun _ => reply_with [("status", JString "wait"); ("duration_in_seconds", JNumber (1 # 2))].

Definition wait_2500ms : nat -> Fetch :=
  fun _ => reply_with [("status", JString "wait"); ("duration_in_seconds", JNumber (5 # 2))].

(** The first reply is an object with [status] and a number that no
    float64 holds: its keys are stored and an error is returned.  The
    replies after it are the empty object. *)
Definition partly_then_empty : nat -> Fetch :=
  fun k =>
    match k with
    | O => {| took := 0;
              reply := ReplyBodyPartly [("status", JString "error"); ("load", JNull)] |}
    | _ => reply_with []
    end.

(** The first reply reports an error; the replies after it are the empty
    object. *)
Definition error_then_empty : nat -> Fetch :=
  fun k =>
    match k with
    | O => reply_with [("status", JString "error")]
    | _ => reply_with []
    end.

(** Stand-ins for the formatting functions of the Go library. *)
Definition example_lib : GoLib :=
  {| json_Marshal := fun _ => "null"; fmt_v_float64 := fun _ => "3" |}.

Definition ok_result : SimulationRunResults :=
  {| Status := "ok"; Results := JNumber 1; Reason := "" |}.

(** The monitor script exists and its first run is still going on while
    [main] runs the executor, sends the stop, finds no [output_reader] and
    sends [mark_as_complete]. *)
Definition trace_report_before_ack : list Label :=
  [(TMonitor, Yes); (TMain, Yes); (TMain, Yes); (TMain, Yes); (TMain, No); (TMain, Yes)].

(** There is no monitor script: the monitor acknowledges at once; [main]
    runs the job to its end and the clean-up goroutine takes the
    acknowledgment. *)
Definition trace_cleanup : list Label :=
  [(TMonitor, No); (TMonitor, Yes); (TMain, Yes); (TMain, Yes); (TMain, Yes); (TMain, No);
   (TMain, Yes); (TMain, No); (TMain, No); (TMain, Yes); (TCleanup, Yes)].

(** [em1] sends a response whose body breaks off; [em2] is fine. *)
Definition broken_body_client : Http :=
  {| NewRequest_err := fun _ _ => None;
     Do := fun request _ =>
       if String.prefix "http://em1/" (req_url request)
       then {| elapsed := 100000000; outcome := DoResp 200 (ReadErr "unexpected EOF") |}
       else {| elapsed := 200000000; outcome := DoResp 200 (ReadOk "[]") |} |}.

(** Every host refuses the first five connections and replies to the
    sixth. *)
Definition late_client : Http :=
  {| NewRequest_err := fun _ _ => None;
     Do := fun _ n =>
       if (n <? 5)%nat then {| elapsed := 0; outcome := DoErr "connection refused" |}
       else {| elapsed := 0; outcome := DoResp 200 (ReadOk "[]") |} |}.

(** [http.NewRequest] rejects the URL built for the host [bad host]. *)
Definition picky_client : Http :=
  {| NewRequest_err := fun _ url =>
       if String.prefix "http://bad host/" url then Some "invalid character in host name"
       else None;
     Do := fun _ _ => {| elapsed := 0; outcome := DoResp 200 (ReadOk "[]") |} |}.

(** Nothing has been sent yet, at instant 0. *)
Definition idle_wire : Wire :=
  {| wire_now := 0; body_read := false; calls := [] |}.

(** [em1] accepts the connection and never answers; nothing listens on
    the other hosts but [em2], which replies with status 503. *)
Definition stalled_net : Net :=
  {| client_of := example_client;
     Do_blocks := fun request _ => String.prefix "http://em1/" (req_url request);
     Do_reads_body := fun _ _ => false |}.

(** [em1] takes the request with its body and drops the connection;
    [em2] replies. *)
Definition dropping_net : Net :=
  {| client_of :=
       {| NewRequest_err := fun _ _ => None;
          Do := fun request _ =>
            if String.prefix "http://em1/" (req_url request)
            then {| elapsed := 0; outcome := DoErr "connection reset by peer" |}
            else {| elapsed := 200000000; outcome := DoResp 200 (ReadOk "{}") |} |};
     Do_blocks := fun _ _ => false;
     Do_reads_body := fun request _ => String.prefix "http://em1/" (req_url request) |}.

(* ================================================================== *)
(** ** Replies that keep the acquisition loop going *)

(** The replies that send the loop to its 5 s sleep whatever the map
    holds: a body that is not valid JSON, a JSON value that is neither an
    object nor [null], an object rejected for one of its numbers, or an
    object whose own [status] is a string other than [ok] and [wait]. *)
Definition is_retry_reply (f : Fetch) : bool :=
  match reply f with
  | ReplyFatal _ => false
  | ReplyBody None => true
  | ReplyBody (Some JNull) => false
  | ReplyBody (Some (JObject fields)) =>
      match assert_string (fields_get "status" fields) with
      | Some status => bool_decide (status <> "ok" /\ status <> "wait")
      | None => false
      end
  | ReplyBody (Some _) => true
  | ReplyBodyPartly _ => true
  end.

(* ================================================================== *)
(** ** Discovery of the service pools ([main], step 2) *)

(** [json.Unmarshal] of a JSON array into a [[]string]: a string element
    is stored, [null] leaves the empty string, any other element is a
    type error. *)
Fixpoint strings_of_items (items : list JSON) : option (list string) :=
  match items with
  | [] => Some []
  | JString s :: rest => cons s <$> strings_of_items rest
  | JNull :: rest => cons "" <$> strings_of_items rest
  | _ :: _ => None
  end.

(** [json.Unmarshal(body, &managers)]; [None] is [err != nil]. *)
Definition Unmarshal_strings (decoded : option JSON) : option (list string) :=
  match decoded with
  | Some (JArray items) => strings_of_items items
  | Some JNull => Some []
  | _ => None
  end.

Inductive Discovery :=
| Managers (urls : list string) (now : Z)
| DiscoveryExits (code : Z)
| DiscoveryBadIndex.

(** Lines 327-340 and 343-356: one question to the Information Service.
    [parse] is the JSON syntax of [encoding/json]; the pool has the single
    member [config.InformationServiceUrl], so [rand.Perm(1)] is [[0]]. *)
Definition main_discover (parse : string -> option JSON) (client : Http)
    (config : SimulationManagerConfig) (communicationTimeout : Z) (service : string)
    (now : Z) : option Discovery :=
  let iSReqInfo := {| HttpMethod := "GET"; Body := NoBody; ContentType := "";
                      ServiceMethod := service |} in
  match ExecuteScalarmRequest client iSReqInfo [InformationServiceUrl config] config
          communicationTimeout [0%nat] now with
  | None => None
  | Some (Fatal _, _) => Some (DiscoveryExits 1)
  | Some (IndexOutOfRange, _) => Some DiscoveryBadIndex
  | Some (Response body, now') =>
      match Unmarshal_strings (body ≫= parse) with
      | None => Some (DiscoveryExits 1)                       (* [Fatal(err)] *)
      | Some [] => Some (DiscoveryExits 1)                    (* no manager registered *)
      | Some urls => Some (Managers urls now')
      end
  end.

(** Step 2 as a whole: the experiment managers, then the storage
    managers. *)
Inductive Pools :=
| BothPools (experimentManagers storageManagers : list string) (now : Z)
| PoolsExit (code : Z)
| PoolsBadIndex.

Definition main_getPools (parse : string -> option JSON) (client : Http)
    (config : SimulationManagerConfig) (communicationTimeout : Z) (now : Z) : option Pools :=
  match main_discover parse client config communicationTimeout "experiment_managers" now with
  | None => None
  | Some (DiscoveryExits code) => Some (PoolsExit code)
  | Some DiscoveryBadIndex => Some PoolsBadIndex
  | Some (Managers experimentManagers now1) =>
      match main_discover parse client config communicationTimeout "storage_managers" now1 with
      | None => None
      | Some (DiscoveryExits code) => Some (PoolsExit code)
      | Some DiscoveryBadIndex => Some PoolsBadIndex
      | Some (Managers storageManagers now2) =>
          Some (BothPools experimentManagers storageManagers now2)
      end
  end.

(** An Information Service for the examples: it lists two experiment
    managers and one storage manager. *)
Definition discovery_client : Http :=
  {| NewRequest_err := fun _ _ => None;
     Do := fun request _ =>
       if String.prefix "http://is.example/experiment_managers" (req_url request)
       then {| elapsed := 0; outcome := DoResp 200 (ReadOk "two") |}
       else {| elapsed := 0; outcome := DoResp 200 (ReadOk "one") |} |}.

Definition discovery_parse (body : string) : option JSON :=
  if String.eqb body "two" then Some (JArray [JString "em1"; JString "em2"])
  else if String.eqb body "one" then Some (JArray [JString "sm1"])
  else None.

Definition always_error : nat -> Fetch :=
  fun k => match k with
           | O => {| took := 0; reply := ReplyBody None |}
           | _ => reply_with [("status", JString "error")]
           end.

Definition ok_without_id : nat -> Fetch :=
  fun _ => reply_with [("status", JString "ok")].

(* ================================================================== *)
(** ** Unpacking the code base: [cloneZipItem] and [Extract] *)

(** An entry of the archive ([*zip.File]). *)
Record ZipFile := {
  Name : string;
  IsDir : bool;                 (* [f.FileInfo().IsDir()] *)
  Data : string                 (* what its reader delivers *)
}.

(** The operating system as the two functions meet it: the path functions
    of [path/filepath] and, for each call that can fail, its error. *)
Record Os := {
  Join : string -> string -> string;                (* [filepath.Join] *)
  Dir : string -> string;                           (* [filepath.Dir] *)
  MkdirAll_err : string -> option string;           (* [os.MkdirAll] *)
  Open_err : ZipFile -> option string;              (* [f.Open()] *)
  Create_err : string -> option string;             (* [os.Create] *)
  (** [io.Copy]: [None] when all the data was written, otherwise what was
      written before the error, and the error. *)
  Copy_fails : ZipFile -> option (string * string)
}.

(** The part of the machine the two functions change: the directories and
    files made, and how many entry readers are open. *)
Record Disk := {
  dirs : gset string;
  files : gmap string string;
  open_readers : nat
}.

Definition add_dir (d : string) (disk : Disk) : Disk :=
  {| dirs := {[d]} ∪ dirs disk; files := files disk; open_readers := open_readers disk |}.

Definition write_file (p content : string) (disk : Disk) : Disk :=
  {| dirs := dirs disk; files := <[p := content]> (files disk);
     open_readers := open_readers disk |}.

Definition open_reader (disk : Disk) : Disk :=
  {| dirs := dirs disk; files := files disk; open_readers := S (open_readers disk) |}.

Definition close_reader (disk : Disk) : Disk :=
  {| dirs := dirs disk; files := files disk; open_readers := pred (open_readers disk) |}.

(** [cloneZipItem(f, dest)]: the disk afterwards and the error returned. *)
Definition cloneZipItem (os : Os) (f : ZipFile) (dest : string) (disk : Disk)
    : Disk * option string :=
  let path := Join os dest (Name f) in
  match MkdirAll_err os (Dir os path) with
  | Some err => (disk, Some err)
  | None =>
      let disk := add_dir (Dir os path) disk in
      match Open_err os f with
      | Some err => (disk, Some err)
      | None =>
          let disk := open_reader disk in                     (* [rc] *)
          if negb (IsDir f) then
            match Create_err os path with
            | Some err => (disk, Some err)
            | None =>
                match Copy_fails os f with
                | Some (written, err) => (write_file path written disk, Some err)
                | None => (close_reader (write_file path (Data f) disk), None)
                end
            end
          else (close_reader disk, None)
      end
  end.

(** The [for _, f := range r.File] loop of [Extract]. *)
Fixpoint Extract_range (os : Os) (entries : list ZipFile) (dest : string) (disk : Disk)
    : Disk * option string :=
  match entries with
  | [] => (disk, None)
  | f :: rest =>
      match cloneZipItem os f dest disk with
      | (disk', Some err) => (disk', Some err)
      | (disk', None) => Extract_range os rest dest disk'
      end
  end.

(** [Extract(zip_path, dest)]; [archive] is what [zip.OpenReader(zip_path)]
    returns: an error or the entries. *)
Definition Extract (os : Os) (archive : string + list ZipFile) (dest : string) (disk : Disk)
    : Disk * option string :=
  match archive with
  | inl err => (disk, Some err)
  | inr entries => Extract_range os entries dest disk
  end.

(** The data of the last file entry of the archive that is unpacked to
    path [p]. *)
Fixpoint unpacked (os : Os) (entries : list ZipFile) (dest : string) (p : string)
    : option string :=
  match entries with
  | [] => None
  | f :: rest =>
      match unpacked os rest dest p with
      | Some data => Some data
      | None =>
          if negb (IsDir f) && bool_decide (Join os dest (Name f) = p)
          then Some (Data f) else None
      end
  end.

(** An operating system for the examples: paths are joined with a slash,
    every file lies directly in [dest], and only the file [locked] cannot
    be created. *)
Definition example_os : Os :=
  {| Join := fun dest name => dest +:+ "/" +:+ name;
     Dir := fun _ => "code_base";
     MkdirAll_err := fun _ => None;
     Open_err := fun _ => None;
     Create_err := fun p => if String.eqb p "code_base/locked" then Some "permission denied"
                            else None;
     Copy_fails := fun _ => None |}.

Definition empty_disk : Disk := {| dirs := ∅; files := ∅; open_readers := 0 |}.

Definition example_archive : list ZipFile :=
  [ {| Name := "executor"; IsDir := false; Data := "#!/bin/sh" |};
    {| Name := "locked"; IsDir := false; Data := "x" |};
    {| Name := "input_writer"; IsDir := false; Data := "#!/bin/sh" |} ].

(* ================================================================== *)
(** ** The Experiment Manager client (package [scalarm_worker])

    [GetNextSimulationRunConfig] and [MarkSimulationRunAsComplete] call the
    [ExecuteScalarmRequest] of their own package, which returns the
    [*http.Response] and an error; what it returned is an argument here. *)

Record EmResponse := {
  em_StatusCode : Z;
  em_Body : ReadResult          (* [ioutil.ReadAll(resp.Body)] *)
}.

Inductive EmDispatch :=
| EmFails (err : string)
| EmResponds (resp : EmResponse).

(** What a method returns, [(map, nil)] or [(nil, err)], or its panic. *)
Inductive EmReturn :=
| EmOk (value : gmap string JSON)
| EmError (err : string)
| EmPanic.

(** The return and whether [resp.Body.Close()] was called. *)
Definition EmEnd : Type := EmReturn * bool.

(** [strconv.Itoa]. *)
Definition Itoa (n : Z) : string := pretty n.

Definition response_code_error (code : Z) : EmEnd :=
  if bool_decide (code = 500) then (EmError "Experiment manager response code: 500", false)
  else (EmError ("Experiment manager response code: " +:+ Itoa code), false).

Definition GetNextSimulationRunConfig (parse : string -> option JSON) (dispatch : EmDispatch)
    : EmEnd :=
  let nextSimulationRunConfig : gmap string JSON := ∅ in
  match dispatch with
  | EmFails err => (EmError err, false)
  | EmResponds resp =>
      if bool_decide (em_StatusCode resp = 200) then
        (match em_Body resp with
         | ReadErr err => EmError err
         | ReadOk body =>
             let '(m, err) := Unmarshal_map (parse body) nextSimulationRunConfig in
             if err then EmError "Returned response body is not JSON." else EmOk m
         end, true)                                  (* [defer resp.Body.Close()] *)
      else response_code_error (em_StatusCode resp)
  end.

Definition MarkSimulationRunAsComplete (parse : string -> option JSON) (dispatch : EmDispatch)
    : EmEnd :=
  let emResponse : gmap string JSON := ∅ in
  match dispatch with
  | EmFails err => (EmError err, false)
  | EmResponds resp =>
      if bool_decide (em_StatusCode resp = 200) then
        (match em_Body resp with
         | ReadErr err => EmError err
         | ReadOk body =>
             let '(m, err) := Unmarshal_map (parse body) emResponse in
             if err then EmError "Returned response body is not JSON."
             else
               match m !! "status" with
               | Some statusVal =>
                   match assert_string (Some statusVal) with
                   | None => EmPanic
                   | Some status =>
                       if bool_decide (status <> "ok") then
                         match m !! "reason" with
                         | Some reasonVal =>
                             match assert_string (Some reasonVal) with
                             | None => EmPanic
                             | Some reason => EmError reason
                             end
                         | None => EmError "Something went wrong but without any details"
                         end
                       else EmOk m
                   end
               | None => EmOk m
               end
         end, true)
      else response_code_error (em_StatusCode resp)
  end.

Definition em_reply (code : Z) (body : string) : EmDispatch :=
  EmResponds {| em_StatusCode := code; em_Body := ReadOk body |}.

(** A stand-in for the JSON syntax in the examples. *)
Definition em_parse (body : string) : option JSON :=
  if String.eqb body "empty object" then Some (JObject [])
  else if String.eqb body "refused" then
    Some (JObject [("status", JString "error"); ("reason", JString "already completed")])
  else if String.eqb body "job 3" then
    Some (JObject [("status", JString "ok"); ("simulation_id", JNumber 3)])
  else if String.eqb body "status 1" then Some (JObject [("status", JNumber 1)])
  else None.

(* ================================================================== *)
(** ** The acknowledgment between its sending and its receipt *)

(** The acknowledgment sent by the monitor stays queued on [finished]
    until the clean-up goroutine takes it. *)
Definition ack_pending (s : State) : Prop :=
  acknowledged (monitor_pc s) = true -> removal_begun (cleanup_pc s) = false ->
  queued (finished s) = 1%nat.

(** The run in which there is a monitor script, the job ends and the
    monitor then meets the stop signal in its [select]. *)
Definition trace_stop_seen : list Label :=
  [(TMonitor, Yes); (TMonitor, Yes); (TMonitor, No); (TMonitor, Yes);
   (TMain, Yes); (TMain, Yes); (TMain, Yes)].

(* ================================================================== *)
(** ** Getting the code base ([main], step 3) *)

Inductive CodeBaseEnd :=
| CodeBaseReady (now : Z)
| CodeBaseExits (code : Z)
| CodeBaseBadIndex.

(** What step 3 meets beyond [Os]: [zip.OpenReader] as a function of the
    disk and the path, the outcome of [io.Copy(w, bytes.NewReader(body))]
    ([None], or what was written and the error) and the error of the
    [chmod] command. *)
Record CodeBaseOs := {
  OpenReader : Disk -> string -> string + list ZipFile;
  write_fails : option (string * string);
  chmod_err : option string
}.

(** Lines 368-406.  [os.Stat(codeBaseDir)] finds the directory when the
    disk has it. *)
Definition main_getCodeBase (os : Os) (cb : CodeBaseOs) (client : Http)
    (config : SimulationManagerConfig) (experimentManagers : list string)
    (communicationTimeout : Z) (perm : list nat) (codeBaseDir : string)
    (disk : Disk) (now : Z) : option (Disk * CodeBaseEnd) :=
  if bool_decide (codeBaseDir ∈ dirs disk) then Some (disk, CodeBaseReady now)
  else
    match MkdirAll_err os codeBaseDir with
    | Some _ => Some (disk, CodeBaseExits 1)
    | None =>
        let disk := add_dir codeBaseDir disk in
        let codeBaseInfo :=
          {| HttpMethod := "GET"; Body := NoBody; ContentType := "";
             ServiceMethod := "experiments/" +:+ ExperimentId config +:+ "/code_base" |} in
        match ExecuteScalarmRequest client codeBaseInfo experimentManagers config
                communicationTimeout perm now with
        | None => None
        | Some (Fatal _, _) => Some (disk, CodeBaseExits 1)
        | Some (IndexOutOfRange, _) => Some (disk, CodeBaseBadIndex)
        | Some (Response body, now') =>
            let zip := Join os codeBaseDir "code_base.zip" in
            match Create_err os zip with
            | Some _ => Some (disk, CodeBaseExits 1)
            | None =>
                match write_fails cb with
                | Some (written, _) => Some (write_file zip written disk, CodeBaseExits 1)
                | None =>
                    let disk := write_file zip (default "" body) disk in
                    match Extract os (OpenReader cb disk (codeBaseDir +:+ "/code_base.zip"))
                            codeBaseDir disk with
                    | (disk, Some _) => Some (disk, CodeBaseExits 2)
                    | (disk, None) =>
                        match Extract os
                                (OpenReader cb disk (codeBaseDir +:+ "/simulation_binaries.zip"))
                                codeBaseDir disk with
                        | (disk, Some _) => Some (disk, CodeBaseExits 2)
                        | (disk, None) =>
                            match chmod_err cb with
                            | Some _ => Some (disk, CodeBaseExits 2)
                            | None => Some (disk, CodeBaseReady now')
                            end
                        end
                    end
                end
            end
        end
    end.

(** The archive that was downloaded is damaged. *)
Definition damaged_zip : CodeBaseOs :=
  {| OpenReader := fun _ _ => inl "zip: not a valid zip file";
     write_fails := None;
     chmod_err := None |}.
(* ================================================================== *)
(** * Properties *)

(** ** The configured timeout *)

Lemma wrap64_id (z : Z) : int64_range z -> wrap64 z = z.
Proof.
  unfold int64_range, wrap64. intros H.
  rewrite Z.mod_small by lia. lia.
Qed.

Lemma main_defaultTimeout_nonpositive (config : SimulationManagerConfig) :
  Timeout config <= 0 -> Timeout (main_defaultTimeout config) = 60.
Proof.
  intros H. unfold main_defaultTimeout. rewrite bool_decide_eq_true_2 by done. done.
Qed.

Lemma main_defaultTimeout_positive (config : SimulationManagerConfig) :
  0 < Timeout config -> main_defaultTimeout config = config.
Proof.
  intros H. unfold main_defaultTimeout. rewrite bool_decide_eq_false_2 by lia. done.
Qed.

Lemma main_communicationTimeout_default (config : SimulationManagerConfig) :
  Timeout config <= 0 -> main_communicationTimeout config = 60 * Second.
Proof.
  intros H. unfold main_communicationTimeout.
  rewrite main_defaultTimeout_nonpositive by done. reflexivity.
Qed.

Lemma main_communicationTimeout_in_range (config : SimulationManagerConfig) :
  0 < Timeout config <= 9223372036 ->
  main_communicationTimeout config = Timeout config * Second.
Proof.
  intros H. unfold main_communicationTimeout.
  rewrite main_defaultTimeout_positive by lia.
  unfold Duration_mul. apply wrap64_id. unfold int64_range, Second. lia.
Qed.

Lemma main_communicationTimeout_positive (config : SimulationManagerConfig) :
  Timeout config <= 9223372036 -> 0 < main_communicationTimeout config.
Proof.
  intros H. destruct (decide (Timeout config <= 0)).
  - rewrite main_communicationTimeout_default by done. done.
  - rewrite main_communicationTimeout_in_range by lia. unfold Second. lia.
Qed.

(** ** The retry loop of [GetWithTimeout] *)

Lemma spent_nonneg (client : Http) (request : Request) (k : nat) :
  0 <= spent client request k.
Proof. induction k as [|k IH]; simpl; unfold Second; lia. Qed.

Lemma spent_mono (client : Http) (request : Request) (n k : nat) :
  (n <= k)%nat -> spent client request n <= spent client request k.
Proof.
  induction 1 as [|k _ IH]; [lia|]. simpl. unfold Second. lia.
Qed.

Lemma GetWithTimeout_fuel_enough (timeout : Z) :
  timeout <= Z.of_nat (GetWithTimeout_fuel timeout) * Second.
Proof.
  unfold GetWithTimeout_fuel, Second.
  destruct (decide (timeout <= 0)) as [Hle|Hgt]; [lia|].
  rewrite Nat2Z.inj_succ, Z2Nat.id by (apply Z.div_pos; lia).
  pose proof (Z.mod_pos_bound timeout 1000000000 ltac:(lia)).
  pose proof (Z.div_mod timeout 1000000000 ltac:(lia)). lia.
Qed.

(** With one unit of fuel per second of the window left, the loop ends,
    every call of [Http] being one that returns. *)
Lemma GetWithTimeout_loop_total (client : Http) (request : Request) (deadline : Z) :
  forall (fuel : nat) (now : Z) (n : nat) (err : option string),
    deadline - now <= Z.of_nat fuel * Second ->
    is_Some (GetWithTimeout_loop fuel client request deadline now n err).
Proof.
  induction fuel as [|fuel IH]; intros now n err Hfuel; simpl.
  - rewrite bool_decide_eq_false_2 by lia. eauto.
  - case_bool_decide; [|eauto].
    destruct (outcome (Do client request n)); [|eauto].
    apply IH. unfold Second in *. lia.
Qed.

Lemma GetWithTimeout_loop_broke (client : Http) (request : Request) (deadline : Z) :
  forall (fuel : nat) (now : Z) (n : nat) (err : option string) code rd now',
    GetWithTimeout_loop fuel client request deadline now n err = Some (Broke code rd, now') ->
    exists k, (n <= k)%nat /\
      (forall j, (n <= j < k)%nat -> exists e, outcome (Do client request j) = DoErr e) /\
      now + (spent client request k - spent client request n) < deadline /\
      outcome (Do client request k) = DoResp code rd.
Proof.
  induction fuel as [|fuel IH]; intros now n err code rd now' Hloop; simpl in Hloop.
  - case_bool_decide; discriminate.
  - case_bool_decide as Hnow; [|discriminate].
    destruct (outcome (Do client request n)) as [e|code0 rd0] eqn:Hout.
    + apply IH in Hloop as (k & Hk & Hfail & Hlt & Hresp).
      exists k. split; [lia|]. split; [|split; [|done]].
      * intros j Hj. destruct (decide (j = n)) as [->|]; [eauto|]. apply Hfail. lia.
      * simpl in Hlt. lia.
    + injection Hloop as <- <- <-. exists n. split; [lia|].
      split; [intros; lia|]. split; [lia|done].
Qed.

Lemma GetWithTimeout_loop_finds (client : Http) (request : Request) (deadline : Z)
    (k : nat) (code : Z) (rd : ReadResult) :
  outcome (Do client request k) = DoResp code rd ->
  forall (fuel : nat) (now : Z) (n : nat) (err : option string),
    (n <= k)%nat ->
    (forall j, (n <= j < k)%nat -> exists e, outcome (Do client request j) = DoErr e) ->
    now + (spent client request k - spent client request n) < deadline ->
    deadline - now <= Z.of_nat fuel * Second ->
    exists now',
      GetWithTimeout_loop fuel client request deadline now n err = Some (Broke code rd, now').
Proof.
  intros Hresp. induction fuel as [|fuel IH]; intros now n err Hnk Hfail Hlt Hfuel.
  - pose proof (spent_mono client request n k Hnk). lia.
  - simpl. pose proof (spent_mono client request n k Hnk).
    rewrite bool_decide_eq_true_2 by lia.
    destruct (decide (n = k)) as [->|Hne].
    + rewrite Hresp. eauto.
    + destruct (Hfail n ltac:(lia)) as [e He]. rewrite He.
      apply IH; [lia| |simpl; lia|unfold Second in *; lia].
      intros j Hj. apply Hfail. lia.
Qed.

Lemma GetWithTimeout_loop_expired_err (client : Http) (request : Request) (deadline : Z) :
  forall (fuel : nat) (now : Z) (n : nat) (e : string) err' now',
    GetWithTimeout_loop fuel client request deadline now n (Some e) = Some (Expired err', now') ->
    is_Some err'.
Proof.
  induction fuel as [|fuel IH]; intros now n e err' now' Hloop; simpl in Hloop.
  - case_bool_decide; [discriminate|]. injection Hloop as <- <-. eauto.
  - case_bool_decide; [|injection Hloop as <- <-; eauto].
    destruct (outcome (Do client request n)); [eauto|discriminate].
Qed.

(** An endpoint on which every attempt fails: the loop runs until the
    first test at which the window has elapsed. *)
Lemma GetWithTimeout_loop_all_fail (client : Http) (request : Request) (deadline : Z) :
  (forall j, exists e, outcome (Do client request j) = DoErr e) ->
  forall (fuel : nat) (now : Z) (n : nat) (err : option string),
    deadline - now <= Z.of_nat fuel * Second ->
    exists k err',
      (n <= k <= n + fuel)%nat /\
      GetWithTimeout_loop fuel client request deadline now n err
      = Some (Expired err', now + (spent client request k - spent client request n)) /\
      deadline <= now + (spent client request k - spent client request n) /\
      ((n < k)%nat ->
       now + (spent client request (k - 1) - spent client request n) < deadline /\
       is_Some err') /\
      (n = k -> err' = err).
Proof.
  intros Hfail. induction fuel as [|fuel IH]; intros now n err Hfuel; simpl.
  - rewrite bool_decide_eq_false_2 by lia. exists n, err.
    split; [lia|]. split; [f_equal; f_equal; lia|]. split; [lia|]. split; [lia|done].
  - case_bool_decide as Hnow.
    + destruct (Hfail n) as [e He]. rewrite He.
      destruct (IH (now + Z.of_N (elapsed (Do client request n)) + 1 * Second) (S n) (Some e))
        as (k & err' & Hk & Hloop & Hend & Hlast & Hsame).
      { unfold Second in *. lia. }
      exists k, err'. split; [lia|]. rewrite Hloop. simpl in *.
      split; [f_equal; f_equal; lia|]. split; [lia|]. split; [|lia].
      intros _. destruct (decide (S n = k)) as [<-|Hne].
      * replace (S n - 1)%nat with n by lia. split; [lia|]. rewrite (Hsame eq_refl). eauto.
      * destruct Hlast as [Hlt Hsome]; [lia|]. split; [lia|done].
    + exists n, err. split; [lia|]. split; [f_equal; f_equal; lia|].
      split; [lia|]. split; [lia|done].
Qed.

(** The status code of a response plays no part in the loop. *)
Lemma GetWithTimeout_loop_with_status (code : Z) (client : Http) (request : Request)
    (deadline : Z) :
  forall (fuel : nat) (now : Z) (n : nat) (err : option string),
    GetWithTimeout_loop fuel (with_status code client) request deadline now n err =
    erase_code code <$> GetWithTimeout_loop fuel client request deadline now n err.
Proof.
  induction fuel as [|fuel IH]; intros now n err; simpl.
  - case_bool_decide; done.
  - case_bool_decide; [|done].
    destruct (outcome (Do client request n)); [apply IH|done].
Qed.

(** ** [GetWithTimeout] against [answers] *)

(** On a network whose calls return, the retry loop of [GetWithTimeout]
    ends: the call returns. *)
Lemma GetWithTimeout_total (client : Http) (request : Request) (timeout now : Z) :
  is_Some (GetWithTimeout client request timeout now).
Proof.
  unfold GetWithTimeout.
  destruct (GetWithTimeout_loop_total client request (now + timeout)
              (GetWithTimeout_fuel timeout) now 0%nat None) as [[ex t] ->].
  { pose proof (GetWithTimeout_fuel_enough timeout). lia. }
  destruct ex as [code [body|e]|err]; eauto.
Qed.

Lemma GetWithTimeout_body_answers (client : Http) (request : Request)
    (timeout now : Z) (body : string) (err : option string) (now' : Z) :
  GetWithTimeout client request timeout now = Some ((Some body, err), now') ->
  err = None /\ answers client request timeout body.
Proof.
  unfold GetWithTimeout. intros H.
  destruct (GetWithTimeout_loop _ _ _ _ _ _ _) as [[[code [b|e]|err0] t]|] eqn:Hloop;
    try discriminate.
  injection H as <- <- <-. split; [done|].
  apply GetWithTimeout_loop_broke in Hloop as (k & _ & Hfail & Hlt & Hresp).
  exists k, code. split; [|split; [|done]].
  - intros j Hj. apply Hfail. lia.
  - simpl in Hlt. lia.
Qed.

Lemma answers_GetWithTimeout (client : Http) (request : Request)
    (timeout now : Z) (body : string) :
  answers client request timeout body ->
  exists now', GetWithTimeout client request timeout now = Some ((Some body, None), now').
Proof.
  intros (k & code & Hfail & Hlt & Hresp). unfold GetWithTimeout.
  destruct (GetWithTimeout_loop_finds client request (now + timeout) k code (ReadOk body)
              Hresp (GetWithTimeout_fuel timeout) now 0%nat None) as [now' ->]; eauto.
  - lia.
  - intros j Hj. apply Hfail. lia.
  - simpl. lia.
  - pose proof (GetWithTimeout_fuel_enough timeout). lia.
Qed.

Lemma answers_positive_timeout (client : Http) (request : Request) (timeout : Z) (body : string) :
  answers client request timeout body -> 0 < timeout.
Proof.
  intros (k & code & _ & Hlt & _). pose proof (spent_nonneg client request k). lia.
Qed.

Lemma answers_functional (client : Http) (request : Request) (timeout : Z) (b1 b2 : string) :
  answers client request timeout b1 -> answers client request timeout b2 -> b1 = b2.
Proof.
  intros H1 H2.
  destruct (answers_GetWithTimeout client request timeout 0 b1 H1) as [t1 E1].
  destruct (answers_GetWithTimeout client request timeout 0 b2 H2) as [t2 E2].
  congruence.
Qed.

Lemma answers_decide (client : Http) (request : Request) (timeout : Z) :
  (exists body, answers client request timeout body) \/
  (forall body, ~ answers client request timeout body).
Proof.
  destruct (GetWithTimeout_total client request timeout 0) as [[[[body|] err] t] Hget].
  - left. exists body. by apply GetWithTimeout_body_answers in Hget as [_ ?].
  - right. intros body Hans.
    destruct (answers_GetWithTimeout client request timeout 0 body Hans) as [t' E].
    congruence.
Qed.

(** With a positive window, an endpoint that does not answer yields a
    non-nil error. *)
Lemma GetWithTimeout_no_answer (client : Http) (request : Request) (timeout now : Z) :
  0 < timeout ->
  (forall body, ~ answers client request timeout body) ->
  exists e now', GetWithTimeout client request timeout now = Some ((None, Some e), now').
Proof.
  intros Hpos Hno.
  destruct (GetWithTimeout_total client request timeout now) as [[[b err] t] Hget].
  destruct b as [body|].
  { apply GetWithTimeout_body_answers in Hget as [_ Hans]. by apply Hno in Hans. }
  destruct err as [e|]; [eauto|exfalso].
  unfold GetWithTimeout in Hget.
  destruct (GetWithTimeout_fuel timeout) as [|fuel] eqn:Hfuel; [discriminate|].
  simpl in Hget. rewrite bool_decide_eq_true_2 in Hget by lia.
  destruct (outcome (Do client request 0%nat)) as [e|code [b|e]]; try discriminate.
  destruct (GetWithTimeout_loop _ _ _ _ _ _ _) as [[[code [b|e']|err0] t0]|] eqn:Hloop;
    try discriminate.
  apply GetWithTimeout_loop_expired_err in Hloop as [e' ->]. discriminate.
Qed.

(** With a positive window, an endpoint on which every attempt fails is
    given up after [k] attempts, where the window elapses during the
    [k]-th: [k] is at least 1 and at most [GetWithTimeout_fuel timeout]. *)
Lemma GetWithTimeout_all_fail (client : Http) (request : Request) (timeout now : Z) :
  0 < timeout ->
  (forall j, exists e, outcome (Do client request j) = DoErr e) ->
  exists k e,
    (1 <= k <= GetWithTimeout_fuel timeout)%nat /\
    GetWithTimeout client request timeout now
    = Some ((None, Some e), now + spent client request k) /\
    spent client request (k - 1) < timeout <= spent client request k.
Proof.
  intros Hpos Hfail. unfold GetWithTimeout.
  destruct (GetWithTimeout_loop_all_fail client request (now + timeout) Hfail
              (GetWithTimeout_fuel timeout) now 0%nat None)
    as (k & err' & Hk & Hloop & Hend & Hlast & Hsame).
  { pose proof (GetWithTimeout_fuel_enough timeout). lia. }
  simpl in *. rewrite Hloop.
  destruct (decide (k = 0%nat)) as [->|Hne]; [simpl in Hend; lia|].
  destruct Hlast as [Hlt [e ->]]; [lia|].
  exists k, e. split; [lia|]. split; [f_equal; f_equal; lia|]. lia.
Qed.

(** A non-positive window: no request is made and [(nil, nil)] comes back. *)
Lemma GetWithTimeout_nonpositive (client : Http) (request : Request) (timeout now : Z) :
  timeout <= 0 ->
  GetWithTimeout client request timeout now = Some ((None, None), now).
Proof.
  intros Hle. unfold GetWithTimeout.
  destruct (GetWithTimeout_fuel timeout); simpl; rewrite bool_decide_eq_false_2 by lia; done.
Qed.

Lemma GetWithTimeout_with_status (code : Z) (client : Http) (request : Request)
    (timeout now : Z) :
  GetWithTimeout (with_status code client) request timeout now =
  GetWithTimeout client request timeout now.
Proof.
  unfold GetWithTimeout. rewrite GetWithTimeout_loop_with_status.
  destruct (GetWithTimeout_loop _ client _ _ _ _ _) as [[[c [b|e]|err] t]|]; done.
Qed.

(** ** [ExecuteScalarmRequest] *)

Section Dispatch.
Variables (client : Http) (reqInfo : RequestInfo) (serviceUrls : list string)
          (config : SimulationManagerConfig) (timeout : Z).

Local Abbreviation endpoint_answers := (endpoint_answers client reqInfo serviceUrls config timeout).
Local Abbreviation endpoint_silent := (endpoint_silent client reqInfo serviceUrls config timeout).
Local Abbreviation requests_well_formed := (requests_well_formed client reqInfo serviceUrls config).

Lemma endpoint_answers_decide (v : nat) :
  (exists body, endpoint_answers v body) \/ endpoint_silent v.
Proof.
  unfold endpoint_silent, endpoint_answers.
  destruct (serviceUrls !! v) as [serviceUrl|] eqn:Hv.
  - destruct (answers_decide client (build_request config serviceUrl reqInfo) timeout)
      as [[body Hb]|Hno]; [left; eauto|right].
    intros body (u & [= <-] & Hans). by apply Hno in Hans.
  - right. intros body (u & [=] & _).
Qed.

(** Endpoints that stay silent are skipped; the first one that answers
    decides the result. *)
Lemma ExecuteScalarmRequest_first_answer (pre post : list nat) (v : nat) (body : string) :
  requests_well_formed ->
  Forall (fun u => (u < length serviceUrls)%nat /\ endpoint_silent u) pre ->
  endpoint_answers v body ->
  forall now, exists now',
    ExecuteScalarmRequest client reqInfo serviceUrls config timeout (pre ++ v :: post) now
    = Some (Response (Some body), now').
Proof.
  intros Hwf Hpre (serviceUrl & Hv & Hans). unfold ExecuteScalarmRequest.
  induction Hpre as [|u pre [Hu Hsilent] _ IH]; intros now; simpl.
  - rewrite Hv, Hwf by (eapply list_elem_of_lookup_2; done).
    destruct (answers_GetWithTimeout _ _ _ now _ Hans) as [now' ->]. eauto.
  - destruct (lookup_lt_is_Some_2 serviceUrls u Hu) as [uUrl HuUrl].
    rewrite HuUrl, Hwf by (eapply list_elem_of_lookup_2; done).
    destruct (GetWithTimeout_no_answer client (build_request config uUrl reqInfo) timeout now)
      as (e & now' & ->).
    + by eapply answers_positive_timeout.
    + intros b Hb. apply (Hsilent b). exists uUrl. done.
    + apply IH.
Qed.

(** When every endpoint tried stays silent the dispatcher ends in [Fatal]. *)
Lemma ExecuteScalarmRequest_exhausted (perm : list nat) :
  0 < timeout ->
  Forall (fun u => (u < length serviceUrls)%nat /\ endpoint_silent u) perm ->
  forall now, exists err now',
    ExecuteScalarmRequest client reqInfo serviceUrls config timeout perm now
    = Some (Fatal err, now').
Proof.
  intros Hpos Hperm. unfold ExecuteScalarmRequest.
  induction Hperm as [|u perm [Hu Hsilent] _ IH]; intros now; simpl; [eauto|].
  destruct (lookup_lt_is_Some_2 serviceUrls u Hu) as [uUrl HuUrl]. rewrite HuUrl.
  destruct (NewRequest_err client _ _); [eauto|].
  destruct (GetWithTimeout_no_answer client (build_request config uUrl reqInfo) timeout now)
    as (e & now' & ->); [done| |apply IH].
  intros b Hb. apply (Hsilent b). exists uUrl. done.
Qed.

(** On a network whose calls return, the dispatcher returns or exits. *)
Lemma ExecuteScalarmRequest_total (perm : list nat) (now : Z) :
  is_Some (ExecuteScalarmRequest client reqInfo serviceUrls config timeout perm now).
Proof.
  unfold ExecuteScalarmRequest. revert now.
  induction perm as [|u perm IH]; intros now; simpl; [eauto|].
  destruct (serviceUrls !! u); [|eauto].
  destruct (NewRequest_err client _ _); [eauto|].
  destruct (GetWithTimeout_total client (build_request config s reqInfo) timeout now)
    as [[[b [e|]] t] ->]; eauto.
Qed.

(** Splitting the order drawn at the first endpoint that answers. *)
Lemma first_answering_endpoint (perm : list nat) :
  (exists v body, v ∈ perm /\ endpoint_answers v body) ->
  exists pre v post body,
    perm = pre ++ v :: post /\ Forall endpoint_silent pre /\ endpoint_answers v body.
Proof.
  induction perm as [|u perm IH]; intros (v & body & Hin & Hans).
  - by apply elem_of_nil in Hin.
  - destruct (endpoint_answers_decide u) as [[b Hb]|Hsilent].
    + exists [], u, perm, b. done.
    + destruct IH as (pre & w & post & b & -> & Hpre & Hw).
      * apply elem_of_cons in Hin as [->|Hin]; [by apply Hsilent in Hans|eauto].
      * exists (u :: pre), w, post, b. split; [done|]. split; [by constructor|done].
Qed.
End Dispatch.

Lemma ExecuteScalarmRequest_with_status (code : Z) (client : Http) (reqInfo : RequestInfo)
    (serviceUrls : list string) (config : SimulationManagerConfig) (timeout : Z)
    (perm : list nat) (now : Z) :
  ExecuteScalarmRequest (with_status code client) reqInfo serviceUrls config timeout perm now =
  ExecuteScalarmRequest client reqInfo serviceUrls config timeout perm now.
Proof.
  unfold ExecuteScalarmRequest. revert now.
  induction perm as [|u perm IH]; intros now; simpl; [done|].
  destruct (serviceUrls !! u); [|done].
  destruct (NewRequest_err client _ _); [done|].
  rewrite GetWithTimeout_with_status.
  destruct (GetWithTimeout client _ timeout now) as [[[b [e|]] t]|]; [apply IH|done|done].
Qed.

Lemma perm_indices_in_range (serviceUrls : list string) (perm : list nat) :
  perm ≡ₚ seq 0 (length serviceUrls) ->
  Forall (fun u => (u < length serviceUrls)%nat) perm.
Proof.
  intros Hperm. apply Forall_forall. intros u Hu.
  rewrite Hperm in Hu. apply elem_of_seq in Hu. lia.
Qed.

(** ** The dispatcher on the wire *)

Lemma endpoints_tried_app (l1 l2 : list Call) :
  endpoints_tried (l1 ++ l2) = endpoints_tried l1 ++ endpoints_tried l2.
Proof.
  induction l1 as [|c l1 IH]; simpl; [done|].
  destruct (call_attempt c); [by rewrite IH|done].
Qed.

Lemma endpoints_tried_later (l : list Call) :
  forall n, call_attempt <$> l = seq (S n) (length l) -> endpoints_tried l = [].
Proof.
  induction l as [|c l IH]; intros n H; simpl in *; [done|].
  injection H as -> H. by apply IH in H.
Qed.

(** The loop of [GetWithTimeout] returns or is stuck in a call: it does
    not go round for ever. *)
Lemma GetWithTimeout_net_loop_total (net : Net) (request : Request) (deadline : Z) :
  forall (fuel : nat) (w : Wire) (n : nat) (err : option string),
    deadline - wire_now w <= Z.of_nat fuel * Second ->
    is_Some (GetWithTimeout_net_loop fuel net request deadline w n err).
Proof.
  induction fuel as [|fuel IH]; intros w n err Hfuel; simpl.
  - rewrite bool_decide_eq_false_2 by lia. eauto.
  - case_bool_decide; [|eauto].
    destruct (Do_blocks net request n); [eauto|].
    destruct (outcome (Do (client_of net) request n)); [|eauto].
    apply IH. simpl. unfold Second in *. lia.
Qed.

(** The calls of one [GetWithTimeout]: attempts [n], [n + 1], ... on the
    request, the first of them made if the window is open. *)
Lemma GetWithTimeout_net_loop_calls (net : Net) (request : Request) (deadline : Z) :
  forall (fuel : nat) (w : Wire) (n : nat) (err : option string) (x : Run LoopExit),
    GetWithTimeout_net_loop fuel net request deadline w n err = Some x ->
    exists new,
      calls (wire_of x) = calls w ++ new /\
      call_attempt <$> new = seq n (length new) /\
      Forall (fun c => call_request c = request) new /\
      (length new <= fuel)%nat /\
      (wire_now w < deadline ->
       exists rest, new = {| call_request := request; call_attempt := n;
                             call_body_unread := negb (body_read w) |} :: rest).
Proof.
  induction fuel as [|fuel IH]; intros w n err x Hloop; simpl in Hloop.
  - case_bool_decide; [discriminate|]. injection Hloop as <-.
    exists []. simpl. rewrite app_nil_r. repeat split; first [done|lia].
  - case_bool_decide as Hnow.
    + set (c := {| call_request := request; call_attempt := n;
                   call_body_unread := negb (body_read w) |}) in *.
      destruct (Do_blocks net request n).
      { injection Hloop as <-. exists [c]. simpl.
        repeat split; first [done|lia|by repeat constructor|eauto]. }
      destruct (outcome (Do (client_of net) request n)) as [e|code rd].
      * apply IH in Hloop as (new & Hcalls & Hatt & Hreq & Hlen & _). simpl in Hcalls.
        exists (c :: new). rewrite Hcalls, <- app_assoc. simpl.
        split; [done|]. split; [f_equal; exact Hatt|].
        split; [by constructor|]. split; [lia|eauto].
      * injection Hloop as <-. exists [c]. simpl.
        repeat split; first [done|lia|by repeat constructor|eauto].
    + injection Hloop as <-. exists []. simpl. rewrite app_nil_r.
      repeat split; first [done|lia].
Qed.

(** While no call is stuck the loop runs as on [Http]. *)
Lemma GetWithTimeout_net_loop_returns (net : Net) (request : Request) (deadline : Z) :
  (forall j, Do_blocks net request j = false) ->
  forall (fuel : nat) (w : Wire) (n : nat) (err : option string),
    GetWithTimeout_net_loop fuel net request deadline w n err ≫= Run_result =
    GetWithTimeout_loop fuel (client_of net) request deadline (wire_now w) n err.
Proof.
  intros Hret. induction fuel as [|fuel IH]; intros w n err; simpl.
  - case_bool_decide; done.
  - case_bool_decide; [|done]. rewrite Hret.
    destruct (outcome (Do (client_of net) request n)); [|done].
    by rewrite IH.
Qed.

Lemma GetWithTimeout_net_total (net : Net) (request : Request) (timeout : Z) (w : Wire) :
  is_Some (GetWithTimeout_net net request timeout w).
Proof.
  unfold GetWithTimeout_net.
  destruct (GetWithTimeout_net_loop_total net request (wire_now w + timeout)
              (GetWithTimeout_fuel timeout) w 0%nat None) as [x ->].
  { pose proof (GetWithTimeout_fuel_enough timeout). lia. }
  destruct x as [[code [body|e]|err] w'|w']; eauto.
Qed.

Lemma GetWithTimeout_net_calls (net : Net) (request : Request) (timeout : Z) (w : Wire)
    (x : Run (option string * option string)) :
  GetWithTimeout_net net request timeout w = Some x ->
  exists new,
    calls (wire_of x) = calls w ++ new /\
    call_attempt <$> new = seq 0 (length new) /\
    Forall (fun c => call_request c = request) new /\
    (length new <= GetWithTimeout_fuel timeout)%nat /\
    (0 < timeout ->
     exists rest, new = {| call_request := request; call_attempt := 0;
                           call_body_unread := negb (body_read w) |} :: rest).
Proof.
  unfold GetWithTimeout_net. intros H.
  destruct (GetWithTimeout_net_loop _ _ _ _ _ _ _) as [y|] eqn:Hloop; [|discriminate].
  apply GetWithTimeout_net_loop_calls in Hloop as (new & Hcalls & Hatt & Hreq & Hlen & Hfirst).
  exists new.
  assert (Hw : wire_of x = wire_of y).
  { destruct y as [[code [body|e]|err] w'|w']; by injection H as <-. }
  rewrite Hw. repeat split; try done. intros Hpos. apply Hfirst. lia.
Qed.

Lemma GetWithTimeout_net_returns (net : Net) (request : Request) (timeout : Z) (w : Wire) :
  (forall j, Do_blocks net request j = false) ->
  GetWithTimeout_net net request timeout w ≫= Run_result =
  GetWithTimeout (client_of net) request timeout (wire_now w).
Proof.
  intros Hret. unfold GetWithTimeout, GetWithTimeout_net.
  rewrite <- (GetWithTimeout_net_loop_returns net request _ Hret).
  destruct (GetWithTimeout_net_loop _ _ _ _ _ _ _) as [[[code [body|e]|err] w'|w']|]; done.
Qed.

(** On an endpoint whose calls return and which does not answer within a
    positive window, [GetWithTimeout] returns a non-nil error after at
    least one call. *)
Lemma GetWithTimeout_net_no_answer (net : Net) (request : Request) (timeout : Z) (w : Wire) :
  0 < timeout ->
  (forall j, Do_blocks net request j = false) ->
  (forall body, ~ answers (client_of net) request timeout body) ->
  exists e w' rest,
    GetWithTimeout_net net request timeout w = Some (Returned (None, Some e) w') /\
    calls w' = calls w ++ {| call_request := request; call_attempt := 0;
                             call_body_unread := negb (body_read w) |} :: rest /\
    endpoints_tried rest = [] /\
    Forall (fun c => call_request c = request) rest /\
    (S (length rest) <= GetWithTimeout_fuel timeout)%nat.
Proof.
  intros Hpos Hret Hno.
  destruct (GetWithTimeout_no_answer (client_of net) request timeout (wire_now w) Hpos Hno)
    as (e & now' & Hold).
  rewrite <- (GetWithTimeout_net_returns net request timeout w Hret) in Hold.
  destruct (GetWithTimeout_net net request timeout w) as [[[b err] w'|w']|] eqn:Hnet;
    try discriminate.
  simpl in Hold. injection Hold as -> -> _.
  apply GetWithTimeout_net_calls in Hnet as (new & Hcalls & Hatt & Hreq & Hlen & Hfirst).
  destruct (Hfirst Hpos) as [rest ->]. simpl in *.
  injection Hatt as Hatt. apply Forall_cons in Hreq as [_ Hreq].
  exists e, w', rest. split; [done|]. split; [done|].
  split; [by eapply endpoints_tried_later|]. split; [done|lia].
Qed.

Section DispatchOnTheWire.
Variables (net : Net) (reqInfo : RequestInfo) (serviceUrls : list string)
          (config : SimulationManagerConfig) (timeout : Z).

Local Abbreviation pool_request := (pool_request config reqInfo serviceUrls).

(** The dispatcher returns, exits or is stuck in a call. *)
Lemma ExecuteScalarmRequest_net_total (perm : list nat) (w : Wire) :
  is_Some (ExecuteScalarmRequest_net net reqInfo serviceUrls config timeout perm w).
Proof.
  unfold ExecuteScalarmRequest_net. revert w.
  induction perm as [|u perm IH]; intros w; simpl; [eauto|].
  destruct (serviceUrls !! u) as [serviceUrl|]; [|eauto].
  destruct (NewRequest_err (client_of net) _ _); [eauto|].
  destruct (GetWithTimeout_net_total net
              (build_request_net config serviceUrl reqInfo (body_read w)) timeout w)
    as [[[b [e|]] w'|w'] ->]; eauto.
Qed.

(** Every call the dispatcher makes is a call on a request of the pool, and
    the record of the calls only grows. *)
Lemma ExecuteScalarmRequest_net_calls (perm : list nat) :
  forall (w : Wire) (x : Run DispatchResult),
    ExecuteScalarmRequest_net net reqInfo serviceUrls config timeout perm w = Some x ->
    exists new,
      calls (wire_of x) = calls w ++ new /\
      Forall (fun c => pool_request (call_request c)) new.
Proof.
  unfold ExecuteScalarmRequest_net.
  induction perm as [|u perm IH]; intros w x H; simpl in H.
  { injection H as <-. exists []. by rewrite app_nil_r. }
  destruct (serviceUrls !! u) as [serviceUrl|] eqn:Hu;
    [|injection H as <-; exists []; by rewrite app_nil_r].
  destruct (NewRequest_err (client_of net) _ _);
    [injection H as <-; exists []; by rewrite app_nil_r|].
  destruct (GetWithTimeout_net net _ timeout w) as [y|] eqn:Hget; [|discriminate].
  apply GetWithTimeout_net_calls in Hget as (new & Hcalls & _ & Hreq & _).
  assert (Hpool : Forall (fun c => pool_request (call_request c)) new).
  { eapply Forall_impl; [exact Hreq|]. intros c ->.
    exists serviceUrl, (body_read w). split; [|done]. by eapply list_elem_of_lookup_2. }
  destruct y as [[b [e|]] w'|w']; simpl in Hcalls.
  - apply IH in H as (new' & Hcalls' & Hpool').
    exists (new ++ new'). rewrite Hcalls', Hcalls, <- app_assoc.
    split; [done|]. by apply Forall_app.
  - injection H as <-. eauto.
  - injection H as <-. eauto.
Qed.

(** The first thing the dispatcher does, when the window is positive and
    the URL of the first endpoint drawn is accepted, is to call
    [client.Do] on the request built for that endpoint; when that call
    returns a response whose body is read, the dispatcher returns the
    body. *)
Lemma ExecuteScalarmRequest_net_first_call (v : nat) (perm : list nat) (serviceUrl : string)
    (w : Wire) :
  serviceUrls !! v = Some serviceUrl ->
  NewRequest_err (client_of net) (HttpMethod reqInfo) (request_url config serviceUrl reqInfo)
  = None ->
  0 < timeout ->
  let request := build_request_net config serviceUrl reqInfo (body_read w) in
  let first := {| call_request := request; call_attempt := 0;
                  call_body_unread := negb (body_read w) |} in
  (exists x rest,
     ExecuteScalarmRequest_net net reqInfo serviceUrls config timeout (v :: perm) w = Some x /\
     calls (wire_of x) = calls w ++ first :: rest /\
     Forall (fun c => pool_request (call_request c)) rest) /\
  (Do_blocks net request 0 = false ->
   forall code body,
     outcome (Do (client_of net) request 0%nat) = DoResp code (ReadOk body) ->
     ExecuteScalarmRequest_net net reqInfo serviceUrls config timeout (v :: perm) w
     = Some (Returned (Response (Some body))
               {| wire_now := wire_now w + Z.of_N (elapsed (Do (client_of net) request 0%nat));
                  body_read := body_read w || (has_body request && Do_reads_body net request 0);
                  calls := calls w ++ [first] |})).
Proof.
  intros Hv Hnew Hpos request first. split.
  - destruct (ExecuteScalarmRequest_net_total (v :: perm) w) as [x Hx].
    exists x. pose proof Hx as Hx'. pose proof Hx as Hx0.
    apply ExecuteScalarmRequest_net_calls in Hx' as (new & Hcalls & Hpool).
    unfold ExecuteScalarmRequest_net in Hx. simpl in Hx. rewrite Hv, Hnew in Hx.
    fold request in Hx.
    destruct (GetWithTimeout_net net request timeout w) as [y|] eqn:Hget; [|discriminate].
    apply GetWithTimeout_net_calls in Hget as (new0 & Hcalls0 & _ & _ & _ & Hfirst).
    destruct (Hfirst Hpos) as [rest0 ->]. fold first in Hcalls0.
    assert (Hext : exists more, calls (wire_of x) = calls (wire_of y) ++ more).
    { destruct y as [[b [e|]] w'|w']; simpl.
      - apply ExecuteScalarmRequest_net_calls in Hx as (more & ? & _). eauto.
      - injection Hx as <-. exists []. by rewrite app_nil_r.
      - injection Hx as <-. exists []. by rewrite app_nil_r. }
    destruct Hext as [more Hmore]. rewrite Hcalls0, <- app_assoc in Hmore. simpl in Hmore.
    rewrite Hcalls in Hmore. apply app_inv_head in Hmore. subst new.
    exists (rest0 ++ more). split; [exact Hx0|]. split; [by rewrite Hcalls|].
    by apply Forall_cons in Hpool as [_ ?].
  - intros Hret code body Hresp. unfold ExecuteScalarmRequest_net. simpl.
    rewrite Hv, Hnew. fold request. unfold GetWithTimeout_net, GetWithTimeout_fuel. simpl.
    rewrite bool_decide_eq_true_2 by lia. rewrite Hret, Hresp. done.
Qed.

(** When every call returns and no request of the pool is answered within
    the positive window, every endpoint drawn is tried, in the order
    drawn, and the dispatcher ends in [Fatal]. *)
Lemma ExecuteScalarmRequest_net_exhausted (perm : list nat) :
  0 < timeout ->
  Forall (fun u => (u < length serviceUrls)%nat) perm ->
  (forall request, pool_request request ->
     (forall n, Do_blocks net request n = false) /\
     (forall body, ~ answers (client_of net) request timeout body)) ->
  forall w, exists err w',
    ExecuteScalarmRequest_net net reqInfo serviceUrls config timeout perm w
    = Some (Returned (Fatal err) w') /\
    (requests_well_formed (client_of net) reqInfo serviceUrls config ->
     err = "Could not execute request against Scalarm service" /\
     exists new,
       calls w' = calls w ++ new /\
       Forall2 (fun u url => exists serviceUrl,
                  serviceUrls !! u = Some serviceUrl /\
                  url = request_url config serviceUrl reqInfo)
         perm (endpoints_tried new)).
Proof.
  intros Hpos Hperm Hpool. unfold ExecuteScalarmRequest_net.
  induction Hperm as [|u perm Hu _ IH]; intros w; simpl.
  { eexists _, _. split; [done|]. intros _. split; [done|].
    exists []. rewrite app_nil_r. split; [done|constructor]. }
  destruct (lookup_lt_is_Some_2 serviceUrls u Hu) as [serviceUrl HuUrl]. rewrite HuUrl.
  assert (Hin : serviceUrl ∈ serviceUrls) by (by eapply list_elem_of_lookup_2).
  destruct (NewRequest_err (client_of net) _ _) as [err|] eqn:Hnew.
  { eexists _, _. split; [done|]. intros Hwf. rewrite (Hwf _ Hin) in Hnew. discriminate. }
  set (request := build_request_net config serviceUrl reqInfo (body_read w)).
  destruct (Hpool request) as [Hret Hno]; [by exists serviceUrl, (body_read w)|].
  destruct (GetWithTimeout_net_no_answer net request timeout w Hpos Hret Hno)
    as (e & w1 & rest & -> & Hcalls & Hrest & _).
  destruct (IH w1) as (err & w' & -> & Hwf').
  exists err, w'. split; [done|]. intros Hwf.
  destruct (Hwf' Hwf) as (-> & new & Hcalls' & Htried). split; [done|].
  eexists. rewrite Hcalls', Hcalls, <- app_assoc. split; [done|].
  simpl. rewrite endpoints_tried_app, Hrest. simpl. constructor; [|done].
  exists serviceUrl. split; [done|].
  subst request. unfold build_request_net.
  destruct (Body reqInfo), (body_read w); done.
Qed.
End DispatchOnTheWire.

(** A reader that no call reads stays unread. *)
Lemma GetWithTimeout_net_loop_unread (net : Net) (request : Request) (deadline : Z) :
  (forall j, Do_reads_body net request j = false) ->
  forall (fuel : nat) (w : Wire) (n : nat) (err : option string) (x : Run LoopExit),
    body_read w = false ->
    GetWithTimeout_net_loop fuel net request deadline w n err = Some x ->
    body_read (wire_of x) = false.
Proof.
  intros Hno. induction fuel as [|fuel IH]; intros w n err x Hw Hloop; simpl in Hloop.
  - case_bool_decide; [discriminate|]. by injection Hloop as <-.
  - case_bool_decide; [|by injection Hloop as <-].
    destruct (Do_blocks net request n); [by injection Hloop as <-|].
    destruct (outcome (Do (client_of net) request n)).
    + eapply IH; [|exact Hloop]. simpl. by rewrite Hw, Hno, andb_false_r.
    + injection Hloop as <-. simpl. by rewrite Hw, Hno, andb_false_r.
Qed.

Lemma GetWithTimeout_net_unread (net : Net) (request : Request) (timeout : Z) (w : Wire)
    (x : Run (option string * option string)) :
  (forall j, Do_reads_body net request j = false) ->
  body_read w = false ->
  GetWithTimeout_net net request timeout w = Some x ->
  body_read (wire_of x) = false.
Proof.
  intros Hno Hw. unfold GetWithTimeout_net.
  destruct (GetWithTimeout_net_loop _ _ _ _ _ _ _) as [y|] eqn:Hloop; [|discriminate].
  apply (GetWithTimeout_net_loop_unread net request _ Hno) in Hloop; [|done].
  destruct y as [[code [body|e]|err] w'|w']; by intros [= <-].
Qed.

(** On a network on which every call returns and the body is not read,
    the dispatcher on the wire is the dispatcher on [Http]. *)
Lemma ExecuteScalarmRequest_net_Http (client : Http) (reqInfo : RequestInfo)
    (serviceUrls : list string) (config : SimulationManagerConfig) (timeout : Z)
    (perm : list nat) :
  forall w, body_read w = false ->
    ExecuteScalarmRequest_net (Net_of client) reqInfo serviceUrls config timeout perm w
      ≫= Run_result
    = ExecuteScalarmRequest client reqInfo serviceUrls config timeout perm (wire_now w).
Proof.
  unfold ExecuteScalarmRequest_net, ExecuteScalarmRequest.
  induction perm as [|u perm IH]; intros w Hw; simpl; [done|].
  destruct (serviceUrls !! u) as [serviceUrl|]; [|done].
  destruct (NewRequest_err client _ _); [done|].
  assert (Hreq : build_request_net config serviceUrl reqInfo (body_read w)
                 = build_request config serviceUrl reqInfo).
  { unfold build_request_net. rewrite Hw. by destruct (Body reqInfo). }
  rewrite Hreq.
  pose proof (GetWithTimeout_net_returns (Net_of client)
                (build_request config serviceUrl reqInfo) timeout w (fun _ => eq_refl)) as Hsim.
  simpl in Hsim. rewrite <- Hsim.
  pose proof (GetWithTimeout_net_unread (Net_of client)
                (build_request config serviceUrl reqInfo) timeout w) as Hread.
  destruct (GetWithTimeout_net (Net_of client) _ timeout w) as [[[b [e|]] w'|w']|]; simpl;
    try done.
  apply IH. by apply (Hread _ (fun _ => eq_refl) Hw eq_refl).
Qed.

(** ** Claims on the configured timeout and the dispatcher *)

(** A timeout that is zero, negative or absent from [config.json] is
    replaced by 60 seconds. *)
Lemma main_timeout_default_60s (config : SimulationManagerConfig) :
  Timeout config <= 0 ->
  Timeout (main_defaultTimeout config) = 60 /\
  main_communicationTimeout config = 60 * Second.
Proof.
  intros H. split.
  - by apply main_defaultTimeout_nonpositive.
  - by apply main_communicationTimeout_default.
Qed.

(** C10. A positive configured timeout is meant to be the per-call timeout
    in seconds.  With [timeout = 9223372037] the guard keeps the value, but
    the conversion [time.Duration(config.Timeout) * time.Second] wraps
    around in int64: the per-call timeout is negative, not 9223372037
    seconds.  (Values from 1 to 9223372036 are converted exactly, see
    [main_communicationTimeout_in_range].) *)
Theorem main_communicationTimeout_overflow :
  0 < Timeout overflow_config /\
  int64_range (Timeout overflow_config) /\
  Timeout (main_defaultTimeout overflow_config) = 9223372037 /\
  main_communicationTimeout overflow_config = -9223372036709551616 /\
  main_communicationTimeout overflow_config <> Timeout overflow_config * Second.
Proof. vm_compute. repeat split; congruence. Qed.




Lemma unreachable_client_silent (reqInfo : RequestInfo) (serviceUrls : list string)
    (config : SimulationManagerConfig) (timeout : Z) (v : nat) :
  endpoint_silent unreachable_client reqInfo serviceUrls config timeout v.
Proof. intros body (u & _ & k & code & _ & _ & Hresp). discriminate. Qed.




(** Dispatcher runs on [Http]. *)
Example ExecuteScalarmRequest_example_failover :
  ExecuteScalarmRequest example_client example_reqInfo ["em1"; "em2"] example_config
    (3 * Second) [0; 1]%nat 0 = Some (Response (Some "busy"), 3200000000).
Proof. reflexivity. Qed.

Example ExecuteScalarmRequest_example_exhausted :
  ExecuteScalarmRequest unreachable_client example_reqInfo ["em1"; "em2"] example_config
    (3 * Second) [1; 0]%nat 0
  = Some (Fatal "Could not execute request against Scalarm service", 6000000000).
Proof. reflexivity. Qed.

(** With a window that is not positive no request is sent and the nil
    body of the first endpoint drawn is returned as a success. *)
Example ExecuteScalarmRequest_example_no_window :
  ExecuteScalarmRequest unreachable_client example_reqInfo ["em1"; "em2"] example_config
    0 [1; 0]%nat 0 = Some (Response None, 0).
Proof. reflexivity. Qed.

(** ** The acquisition loop *)

Lemma lookup_Unmarshal_object (k : string) (fields : list (string * JSON)) :
  forall m : gmap string JSON,
    foldl (fun acc kv => <[kv.1 := kv.2]> acc) m fields !! k =
    match fields_get k fields with
    | Some v => Some v
    | None => m !! k
    end.
Proof.
  induction fields as [|[k' v] rest IH]; intros m; simpl; [done|].
  rewrite IH. destruct (fields_get k rest); [done|].
  case_bool_decide as Hk; [subst; by rewrite lookup_insert_eq|by rewrite lookup_insert_ne].
Qed.

Lemma reply_status_Unmarshal (f : Fetch) (status : string) (m : gmap string JSON) :
  reply_status f = Some status ->
  exists decoded m',
    reply f = ReplyBody decoded /\ Unmarshal_map decoded m = (m', false) /\
    m' !! "status" = Some (JString status).
Proof.
  unfold reply_status. destruct (reply f) as [|[[]|]|]; try discriminate.
  intros Hst. eexists _, _. split; [done|]. split; [done|].
  rewrite lookup_Unmarshal_object.
  destruct (fields_get "status" fields) as [[]|]; try discriminate.
  by injection Hst as ->.
Qed.

Lemma classify_string_status (m : gmap string JSON) (status : string) :
  m !! "status" = Some (JString status) ->
  (status = "ok" -> classify m = OkBreak) /\
  (status = "wait" -> classify m = WaitBreak) /\
  (status <> "ok" -> status <> "wait" -> exists log, classify m = Retry log).
Proof.
  intros Hst. unfold classify. rewrite Hst. simpl. repeat split.
  - intros ->. done.
  - intros ->. done.
  - intros Hok Hwait. repeat case_bool_decide; try done; eauto.
Qed.

Lemma classify_panic (m : gmap string JSON) :
  classify m = StatusPanic <-> assert_string (m !! "status") = None.
Proof.
  unfold classify. destruct (assert_string (m !! "status")); [|done].
  split; [|done]. repeat case_bool_decide; discriminate.
Qed.

Lemma nextSimulation_fuel_enough (window : Z) :
  window <= Z.of_nat (nextSimulation_fuel window) * (5 * Second).
Proof.
  unfold nextSimulation_fuel, Second.
  destruct (decide (window <= 0)) as [Hle|Hgt]; [lia|].
  rewrite Nat2Z.inj_succ, Z2Nat.id by (apply Z.div_pos; lia).
  pose proof (Z.mod_pos_bound window (5 * 1000000000) ltac:(lia)).
  pose proof (Z.div_mod window (5 * 1000000000) ltac:(lia)). lia.
Qed.

(** The inner loop always ends: each pass that stays in it sleeps 5 s. *)
Lemma nextSimulation_loop_total (env : nat -> Fetch) (deadline : Z) :
  forall (fuel : nat) (now : Z) (k : nat) (m : gmap string JSON),
    deadline - now <= Z.of_nat fuel * (5 * Second) ->
    is_Some (nextSimulation_loop fuel env deadline now k m).
Proof.
  induction fuel as [|fuel IH]; intros now k m Hfuel; simpl.
  - rewrite bool_decide_eq_false_2 by lia. eauto.
  - case_bool_decide; [|eauto].
    assert (Hnext : forall m', is_Some (nextSimulation_loop fuel env deadline
                      (now + Z.of_N (took (env k)) + 5 * Second) (S k) m')).
    { intros m'. apply IH. unfold Second in *. lia. }
    destruct (reply (env k)) as [err|decoded|stored]; [eauto| |apply Hnext].
    destruct (Unmarshal_map decoded m) as [m' []]; [apply Hnext|].
    destruct (classify m'); eauto.
Qed.

Lemma main_acquire_total (env : nat -> Fetch) (communicationTimeout : Z)
    (experimentManagers : list string) (now : Z) :
  is_Some (main_acquire env communicationTimeout experimentManagers now).
Proof.
  unfold main_acquire.
  destruct (nextSimulation_loop_total env
              (now + Duration_mul communicationTimeout (Z.of_nat (length experimentManagers)))
              (nextSimulation_fuel
                 (Duration_mul communicationTimeout (Z.of_nat (length experimentManagers))))
              now 0%nat ∅) as [r ->]; [|eauto].
  pose proof (nextSimulation_fuel_enough
                (Duration_mul communicationTimeout (Z.of_nat (length experimentManagers)))).
  lia.
Qed.

(** One pass of the loop on a reply whose status is [all_sent]: nothing is
    returned, the worker sleeps 5 s and goes back to the loop test. *)
Lemma nextSimulation_loop_all_sent (env : nat -> Fetch) (deadline : Z) (fuel : nat)
    (now : Z) (k : nat) (m : gmap string JSON) :
  now < deadline ->
  reply_status (env k) = Some "all_sent" ->
  exists m',
    nextSimulation_loop (S fuel) env deadline now k m =
    nextSimulation_loop fuel env deadline (now + Z.of_N (took (env k)) + 5 * Second) (S k) m'.
Proof.
  intros Hnow Hst. simpl. rewrite bool_decide_eq_true_2 by done.
  destruct (reply_status_Unmarshal _ _ m Hst) as (decoded & m' & -> & -> & Hm').
  unfold classify. rewrite Hm'. simpl. eauto.
Qed.

Lemma nextSimulation_loop_all_sent_fails (env : nat -> Fetch) (deadline : Z) :
  (forall k, reply_status (env k) = Some "all_sent") ->
  forall (fuel : nat) (now : Z) (k : nat) (m : gmap string JSON) (r : RoundEnd),
    nextSimulation_loop fuel env deadline now k m = Some r ->
    round r = RoundFailed.
Proof.
  intros Hall. induction fuel as [|fuel IH]; intros now k m r Hloop.
  - simpl in Hloop. case_bool_decide; [discriminate|]. by injection Hloop as <-.
  - destruct (decide (now < deadline)) as [Hnow|Hnow].
    + destruct (nextSimulation_loop_all_sent env deadline fuel now k m Hnow (Hall k))
        as [m' Heq].
      rewrite Heq in Hloop. by apply IH in Hloop.
    + simpl in Hloop. rewrite bool_decide_eq_false_2 in Hloop by done.
      by injection Hloop as <-.
Qed.

Lemma nextSimulation_loop_requests (env : nat -> Fetch) (deadline : Z) :
  forall (fuel : nat) (now : Z) (k : nat) (m : gmap string JSON) (r : RoundEnd),
    nextSimulation_loop fuel env deadline now k m = Some r ->
    round r <> RoundFailed ->
    (S k <= requests r)%nat.
Proof.
  induction fuel as [|fuel IH]; intros now k m r Hloop Hround; simpl in Hloop.
  - case_bool_decide; [discriminate|]. injection Hloop as <-. done.
  - case_bool_decide; [|injection Hloop as <-; done].
    assert (Hnext : forall m', nextSimulation_loop fuel env deadline
                      (now + Z.of_N (took (env k)) + 5 * Second) (S k) m' = Some r ->
                    (S k <= requests r)%nat).
    { intros m' H'. apply IH in H'; [lia|done]. }
    destruct (reply (env k)) as [err|decoded|stored];
      [injection Hloop as <-; simpl; lia| |by eapply Hnext].
    destruct (Unmarshal_map decoded m) as [m' []]; [by eapply Hnext|].
    destruct (classify m'); try (injection Hloop as <-; simpl; lia). by eapply Hnext.
Qed.

(** A round left through [wait = true; break]: the status read was
    [wait]. *)
Lemma nextSimulation_loop_wait_status (env : nat -> Fetch) (deadline : Z) :
  forall (fuel : nat) (now : Z) (k : nat) (m : gmap string JSON) (r : RoundEnd),
    nextSimulation_loop fuel env deadline now k m = Some r ->
    round r = RoundWait ->
    simulation_run r !! "status" = Some (JString "wait").
Proof.
  induction fuel as [|fuel IH]; intros now k m r Hloop Hround; simpl in Hloop.
  - case_bool_decide; [discriminate|]. injection Hloop as <-. done.
  - case_bool_decide; [|injection Hloop as <-; done].
    destruct (reply (env k)) as [err|decoded|stored];
      [injection Hloop as <-; done| |by eapply IH].
    destruct (Unmarshal_map decoded m) as [m' []]; [by eapply IH|].
    destruct (classify m') eqn:Hclass; try (injection Hloop as <-; done); [by eapply IH|].
    injection Hloop as <-. simpl. clear Hround. unfold classify in Hclass.
    destruct (m' !! "status") as [[| | |status| |]|]; try discriminate. simpl in Hclass.
    repeat case_bool_decide; try discriminate. by subst.
Qed.

(** [main] is the inner loop followed by lines 451-461. *)
Lemma main_acquire_afterRound (env : nat -> Fetch) (communicationTimeout : Z)
    (experimentManagers : list string) (now : Z) :
  let window := Duration_mul communicationTimeout (Z.of_nat (length experimentManagers)) in
  main_acquire env communicationTimeout experimentManagers now =
  (fun r => (main_afterRound r, requests r)) <$>
    nextSimulation_loop (nextSimulation_fuel window) env (now + window) now 0 ∅.
Proof.
  intros window. unfold main_acquire. fold window.
  destruct (nextSimulation_loop (nextSimulation_fuel window) env (now + window) now 0 ∅);
    reflexivity.
Qed.

(** [time.Duration(f) * time.Second] is the whole seconds of [f]: the
    fraction is dropped, toward zero. *)
Lemma Duration_of_float64_seconds (f : Q) :
  let secs := Z.quot (Qnum f) (Z.pos (Qden f)) in
  - 9223372036 <= secs <= 9223372036 ->
  Duration_of_float64 f = secs /\
  Duration_mul (Duration_of_float64 f) Second = secs * Second.
Proof.
  intros secs Hsecs. unfold Duration_of_float64. fold secs.
  rewrite bool_decide_eq_true_2 by lia. split; [done|].
  unfold Duration_mul. apply wrap64_id. unfold int64_range, Second. lia.
Qed.

(** The map a round ends with is the one its replies have built. *)
Lemma nextSimulation_loop_map (env : nat -> Fetch) (deadline : Z) :
  forall (fuel : nat) (now : Z) (k : nat) (r : RoundEnd),
    nextSimulation_loop fuel env deadline now k (simulation_run_after env k) = Some r ->
    simulation_run r = simulation_run_after env (requests r).
Proof.
  induction fuel as [|fuel IH]; intros now k r Hloop; simpl in Hloop.
  - case_bool_decide; [discriminate|]. by injection Hloop as <-.
  - case_bool_decide; [|by injection Hloop as <-].
    assert (Hnext : forall m', m' = simulation_run_after env (S k) ->
              nextSimulation_loop fuel env deadline
                (now + Z.of_N (took (env k)) + 5 * Second) (S k) m' = Some r ->
              simulation_run r = simulation_run_after env (requests r)).
    { intros m' -> H'. by eapply IH. }
    destruct (reply (env k)) as [err|decoded|stored] eqn:Hreply.
    + injection Hloop as <-. simpl. by rewrite Hreply.
    + destruct (Unmarshal_map decoded (simulation_run_after env k)) as [m' err] eqn:Hum.
      assert (Hm' : m' = simulation_run_after env (S k)).
      { simpl. rewrite Hreply. simpl. by rewrite Hum. }
      destruct err; [by eapply Hnext|].
      destruct (classify m'); try (injection Hloop as <-; simpl; exact Hm').
      by eapply Hnext.
    + eapply Hnext; [|exact Hloop]. simpl. by rewrite Hreply.
Qed.

(** A round left through [wait = true; break] was left on a reply that is
    an object decoded without error; the map then holds the fields of that
    object on top of what the earlier replies of the round had left. *)
Lemma nextSimulation_loop_wait_reply (env : nat -> Fetch) (deadline : Z) :
  forall (fuel : nat) (now : Z) (k : nat) (r : RoundEnd),
    nextSimulation_loop fuel env deadline now k (simulation_run_after env k) = Some r ->
    round r = RoundWait ->
    exists fields,
      (k < requests r)%nat /\
      reply (env (requests r - 1)%nat) = ReplyBody (Some (JObject fields)) /\
      (forall key, simulation_run r !! key =
                   match fields_get key fields with
                   | Some v => Some v
                   | None => simulation_run_after env (requests r - 1) !! key
                   end).
Proof.
  induction fuel as [|fuel IH]; intros now k r Hloop Hround; simpl in Hloop.
  - case_bool_decide; [discriminate|]. injection Hloop as <-. done.
  - case_bool_decide; [|injection Hloop as <-; done].
    assert (Hnext : forall m', m' = simulation_run_after env (S k) ->
              nextSimulation_loop fuel env deadline
                (now + Z.of_N (took (env k)) + 5 * Second) (S k) m' = Some r ->
              exists fields,
                (k < requests r)%nat /\
                reply (env (requests r - 1)%nat) = ReplyBody (Some (JObject fields)) /\
                (forall key, simulation_run r !! key =
                             match fields_get key fields with
                             | Some v => Some v
                             | None => simulation_run_after env (requests r - 1) !! key
                             end)).
    { intros m' -> H'. destruct (IH _ _ _ H' Hround) as (fields & Hk & Hrp & Hm).
      exists fields. split; [lia|done]. }
    destruct (reply (env k)) as [err|decoded|stored] eqn:Hreply.
    + injection Hloop as <-. done.
    + destruct (Unmarshal_map decoded (simulation_run_after env k)) as [m' err] eqn:Hum.
      assert (Hm' : m' = simulation_run_after env (S k)).
      { simpl. rewrite Hreply. simpl. by rewrite Hum. }
      destruct err; [by eapply Hnext|].
      destruct (classify m') eqn:Hclass; try (injection Hloop as <-; done);
        [by eapply Hnext|].
      injection Hloop as <-. simpl.
      destruct decoded as [[| | | | |fields]|]; simpl in Hum; try discriminate.
      * injection Hum as <-. vm_compute in Hclass. discriminate.
      * injection Hum as <-. exists fields. split; [lia|].
        rewrite Nat.sub_0_r. split; [done|]. intros key. apply lookup_Unmarshal_object.
    + eapply Hnext; [|exact Hloop]. simpl. by rewrite Hreply.
Qed.

(** ** Claims on job acquisition *)







(** The same reply, two outcomes.  The empty object panics when it is the
    first reply of its round; after a reply with status [error], or after
    an object that [json.Unmarshal] rejected once its [status] was stored,
    it is classified by the [status] that is still in the map, and the
    round goes on to the end of its window. *)
Example stored_status_outlives_its_reply :
  main_acquire empty_object_reply (60 * Second) ["em1"] 0 = Some (Panicked, 1%nat) /\
  main_acquire error_then_empty (60 * Second) ["em1"] 0 = Some (ExitProcess 0, 12%nat) /\
  main_acquire partly_then_empty (60 * Second) ["em1"] 0 = Some (ExitProcess 0, 12%nat).
Proof. repeat split; vm_compute; reflexivity. Qed.

(** C9, as stated, fails.  The coordinator first reports an error in a
    reply that carries [duration_in_seconds: 7], then says [wait] in a
    reply without that field: the worker does not crash, it sleeps the 7 s
    of the earlier reply.  And a requested wait of half a second is not
    slept at all: [time.Duration(0.5)] is 0. *)
Lemma wait_without_duration_can_sleep :
  reply_status (stale_duration_replies 1%nat) = Some "wait" /\
  (exists fields,
     reply (stale_duration_replies 1%nat) = ReplyBody (Some (JObject fields)) /\
     fields_get "duration_in_seconds" fields = None) /\
  main_acquire stale_duration_replies (60 * Second) ["em1"] 0
  = Some (SleepThenContinue (7 * Second) (12 * Second), 2%nat) /\
  main_acquire wait_half_second (60 * Second) ["em1"] 0
  = Some (SleepThenContinue 0 0, 1%nat).
Proof.
  split; [reflexivity|]. split; [eexists; split; reflexivity|].
  split; vm_compute; reflexivity.
Qed.

(** C9, amended.  After a round that was left with [wait], the worker
    evaluates [simulation_run["duration_in_seconds"].(float64)] on the map
    of the round, which is what [json.Unmarshal] has built from the
    replies of the round, starting from the nil map.  That entry is the
    [duration_in_seconds] field of the reply on which the round was left
    when the reply carries one; otherwise it is what the earlier replies
    of the same round had left under that key.  When
    the entry is a JSON number [f] the worker sleeps
    [time.Duration(f) * time.Second], the whole seconds of [f] (its
    fraction dropped, toward zero; a negative time is not slept), and
    starts a new round; when the entry is missing or holds any other JSON
    value the assertion panics.  So the worker sleeps only when the entry
    is a number. *)
Theorem wait_sleeps_only_on_number
    (env : nat -> Fetch) (communicationTimeout : Z) (experimentManagers : list string)
    (now : Z) (r : RoundEnd) :
  let window := Duration_mul communicationTimeout (Z.of_nat (length experimentManagers)) in
  nextSimulation_loop (nextSimulation_fuel window) env (now + window) now 0 ∅ = Some r ->
  round r = RoundWait ->
  let entry := simulation_run r !! "duration_in_seconds" in
  let result := main_acquire env communicationTimeout experimentManagers now in
  simulation_run r !! "status" = Some (JString "wait") /\
  simulation_run r = simulation_run_after env (requests r) /\
  (exists fields,
     reply (env (requests r - 1)%nat) = ReplyBody (Some (JObject fields)) /\
     entry = match fields_get "duration_in_seconds" fields with
             | Some v => Some v
             | None => simulation_run_after env (requests r - 1) !! "duration_in_seconds"
             end) /\
  simulation_run_after env 0 = ∅ /\
  (forall f, entry = Some (JNumber f) ->
     let d := Duration_mul (Duration_of_float64 f) Second in
     result = Some (SleepThenContinue d (after_Sleep d (round_now r)), requests r)) /\
  (forall f, entry = Some (JNumber f) ->
     let secs := Z.quot (Qnum f) (Z.pos (Qden f)) in
     - 9223372036 <= secs <= 9223372036 ->
     result = Some (SleepThenContinue (secs * Second)
                      (round_now r + Z.max 0 (secs * Second)), requests r)) /\
  ((forall f, entry <> Some (JNumber f)) -> result = Some (Panicked, requests r)) /\
  (forall d t n, result = Some (SleepThenContinue d t, n) -> exists f, entry = Some (JNumber f)).
Proof.
  intros window Hloop Hround entry result.
  assert (Hres : result = Some (match assert_float64 entry with
                                | None => Panicked
                                | Some f =>
                                    let d := Duration_mul (Duration_of_float64 f) Second in
                                    SleepThenContinue d (after_Sleep d (round_now r))
                                end, requests r)).
  { subst result. unfold main_acquire. fold window. rewrite Hloop, Hround. done. }
  split; [by eapply nextSimulation_loop_wait_status|].
  split; [by eapply (nextSimulation_loop_map env _ _ now 0%nat)|].
  split; [|split; [done|split; [|split; [|split]]]].
  - destruct (nextSimulation_loop_wait_reply env _ _ now 0%nat _ Hloop Hround)
      as (fields & _ & Hreply & Hm).
    exists fields. split; [done|apply Hm].
  - intros f Hf. rewrite Hres, Hf. done.
  - intros f Hf secs Hsecs. rewrite Hres, Hf. simpl.
    destruct (Duration_of_float64_seconds f Hsecs) as [_ ->]. done.
  - intros Hnot. rewrite Hres. destruct entry as [[]|]; try done. by destruct (Hnot f).
  - intros d t n Hsleep. rewrite Hres in Hsleep.
    destruct entry as [[]|]; try discriminate. eauto.
Qed.

Lemma wait_sleeps_only_on_number_witness :
  main_acquire wait_2500ms (60 * Second) ["em1"] 0
  = Some (SleepThenContinue (2 * Second) (2 * Second), 1%nat).
Proof.
  pose (r := {| round := RoundWait;
                simulation_run := <["duration_in_seconds" := JNumber (5 # 2)]>
                                    (<["status" := JString "wait"]> ∅);
                round_now := 0; requests := 1 |}).
  destruct (wait_sleeps_only_on_number wait_2500ms (60 * Second) ["em1"] 0 r
              eq_refl eq_refl) as (_ & _ & _ & _ & _ & Hsecs & _).
  refine (Hsecs (5 # 2)%Q eq_refl _). vm_compute. split; discriminate.
Defined.

(** The two ways the assertion on the duration fails on a first reply. *)
Example wait_without_duration_panics :
  main_acquire wait_without_duration (60 * Second) ["em1"] 0 = Some (Panicked, 1%nat).
Proof. vm_compute. reflexivity. Qed.

Example wait_with_text_duration_panics :
  main_acquire wait_with_text_duration (60 * Second) ["em1"] 0 = Some (Panicked, 1%nat).
Proof. vm_compute. reflexivity. Qed.

(** ** Claims on result reporting *)

(** What step 4f puts on the wire for the result [r] it has read.  When
    [http.NewRequest] rejects the URL of the first coordinator drawn the
    process exits with nothing sent.  Otherwise, with a positive timeout,
    the first call of [client.Do] carries the [mark_as_complete] request
    of [r] with its form unread; every later call is a call on a
    [mark_as_complete] request of the pool; and when the first call
    returns a response whose body is read the worker goes on with it. *)
Lemma main_reportResults_net_submits
    (lib : GoLib) (net : Net) (config : SimulationManagerConfig)
    (experimentManagers : list string) (communicationTimeout : Z) (simulation_index : Q)
    (probe : FileProbe) (r : SimulationRunResults) (v : nat) (perm : list nat)
    (serviceUrl : string) (w : Wire) :
  main_readOutput probe = Some r ->
  experimentManagers !! v = Some serviceUrl ->
  let info := markAsCompleteInfo lib config simulation_index r in
  let submission := build_request config serviceUrl info in
  let first := {| call_request := submission; call_attempt := 0; call_body_unread := true |} in
  let run := main_reportResults_net lib net config experimentManagers communicationTimeout
               simulation_index probe (v :: perm) w in
  (forall e, NewRequest_err (client_of net) "POST" (req_url submission) = Some e ->
     run = Some (Returned (Exits 1) (new_reader w))) /\
  (NewRequest_err (client_of net) "POST" (req_url submission) = None ->
   0 < communicationTimeout ->
   (exists x rest,
      run = Some x /\
      calls (wire_of x) = calls w ++ first :: rest /\
      Forall (fun c => pool_request config info experimentManagers (call_request c)) rest) /\
   (Do_blocks net submission 0 = false ->
    forall code body,
      outcome (Do (client_of net) submission 0%nat) = DoResp code (ReadOk body) ->
      run = Some (Returned
                    (Continues (Some body)
                       (wire_now w + Z.of_N (elapsed (Do (client_of net) submission 0%nat))))
                    {| wire_now := wire_now w
                                   + Z.of_N (elapsed (Do (client_of net) submission 0%nat));
                       body_read := Do_reads_body net submission 0;
                       calls := calls w ++ [first] |}))).
Proof.
  intros Hread Hv info submission first run. subst run.
  unfold main_reportResults_net. rewrite Hread. fold info. split.
  - intros e Hnew. unfold ExecuteScalarmRequest_net. simpl. rewrite Hv.
    change (request_url config serviceUrl info) with (req_url submission).
    rewrite Hnew. done.
  - intros Hnew Hpos.
    destruct (ExecuteScalarmRequest_net_first_call net info experimentManagers config
                communicationTimeout v perm serviceUrl (new_reader w) Hv Hnew Hpos)
      as [(x & rest & Hx & Hcalls & Hpool) Hanswered].
    split.
    + rewrite Hx. destruct x as [res w'|w']; eauto.
    + intros Hret code body Hresp.
      rewrite (Hanswered Hret code body Hresp). done.
Qed.




(** What the fail-over does to the form.  [em1] reads the request and
    drops the connection, three times in a 3 s window; the request then
    built for [em2] is made on the reader that [em1] has read, and [em2]
    answers a POST without the form.  The worker carries on. *)
Example mark_as_complete_after_failover :
  exists w',
    main_reportResults_net example_lib dropping_net example_config ["em1"; "em2"]
      (3 * Second) 3 (NotExist "stat output.json: no such file or directory") [0; 1]%nat
      idle_wire
    = Some (Returned (Continues (Some "{}") 3200000000) w') /\
    (fun c => (req_url (call_request c), call_attempt c, call_body_unread c)) <$> calls w'
    = [("http://em1/experiments/e1/simulations/3/mark_as_complete", 0%nat, true);
       ("http://em1/experiments/e1/simulations/3/mark_as_complete", 1%nat, false);
       ("http://em1/experiments/e1/simulations/3/mark_as_complete", 2%nat, false);
       ("http://em2/experiments/e1/simulations/3/mark_as_complete", 0%nat, false)] /\
    (req_body ∘ call_request) <$> drop 3 (calls w') = [RestOfBody].
Proof. eexists. repeat split; reflexivity. Qed.

(** A run of steps 4e and 4f on [Http] with no [output.json]: [em1] is
    down, [em2] takes the [mark_as_complete] call and the worker carries
    on. *)
Example missing_output_example :
  main_reportResults example_lib example_client example_config ["em1"; "em2"] (3 * Second) 3
    (NotExist "stat output.json: no such file or directory") [0; 1]%nat 0
  = Some (Continues (Some "busy") 3200000000).
Proof. vm_compute. reflexivity. Qed.




(** An intermediate result that is not [ok] is not sent at all. *)
Lemma progress_report_skipped (lib : GoLib) (client : Http) (config : SimulationManagerConfig)
    (experimentManagers : list string) (simIndex : Q) (r : SimulationRunResults)
    (perm : list nat) (now : Z) :
  Status r <> "ok" ->
  IntermediateMonitoring_report lib client config experimentManagers simIndex (Some r) perm now
  = Some (Continues None now).
Proof.
  intros Hne. unfold IntermediateMonitoring_report. by rewrite bool_decide_eq_false_2.
Qed.

(** ** The handshake *)

Lemma handshake_inv_initial : handshake_inv initial.
Proof. unfold handshake_inv, initial; simpl. repeat split; intros; intuition congruence. Qed.

Ltac step_cases H :=
  repeat match type of H with
         | context [match ?o with Yes => _ | No => _ | Panics => _ end] => destruct o
         | context [match chan_send ?c with _ => _ end] => destruct (chan_send c) eqn:?
         | context [match chan_recv ?c with _ => _ end] => destruct (chan_recv c) eqn:?
         | context [match chan_close ?c with _ => _ end] => destruct (chan_close c) eqn:?
         end;
  try discriminate H.

Ltac chan_facts :=
  repeat match goal with
         | E : chan_send ?c = _ |- _ =>
             unfold chan_send in E; destruct c as [? []]; simpl in E;
             try case_bool_decide; try discriminate E; injection E as <-
         | E : chan_recv ?c = _ |- _ =>
             unfold chan_recv in E; destruct c as [[|?] []]; simpl in E;
             try discriminate E; injection E as <-
         | E : chan_close ?c = _ |- _ =>
             unfold chan_close in E; destruct c as [? []]; simpl in E;
             try discriminate E; injection E as <-
         end.

Lemma handshake_inv_step (l : Label) (s s' : State) :
  handshake_inv s -> step l s = Some s' -> handshake_inv s'.
Proof.
  intros (J1 & J2 & J3 & J4 & J5 & J6) Hstep.
  destruct s as [mpc monpc cpc msgs fin proc]. unfold step in Hstep. simpl in *.
  destruct proc; try discriminate Hstep.
  destruct l as [[| |] o].
  - (* main *)
    unfold step_main, main_or_exit, main_branch in Hstep. simpl in Hstep.
    destruct mpc; step_cases Hstep; chan_facts; injection Hstep as <-;
      unfold handshake_inv; simpl in *;
      repeat split; intros; try (intuition congruence);
      try (destruct cpc; simpl in *; intuition congruence).
  - (* monitor *)
    unfold step_monitor in Hstep. simpl in Hstep.
    destruct monpc; step_cases Hstep; chan_facts; injection Hstep as <-;
      unfold handshake_inv, make_chan in *; simpl in *;
      repeat split; intros; try (intuition congruence).
  - (* clean-up *)
    unfold step_cleanup in Hstep. simpl in Hstep.
    destruct cpc; step_cases Hstep; chan_facts; injection Hstep as <-;
      unfold handshake_inv; simpl in *;
      repeat split; intros; try (intuition congruence).
Qed.

Lemma handshake_inv_run (trace : list Label) :
  forall s s', handshake_inv s -> run trace s = Some s' -> handshake_inv s'.
Proof.
  induction trace as [|l trace IH]; intros s s' Hinv Hrun; simpl in Hrun.
  - by injection Hrun as <-.
  - destruct (step l s) as [s1|] eqn:Hstep; [|discriminate].
    eapply IH; [|done]. by eapply handshake_inv_step.
Qed.

Lemma handshake_inv_reachable (s : State) : reachable s -> handshake_inv s.
Proof. intros [trace Hrun]. eapply handshake_inv_run; [apply handshake_inv_initial|done]. Qed.

(** ** Claims on the handshake *)

(** C1, as stated, fails.  While the first run of the monitor script is
    still going on, [main] runs the executor, sends the stop signal, closes
    the channel and, without waiting, goes through the output-transform
    step and sends [mark_as_complete]: it stands at step 4g and nothing
    has been sent on [finished]. *)
Lemma main_reports_before_ack :
  exists s,
    run trace_report_before_ack initial = Some s /\
    main_pc s = M_StatBinaries /\
    monitor_pc s = Mon_RunAdapter /\
    acknowledged (monitor_pc s) = false /\
    finished s = make_chan /\
    process s = Running.
Proof. eexists. repeat split. Qed.

(** C1, amended.  After the executor has succeeded [main] sends the stop
    signal and closes [messages] before the output-transform step and the
    reporting of the result: the send never blocks (the channel has room
    for it), and at every later point of the job [messages] is closed.
    [main] never waits for the acknowledgment: as long as the process
    runs, [main] can take its next step whatever the monitor is doing.
    Only the clean-up goroutine waits for it. *)
Theorem main_stops_monitor_without_waiting (trace : list Label) (s : State) :
  run trace initial = Some s ->
  (process s = Running -> main_pc s = M_SendStop -> forall o,
     step (TMain, o) s
     = Some (set_main M_CloseMessages (set_messages {| queued := 1; closed := false |} s))) /\
  (process s = Running -> main_pc s = M_CloseMessages -> forall o,
     step (TMain, o) s
     = Some (set_main M_StatOutputReader
               (set_messages {| queued := queued (messages s); closed := true |} s))) /\
  (stop_sent (main_pc s) = true -> closed (messages s) = true) /\
  (process s = Running -> is_Some (step (TMain, Yes) s)).
Proof.
  intros Hrun.
  destruct (handshake_inv_reachable s (ex_intro _ trace Hrun)) as (_ & _ & _ & J4 & J5 & J6).
  destruct s as [mpc monpc cpc msgs fin proc]. simpl in *.
  split; [|split; [|split]].
  - intros -> -> o. unfold step, step_main. simpl. rewrite J5 by eauto. done.
  - intros -> -> o. unfold step, step_main, chan_close. simpl. rewrite J6 by done. done.
  - exact J4.
  - intros ->. unfold step, step_main, main_or_exit, main_branch, chan_close. simpl.
    destruct mpc; simpl; eauto.
    + rewrite J5 by eauto. simpl. eauto.
    + rewrite J6 by done. eauto.
Qed.

Lemma main_stops_monitor_without_waiting_witness :
  exists s,
    run [(TMonitor, Yes); (TMain, Yes)] initial = Some s /\
    main_pc s = M_SendStop /\
    step (TMain, Yes) s
    = Some (set_main M_CloseMessages (set_messages {| queued := 1; closed := false |} s)).
Proof.
  eexists. split; [reflexivity|]. split; [reflexivity|].
  exact (proj1 (main_stops_monitor_without_waiting [(TMonitor, Yes); (TMain, Yes)] _ eq_refl)
           eq_refl eq_refl Yes).
Defined.

(** C3.  In every state the job can reach: once the clean-up goroutine is
    past its receive on [finished] (the removal of the working directory
    has begun or is over), the monitor has sent its acknowledgment and
    [main] had sent the stop signal.  The clean-up goroutine cannot move
    while [finished] is empty.  And the step that puts the acknowledgment
    on [finished] leaves the monitor at its [return]: the only thing the
    monitor does next is to end. *)
Theorem cleanup_waits_for_ack (trace : list Label) (s : State) :
  run trace initial = Some s ->
  (removal_begun (cleanup_pc s) = true ->
   acknowledged (monitor_pc s) = true /\ stop_sent (main_pc s) = true) /\
  (cleanup_pc s = C_Receive -> queued (finished s) = 0%nat ->
   forall o, step (TCleanup, o) s = None) /\
  (forall l s', step l s = Some s' ->
     (queued (finished s) < queued (finished s'))%nat ->
     monitor_pc s' = Mon_Return /\
     forall o, step (TMonitor, o) s' = Some (set_monitor Mon_Done s')).
Proof.
  intros Hrun.
  destruct (handshake_inv_reachable s (ex_intro _ trace Hrun)) as (J1 & J2 & J3 & J4 & J5 & J6).
  split; [|split].
  - intros Hrem. split; [by apply J1; right|].
    destruct J3 as [-> | ->]; [|done|done]. intros Hc. by rewrite Hc in Hrem.
  - intros Hc Hq o. unfold step, step_cleanup, chan_recv.
    rewrite Hc, Hq. destruct (process s); [|done|done].
    destruct (closed (finished s)) eqn:Hcl; [|done].
    rewrite (J2 eq_refl) in Hc. discriminate.
  - intros l s' Hstep Hq.
    destruct s as [mpc monpc cpc msgs fin proc]. unfold step in Hstep. simpl in *.
    destruct proc; try discriminate Hstep.
    destruct l as [[| |] o].
    + unfold step_main, main_or_exit, main_branch in Hstep. simpl in Hstep.
      destruct mpc; step_cases Hstep; injection Hstep as <-; simpl in Hq; lia.
    + unfold step_monitor in Hstep. simpl in Hstep.
      destruct monpc; step_cases Hstep; injection Hstep as <-; simpl in Hq; try lia; done.
    + unfold step_cleanup in Hstep. simpl in Hstep.
      destruct cpc; step_cases Hstep; chan_facts; injection Hstep as <-; simpl in Hq; lia.
Qed.

Lemma cleanup_waits_for_ack_witness :
  exists s,
    run trace_cleanup initial = Some s /\
    cleanup_pc s = C_RemoveAll /\
    acknowledged (monitor_pc s) = true /\ stop_sent (main_pc s) = true.
Proof.
  eexists. split; [reflexivity|]. split; [reflexivity|].
  exact (proj1 (cleanup_waits_for_ack trace_cleanup _ eq_refl) eq_refl).
Defined.

(** X24.  Once the stop has been sent, the monitor that reaches its [select]
    takes the stop branch and goes on to acknowledge. *)
Lemma monitor_honours_stop (trace : list Label) (s : State) :
  run trace initial = Some s ->
  process s = Running -> stop_sent (main_pc s) = true -> monitor_pc s = Mon_Select ->
  forall o, exists s', step (TMonitor, o) s = Some s' /\ monitor_pc s' = Mon_AckStopped.
Proof.
  intros Hrun Hproc Hstop Hsel o.
  destruct (handshake_inv_reachable s (ex_intro _ trace Hrun)) as (_ & _ & _ & J4 & _).
  unfold step, step_monitor, chan_recv. rewrite Hproc, Hsel, (J4 Hstop).
  destruct (queued (messages s)); eauto.
Qed.

(** X25.  The acknowledgment can always be sent: [finished] has room for it. *)
Lemma monitor_ack_never_blocks (trace : list Label) (s : State) :
  run trace initial = Some s ->
  process s = Running ->
  monitor_pc s = Mon_AckStopped \/ monitor_pc s = Mon_AckNoScript ->
  forall o, exists s', step (TMonitor, o) s = Some s' /\ monitor_pc s' = Mon_Return /\
                       queued (finished s') = 1%nat.
Proof.
  intros Hrun Hproc Hpc o.
  destruct (handshake_inv_reachable s (ex_intro _ trace Hrun)) as (J1 & J2 & _).
  assert (Hq : queued (finished s) = 0%nat).
  { destruct (queued (finished s)) eqn:E; [done|].
    assert (acknowledged (monitor_pc s) = true) by (apply J1; left; lia).
    destruct Hpc as [Hpc|Hpc]; rewrite Hpc in *; discriminate. }
  assert (Hc : closed (finished s) = false).
  { destruct (closed (finished s)) eqn:E; [|done].
    assert (acknowledged (monitor_pc s) = true) by (apply J1; right; by rewrite (J2 eq_refl)).
    destruct Hpc as [Hpc|Hpc]; rewrite Hpc in *; discriminate. }
  unfold step, step_monitor, chan_send. rewrite Hproc, Hc, Hq. simpl.
  destruct Hpc as [-> | ->]; eauto.
Qed.

(** ** More on the dispatcher *)

Lemma GetWithTimeout_loop_clock (client : Http) (request : Request) (deadline D : Z) :
  (forall j, Z.of_N (elapsed (Do client request j)) <= D) ->
  forall (fuel : nat) (now : Z) (n : nat) (err : option string) ex now',
    GetWithTimeout_loop fuel client request deadline now n err = Some (ex, now') ->
    now <= now' <= Z.max now (deadline + D + Second).
Proof.
  intros HD. induction fuel as [|fuel IH]; intros now n err ex now' Hloop; simpl in Hloop.
  - case_bool_decide; [discriminate|]. injection Hloop as <- <-. lia.
  - case_bool_decide as Hnow; [|injection Hloop as <- <-; lia].
    pose proof (HD n) as Hn. unfold Second in *.
    destruct (outcome (Do client request n)).
    + apply IH in Hloop. lia.
    + injection Hloop as <- <-. lia.
Qed.

Lemma GetWithTimeout_clock (client : Http) (request : Request) (timeout now D : Z)
    (r : option string * option string) (now' : Z) :
  (forall j, Z.of_N (elapsed (Do client request j)) <= D) ->
  GetWithTimeout client request timeout now = Some (r, now') ->
  now <= now' <= now + Z.max 0 timeout + D + Second.
Proof.
  intros HD Hget. unfold GetWithTimeout in Hget.
  destruct (GetWithTimeout_loop _ _ _ _ _ _ _) as [[ex t]|] eqn:Hloop; [|discriminate].
  apply (GetWithTimeout_loop_clock client request _ D HD) in Hloop.
  assert (0 <= D) by (pose proof (HD 0%nat); lia).
  assert (t = now') as <-.
  { destruct ex as [c [b|e]|e]; by injection Hget as <- <-. }
  unfold Second in *. lia.
Qed.

Lemma GetWithTimeout_loop_clock_forward (client : Http) (request : Request) (deadline : Z) :
  forall (fuel : nat) (now : Z) (n : nat) (err : option string) ex now',
    GetWithTimeout_loop fuel client request deadline now n err = Some (ex, now') ->
    now <= now'.
Proof.
  induction fuel as [|fuel IH]; intros now n err ex now' Hloop; simpl in Hloop.
  - case_bool_decide; [discriminate|]. injection Hloop as <- <-. lia.
  - case_bool_decide; [|injection Hloop as <- <-; lia].
    destruct (outcome (Do client request n)).
    + apply IH in Hloop. unfold Second in *. lia.
    + injection Hloop as <- <-. lia.
Qed.

Lemma ExecuteScalarmRequest_clock_forward
    (client : Http) (reqInfo : RequestInfo) (serviceUrls : list string)
    (config : SimulationManagerConfig) (timeout : Z) (perm : list nat) (now : Z)
    (r : DispatchResult) (now' : Z) :
  ExecuteScalarmRequest client reqInfo serviceUrls config timeout perm now = Some (r, now') ->
  now <= now'.
Proof.
  unfold ExecuteScalarmRequest. revert now.
  induction perm as [|v perm IH]; intros now Hexec; simpl in Hexec.
  - injection Hexec as <- <-. lia.
  - destruct (serviceUrls !! v) as [serviceUrl|]; [|injection Hexec as <- <-; lia].
    destruct (NewRequest_err client _ _); [injection Hexec as <- <-; lia|].
    destruct (GetWithTimeout client _ timeout now) as [[[b e] t]|] eqn:Hget; [|discriminate].
    assert (now <= t).
    { unfold GetWithTimeout in Hget.
      destruct (GetWithTimeout_loop _ _ _ _ _ _ _) as [[ex tt]|] eqn:L; [|discriminate].
      apply GetWithTimeout_loop_clock_forward in L.
      destruct ex as [c [?|?]|?]; injection Hget as <- <- <-; lia. }
    destruct e; [apply IH in Hexec; lia|injection Hexec as <- <-; lia].
Qed.

(** X1.  One logical request takes a bounded time.  If no single [client.Do]
    call takes longer than [D], the dispatcher is back (with a body or at
    its [Fatal]) at most [timeout + D + 1s] per endpoint drawn after it was
    called; and its clock never runs backwards. *)
Theorem ExecuteScalarmRequest_duration
    (client : Http) (reqInfo : RequestInfo) (serviceUrls : list string)
    (config : SimulationManagerConfig) (timeout D : Z) (perm : list nat) (now : Z)
    (r : DispatchResult) (now' : Z) :
  (forall request j, Z.of_N (elapsed (Do client request j)) <= D) ->
  ExecuteScalarmRequest client reqInfo serviceUrls config timeout perm now = Some (r, now') ->
  now <= now' <= now + Z.of_nat (length perm) * (Z.max 0 timeout + D + Second).
Proof.
  intros HD. unfold ExecuteScalarmRequest. revert now.
  assert (0 <= D) by (pose proof (HD (build_request config "" reqInfo) 0%nat); lia).
  induction perm as [|v perm IH]; intros now Hexec; simpl in Hexec.
  - injection Hexec as <- <-. simpl. lia.
  - assert (Hstep : 0 <= Z.max 0 timeout + D + Second) by (unfold Second; lia).
    rewrite length_cons, Nat2Z.inj_succ.
    destruct (serviceUrls !! v) as [serviceUrl|]; [|injection Hexec as <- <-; nia].
    destruct (NewRequest_err client _ _); [injection Hexec as <- <-; nia|].
    destruct (GetWithTimeout client _ timeout now) as [[[b e] t]|] eqn:Hget; [|discriminate].
    apply (GetWithTimeout_clock _ _ _ _ D) in Hget; [|apply HD].
    destruct e; [apply IH in Hexec; nia|injection Hexec as <- <-; nia].
Qed.

Lemma ExecuteScalarmRequest_duration_witness :
  ExecuteScalarmRequest example_client example_reqInfo ["em1"; "em2"] example_config
    (3 * Second) [0; 1]%nat 0 = Some (Response (Some "busy"), 3200000000) /\
  0 <= 3200000000 <= 0 + Z.of_nat (length [0; 1]%nat) * (Z.max 0 (3 * Second) + 200000000 + Second).
Proof.
  split; [reflexivity|].
  apply (ExecuteScalarmRequest_duration example_client example_reqInfo ["em1"; "em2"]
           example_config (3 * Second) 200000000 [0; 1]%nat 0 (Response (Some "busy"))).
  - intros request j. simpl. destruct (String.prefix _ _); simpl; lia.
  - reflexivity.
Defined.

(** X2.  A timeout that is not positive: the retry loop is never entered, no
    request is sent, and the dispatcher hands back a nil body as if the
    first endpoint drawn had answered, without any time passing. *)
Theorem ExecuteScalarmRequest_no_window
    (client : Http) (reqInfo : RequestInfo) (serviceUrls : list string)
    (config : SimulationManagerConfig) (timeout : Z) (v : nat) (perm : list nat) (now : Z)
    (serviceUrl : string) :
  timeout <= 0 ->
  serviceUrls !! v = Some serviceUrl ->
  NewRequest_err client (HttpMethod reqInfo) (request_url config serviceUrl reqInfo) = None ->
  ExecuteScalarmRequest client reqInfo serviceUrls config timeout (v :: perm) now
  = Some (Response None, now).
Proof.
  intros Hle Hv Hnew. unfold ExecuteScalarmRequest. simpl.
  rewrite Hv, Hnew, GetWithTimeout_nonpositive by done. done.
Qed.

Lemma ExecuteScalarmRequest_no_window_witness :
  ExecuteScalarmRequest example_client example_reqInfo ["em1"; "em2"] example_config
    (-5) [1; 0]%nat 7 = Some (Response None, 7).
Proof.
  apply (ExecuteScalarmRequest_no_window example_client example_reqInfo ["em1"; "em2"]
           example_config (-5) 1 [0%nat] 7 "em2"); [lia|reflexivity|reflexivity].
Defined.

Lemma GetWithTimeout_loop_finds_at (client : Http) (request : Request) (deadline : Z)
    (k : nat) (code : Z) (rd : ReadResult) :
  outcome (Do client request k) = DoResp code rd ->
  forall (fuel : nat) (now : Z) (n : nat) (err : option string),
    (n <= k)%nat ->
    (forall j, (n <= j < k)%nat -> exists e, outcome (Do client request j) = DoErr e) ->
    now + (spent client request k - spent client request n) < deadline ->
    deadline - now <= Z.of_nat fuel * Second ->
    GetWithTimeout_loop fuel client request deadline now n err
    = Some (Broke code rd,
            now + (spent client request k - spent client request n)
            + Z.of_N (elapsed (Do client request k))).
Proof.
  intros Hresp. induction fuel as [|fuel IH]; intros now n err Hnk Hfail Hlt Hfuel.
  - pose proof (spent_mono client request n k Hnk). lia.
  - simpl. pose proof (spent_mono client request n k Hnk).
    rewrite bool_decide_eq_true_2 by lia.
    destruct (decide (n = k)) as [->|Hne].
    + rewrite Hresp. do 2 f_equal. lia.
    + destruct (Hfail n ltac:(lia)) as [e He]. rewrite He.
      rewrite IH; [|lia| |simpl; lia|unfold Second in *; lia].
      * do 2 f_equal. simpl. lia.
      * intros j Hj. apply Hfail. lia.
Qed.

(** X3.  A response whose body cannot be read ends the retries on that
    endpoint at once, however much of the window is left: [GetWithTimeout]
    returns the read error right after the attempt that got the response,
    without sleeping and without another attempt. *)
Theorem GetWithTimeout_unreadable_body
    (client : Http) (request : Request) (timeout now : Z) (k : nat) (code : Z) (e : string) :
  (forall j, (j < k)%nat -> exists e', outcome (Do client request j) = DoErr e') ->
  spent client request k < timeout ->
  outcome (Do client request k) = DoResp code (ReadErr e) ->
  GetWithTimeout client request timeout now
  = Some ((None, Some e),
          now + spent client request k + Z.of_N (elapsed (Do client request k))).
Proof.
  intros Hfail Hlt Hresp. unfold GetWithTimeout.
  rewrite (GetWithTimeout_loop_finds_at client request (now + timeout) k code (ReadErr e) Hresp).
  - simpl. do 2 f_equal. lia.
  - lia.
  - intros j Hj. apply Hfail. lia.
  - simpl. lia.
  - pose proof (GetWithTimeout_fuel_enough timeout). lia.
Qed.

Lemma GetWithTimeout_unreadable_body_witness :
  GetWithTimeout broken_body_client (build_request example_config "em1" example_reqInfo)
    (60 * Second) 0 = Some ((None, Some "unexpected EOF"), 100000000).
Proof.
  apply (GetWithTimeout_unreadable_body broken_body_client
           (build_request example_config "em1" example_reqInfo) (60 * Second) 0 0 200
           "unexpected EOF"); [intros j Hj; lia|reflexivity|reflexivity].
Defined.



(** ** More on job acquisition and discovery *)

Lemma nextSimulation_loop_pace (env : nat -> Fetch) (deadline : Z) :
  forall (fuel : nat) (now : Z) (k : nat) (m : gmap string JSON) (r : RoundEnd),
    nextSimulation_loop fuel env deadline now k m = Some r ->
    requests r = k \/
    ((k < requests r)%nat /\
     now + 5 * Second * Z.of_nat (requests r - k - 1) < deadline).
Proof.
  induction fuel as [|fuel IH]; intros now k m r Hloop; simpl in Hloop.
  - case_bool_decide; [discriminate|]. injection Hloop as <-. by left.
  - case_bool_decide as Hnow; [|injection Hloop as <-; by left].
    right.
    assert (Hhere : forall how m' t,
              let r0 := {| round := how; simulation_run := m'; round_now := t;
                           requests := S k |} in
              (k < requests r0)%nat /\
              now + 5 * Second * Z.of_nat (requests r0 - k - 1) < deadline).
    { intros how m' t. simpl. split; [lia|]. replace (S k - k - 1)%nat with 0%nat by lia. lia. }
    assert (Hnext : forall m', nextSimulation_loop fuel env deadline
                      (now + Z.of_N (took (env k)) + 5 * Second) (S k) m' = Some r ->
                    (k < requests r)%nat /\
                    now + 5 * Second * Z.of_nat (requests r - k - 1) < deadline).
    { intros m' H'. apply IH in H' as [Heq|[Hlt Hpace]].
      - rewrite Heq. split; [lia|]. replace (S k - k - 1)%nat with 0%nat by lia. lia.
      - split; [lia|].
        replace (requests r - k - 1)%nat with (S (requests r - S k - 1)) by lia.
        rewrite Nat2Z.inj_succ. unfold Second in *. lia. }
    destruct (reply (env k)) as [err|decoded|stored];
      [injection Hloop as <-; apply Hhere| |by eapply Hnext].
    destruct (Unmarshal_map decoded m) as [m' []]; [by eapply Hnext|].
    destruct (classify m'); try (injection Hloop as <-; apply Hhere). by eapply Hnext.
Qed.

(** X5.  The requests of one acquisition round are paced by the 5 s sleep: the
    n-th request is sent at least [5 s * (n - 1)] into the window, so a
    round makes fewer than [window / 5 s + 1] requests, whatever the
    coordinator replies.  When the window (timeout times the number of
    coordinators, in int64) is not positive, no request is sent at all and
    the process exits with code 0. *)
Theorem main_acquire_requests_paced
    (env : nat -> Fetch) (communicationTimeout : Z) (experimentManagers : list string)
    (now : Z) (a : Acquired) (n : nat) :
  main_acquire env communicationTimeout experimentManagers now = Some (a, n) ->
  let window := Duration_mul communicationTimeout (Z.of_nat (length experimentManagers)) in
  (n <> 0%nat -> 5 * Second * Z.of_nat (n - 1) < window) /\
  (window <= 0 -> a = ExitProcess 0 /\ n = 0%nat).
Proof.
  intros Hacq window. unfold main_acquire in Hacq. fold window in Hacq.
  destruct (nextSimulation_loop _ _ _ _ _ _) as [r|] eqn:Hloop; [|discriminate].
  injection Hacq as Ha <-. split.
  - intros Hn. apply nextSimulation_loop_pace in Hloop as [Heq|[_ Hpace]]; [lia|].
    replace (requests r - 0 - 1)%nat with (requests r - 1)%nat in Hpace by lia. lia.
  - intros Hw. destruct (nextSimulation_fuel window); simpl in Hloop;
      rewrite bool_decide_eq_false_2 in Hloop by lia; injection Hloop as <-;
      simpl in Ha; done.
Qed.

Lemma main_acquire_requests_paced_witness :
  main_acquire always_all_sent (60 * Second) ["em1"] 0 = Some (ExitProcess 0, 12%nat) /\
  5 * Second * Z.of_nat (12 - 1) < Duration_mul (60 * Second) (Z.of_nat (length ["em1"])).
Proof.
  assert (H : main_acquire always_all_sent (60 * Second) ["em1"] 0
              = Some (ExitProcess 0, 12%nat)) by (vm_compute; reflexivity).
  split; [exact H|].
  apply (proj1 (main_acquire_requests_paced always_all_sent (60 * Second) ["em1"] 0
                  (ExitProcess 0) 12 H)).
  discriminate.
Defined.

Lemma nextSimulation_loop_ok_status (env : nat -> Fetch) (deadline : Z) :
  forall (fuel : nat) (now : Z) (k : nat) (m : gmap string JSON) (r : RoundEnd),
    nextSimulation_loop fuel env deadline now k m = Some r ->
    round r = RoundOk ->
    simulation_run r !! "status" = Some (JString "ok").
Proof.
  induction fuel as [|fuel IH]; intros now k m r Hloop Hround; simpl in Hloop.
  - case_bool_decide; [discriminate|]. injection Hloop as <-. done.
  - case_bool_decide; [|injection Hloop as <-; done].
    destruct (reply (env k)) as [err|decoded|stored];
      [injection Hloop as <-; done| |by eapply IH].
    destruct (Unmarshal_map decoded m) as [m' []]; [by eapply IH|].
    destruct (classify m') eqn:Hclass; try (injection Hloop as <-; done); [by eapply IH|].
    injection Hloop as <-. simpl. clear Hround. unfold classify in Hclass.
    destruct (m' !! "status") as [[| | |status| |]|]; try discriminate. simpl in Hclass.
    repeat case_bool_decide; try discriminate.
    destruct (decide (status = "ok")) as [->|]; [done|contradiction].
Qed.

(** X7.  After a round left on status [ok] the worker evaluates
    [simulation_run["simulation_id"].(float64)] (line 461): a JSON number
    becomes the index of the job; when the entry is missing or holds any
    other JSON value the worker panics, although the coordinator said
    [ok]. *)
Theorem ok_round_needs_simulation_id
    (env : nat -> Fetch) (communicationTimeout : Z) (experimentManagers : list string)
    (now : Z) (r : RoundEnd) :
  let window := Duration_mul communicationTimeout (Z.of_nat (length experimentManagers)) in
  nextSimulation_loop (nextSimulation_fuel window) env (now + window) now 0 ∅ = Some r ->
  round r = RoundOk ->
  let entry := simulation_run r !! "simulation_id" in
  let result := main_acquire env communicationTimeout experimentManagers now in
  simulation_run r !! "status" = Some (JString "ok") /\
  (forall f, entry = Some (JNumber f) ->
     result = Some (Job f (simulation_run r) (round_now r), requests r)) /\
  ((forall f, entry <> Some (JNumber f)) -> result = Some (Panicked, requests r)).
Proof.
  intros window Hloop Hround entry result.
  assert (Hres : result = Some (match assert_float64 entry with
                                | None => Panicked
                                | Some f => Job f (simulation_run r) (round_now r)
                                end, requests r)).
  { subst result. unfold main_acquire. fold window. rewrite Hloop, Hround. done. }
  split; [by eapply nextSimulation_loop_ok_status|]. split.
  - intros f Hf. rewrite Hres, Hf. done.
  - intros Hnot. rewrite Hres. destruct entry as [[]|]; try done. by destruct (Hnot f).
Qed.

Lemma ok_round_needs_simulation_id_witness :
  main_acquire ok_without_id (60 * Second) ["em1"] 0 = Some (Panicked, 1%nat).
Proof.
  pose (r := {| round := RoundOk; simulation_run := <["status" := JString "ok"]> ∅;
                round_now := 0; requests := 1 |}).
  destruct (ok_round_needs_simulation_id ok_without_id (60 * Second) ["em1"] 0 r
              eq_refl eq_refl) as (_ & _ & Hpanic).
  apply Hpanic. intros f. vm_compute. discriminate.
Defined.

Lemma nextSimulation_loop_retry_reply (env : nat -> Fetch) (deadline : Z) (fuel : nat)
    (now : Z) (k : nat) (m : gmap string JSON) :
  now < deadline ->
  is_retry_reply (env k) = true ->
  exists m',
    nextSimulation_loop (S fuel) env deadline now k m =
    nextSimulation_loop fuel env deadline (now + Z.of_N (took (env k)) + 5 * Second) (S k) m'.
Proof.
  intros Hnow Hretry. simpl. rewrite bool_decide_eq_true_2 by done.
  unfold is_retry_reply in Hretry.
  destruct (reply (env k)) as [|[[| | | | |fields]|]|]; try discriminate; simpl; eauto.
  destruct (fields_get "status" fields) as [[| | |status| |]|] eqn:Hst; try discriminate.
  simpl in Hretry. apply bool_decide_eq_true in Hretry as [Hok Hwait].
  assert (Hm : foldl (fun acc kv => <[kv.1 := kv.2]> acc) m fields !! "status"
               = Some (JString status)).
  { rewrite lookup_Unmarshal_object, Hst. done. }
  destruct (classify_string_status _ _ Hm) as (_ & _ & Hother).
  destruct (Hother Hok Hwait) as [log ->]. eauto.
Qed.

Lemma nextSimulation_loop_retry_fails (env : nat -> Fetch) (deadline : Z) :
  (forall k, is_retry_reply (env k) = true) ->
  forall (fuel : nat) (now : Z) (k : nat) (m : gmap string JSON) (r : RoundEnd),
    nextSimulation_loop fuel env deadline now k m = Some r ->
    round r = RoundFailed.
Proof.
  intros Hall. induction fuel as [|fuel IH]; intros now k m r Hloop.
  - simpl in Hloop. case_bool_decide; [discriminate|]. by injection Hloop as <-.
  - destruct (decide (now < deadline)) as [Hnow|Hnow].
    + destruct (nextSimulation_loop_retry_reply env deadline fuel now k m Hnow (Hall k))
        as [m' Heq].
      rewrite Heq in Hloop. by apply IH in Hloop.
    + simpl in Hloop. rewrite bool_decide_eq_false_2 in Hloop by done.
      by injection Hloop as <-.
Qed.



(** *** Discovery *)

Lemma strings_of_items_length (items : list JSON) (urls : list string) :
  strings_of_items items = Some urls -> length urls = length items.
Proof.
  revert urls. induction items as [|j items IH]; intros urls H; simpl in H.
  - by injection H as <-.
  - destruct j; try discriminate;
      destruct (strings_of_items items) as [l|]; try discriminate;
      injection H as <-; simpl; f_equal; by apply IH.
Qed.

(** X9.  The worker goes past a question to the Information Service only with
    a pool that has at least one member: the pool is the JSON array of the
    body, which must be a non-empty array of strings.  In every other case
    in which the dispatcher comes back (a [null] or empty array, an element
    that is not a string, a body that is not JSON or not an array, no body,
    or the dispatcher's own [Fatal]) the process exits with code 1. *)
Theorem main_discover_pool_nonempty
    (parse : string -> option JSON) (client : Http) (config : SimulationManagerConfig)
    (communicationTimeout : Z) (service : string) (now : Z) (d : Discovery) :
  main_discover parse client config communicationTimeout service now = Some d ->
  match d with
  | Managers urls now' =>
      urls <> [] /\
      exists body items,
        ExecuteScalarmRequest client
          {| HttpMethod := "GET"; Body := NoBody; ContentType := ""; ServiceMethod := service |}
          [InformationServiceUrl config] config communicationTimeout [0%nat] now
        = Some (Response (Some body), now') /\
        parse body = Some (JArray items) /\
        strings_of_items items = Some urls /\
        length urls = length items
  | DiscoveryExits code => code = 1
  | DiscoveryBadIndex => False
  end.
Proof.
  unfold main_discover, ExecuteScalarmRequest. simpl.
  destruct (NewRequest_err client _ _); [by intros [= <-]|].
  destruct (GetWithTimeout client _ communicationTimeout now) as [[[b [e|]] t]|];
    [by intros [= <-]| |done].
  destruct b as [body|]; simpl; [|by intros [= <-]].
  destruct (parse body) as [[| | | |items|]|] eqn:Hparse; simpl; try (by intros [= <-]).
  destruct (strings_of_items items) as [[|u urls]|] eqn:Hitems; try (by intros [= <-]).
  intros [= <-]. split; [done|]. exists body, items.
  split; [done|]. split; [done|]. split; [done|]. by apply strings_of_items_length.
Qed.

Lemma main_discover_pool_nonempty_witness :
  main_discover discovery_parse discovery_client example_config (60 * Second)
    "experiment_managers" 0 = Some (Managers ["em1"; "em2"] 0) /\
  ["em1"; "em2"] <> [].
Proof.
  assert (H : main_discover discovery_parse discovery_client example_config (60 * Second)
                "experiment_managers" 0 = Some (Managers ["em1"; "em2"] 0)) by reflexivity.
  split; [exact H|].
  exact (proj1 (main_discover_pool_nonempty discovery_parse discovery_client example_config
                  (60 * Second) "experiment_managers" 0 _ H)).
Defined.

(** X10.  Step 2 as a whole: when [main] gets past it, both the pool of
    experiment managers and the pool of storage managers have a member; so
    every later [rand.Perm] draws a non-empty order. *)
Theorem main_getPools_nonempty
    (parse : string -> option JSON) (client : Http) (config : SimulationManagerConfig)
    (communicationTimeout : Z) (now : Z) (ems sms : list string) (now' : Z) :
  main_getPools parse client config communicationTimeout now = Some (BothPools ems sms now') ->
  ems <> [] /\ sms <> [] /\ now <= now'.
Proof.
  unfold main_getPools. intros H.
  destruct (main_discover parse client config communicationTimeout "experiment_managers" now)
    as [[urls1 t1| |]|] eqn:H1; try discriminate.
  destruct (main_discover parse client config communicationTimeout "storage_managers" t1)
    as [[urls2 t2| |]|] eqn:H2; try discriminate.
  injection H as <- <- <-.
  apply main_discover_pool_nonempty in H1 as (Hne1 & b1 & i1 & Hex1 & _).
  apply main_discover_pool_nonempty in H2 as (Hne2 & b2 & i2 & Hex2 & _).
  apply ExecuteScalarmRequest_clock_forward in Hex1, Hex2.
  split; [done|]. split; [done|lia].
Qed.

Lemma main_getPools_nonempty_witness :
  main_getPools discovery_parse discovery_client example_config (60 * Second) 0
  = Some (BothPools ["em1"; "em2"] ["sm1"] 0) /\
  ["em1"; "em2"] <> [] /\ ["sm1"] <> [] /\ 0 <= 0.
Proof.
  assert (H : main_getPools discovery_parse discovery_client example_config (60 * Second) 0
              = Some (BothPools ["em1"; "em2"] ["sm1"] 0)) by reflexivity.
  split; [exact H|].
  exact (main_getPools_nonempty discovery_parse discovery_client example_config
           (60 * Second) 0 _ _ _ H).
Defined.

(** ** More on result files *)

(** X11.  The monitor never sends an intermediate result it could not read:
    when [intermediate_result.json] is missing, cannot be opened or does
    not decode, the result is given status [error], no [progress_info]
    request is made and the monitor goes on to its sleep.  (Step 4e of
    [main] sends the final result in the same three cases.) *)
Theorem unreadable_intermediate_result_not_sent
    (lib : GoLib) (client : Http) (config : SimulationManagerConfig)
    (experimentManagers : list string) (simIndex : Q) (probe : FileProbe)
    (r : SimulationRunResults) (perm : list nat) (now : Z) :
  IntermediateMonitoring_readResult probe = Some r ->
  match probe with
  | Opened d => decode_err d <> None
  | _ => True
  end ->
  Status r = "error" /\
  IntermediateMonitoring_report lib client config experimentManagers simIndex (Some r) perm now
  = Some (Continues None now).
Proof.
  intros Hread Hbad.
  assert (Hst : Status r = "error").
  { destruct probe as [e|e|d]; simpl in Hread.
    - by injection Hread as <-.
    - by injection Hread as <-.
    - destruct (decode_err d); [|done].
      destruct (decoded_value d); [|discriminate]. by injection Hread as <-. }
  split; [done|]. apply progress_report_skipped. by rewrite Hst.
Qed.

Lemma unreadable_intermediate_result_not_sent_witness :
  IntermediateMonitoring_report example_lib unreachable_client example_config
    ["em1"; "em2"] 3
    (IntermediateMonitoring_readResult (NotExist "no such file or directory"))
    [0; 1]%nat 5 = Some (Continues None 5).
Proof.
  exact (proj2 (unreadable_intermediate_result_not_sent example_lib unreachable_client
                  example_config ["em1"; "em2"] 3 (NotExist "no such file or directory")
                  _ [0; 1]%nat 5 eq_refl I)).
Defined.

(** X12.  An [output.json] that is there but cannot be opened or does not
    decode is reported like a missing one: status [error] and a reason
    that names [output.json] and ends with the error text; after a
    decoding error the [results] that the decoder had already filled in
    are kept.  When [http.NewRequest] accepts the URL of the coordinator
    drawn first and the timeout is positive, the first call of
    [client.Do] is the POST of [mark_as_complete] to that coordinator,
    with this status, reason and result in its form. *)
Theorem unreadable_output_is_reported
    (lib : GoLib) (net : Net) (config : SimulationManagerConfig)
    (experimentManagers : list string) (communicationTimeout : Z) (simulation_index : Q)
    (probe : FileProbe) (err : string) (v : nat) (perm : list nat) (serviceUrl : string)
    (w : Wire) :
  let url :=
    protocol config +:+ "://" +:+ serviceUrl +:+ "/experiments/" +:+ ExperimentId config
    +:+ "/simulations/" +:+ fmt_v_float64 lib simulation_index +:+ "/mark_as_complete" in
  probe = OpenFails err \/
  (exists d val, probe = Opened d /\ decode_err d = Some err /\ decoded_value d = Some val) ->
  experimentManagers !! v = Some serviceUrl ->
  NewRequest_err (client_of net) "POST" url = None ->
  0 < communicationTimeout ->
  exists r,
    main_readOutput probe = Some r /\
    Status r = "error" /\
    (Reason r = "Could not open output.json: " +:+ err \/
     Reason r = "Error during output.json parsing: " +:+ err) /\
    (forall d val, probe = Opened d -> decoded_value d = Some val -> Results r = Results val) /\
    exists x rest,
      main_reportResults_net lib net config experimentManagers communicationTimeout
        simulation_index probe (v :: perm) w = Some x /\
      calls (wire_of x)
      = calls w ++
        {| call_request :=
             {| req_method := "POST";
                req_url := url;
                req_body :=
                  FormBody (<["result" := [json_Marshal lib (Results r)]]>
                              (<["reason" := [Reason r]]> (<["status" := ["error"]]> ∅)));
                req_basic_auth := (ExperimentManagerUser config, ExperimentManagerPass config);
                req_content_type := Some "application/x-www-form-urlencoded" |};
           call_attempt := 0; call_body_unread := true |} :: rest.
Proof.
  intros url Hprobe Hv Hnew Hpos.
  assert (Hr : exists r, main_readOutput probe = Some r /\ Status r = "error" /\
                 (Reason r = "Could not open output.json: " +:+ err \/
                  Reason r = "Error during output.json parsing: " +:+ err) /\
                 (forall d val, probe = Opened d -> decoded_value d = Some val ->
                                Results r = Results val)).
  { destruct Hprobe as [->|(d & val & -> & Herr & Hval)].
    - eexists. split; [reflexivity|]. split; [done|]. split; [by left|]. intros d val [=].
    - unfold main_readOutput. rewrite Herr, Hval. simpl.
      eexists. split; [reflexivity|]. split; [done|]. split; [by right|].
      intros d' val' [= <-] Hval'. rewrite Hval in Hval'. by injection Hval' as <-. }
  destruct Hr as (r & Hread & Hst & Hreason & Hres).
  exists r. split; [done|]. split; [done|]. split; [done|]. split; [done|].
  destruct (main_reportResults_net_submits lib net config experimentManagers
              communicationTimeout simulation_index probe r v perm serviceUrl w Hread Hv)
    as [_ Hgood].
  destruct (Hgood Hnew Hpos) as [(x & rest & Hx & Hcalls & _) _].
  exists x, rest. split; [exact Hx|]. rewrite Hcalls.
  unfold build_request, markAsCompleteInfo, results_form. simpl. rewrite Hst. reflexivity.
Qed.

Lemma unreadable_output_is_reported_witness :
  exists r x rest,
    main_readOutput (OpenFails "permission denied") = Some r /\
    Reason r = "Could not open output.json: permission denied" /\
    main_reportResults_net example_lib (Net_of example_client) example_config ["em2"; "em1"]
      (3 * Second) 3 (OpenFails "permission denied") [0; 1]%nat idle_wire = Some x /\
    (fun c => (req_method (call_request c), req_url (call_request c))) <$> calls (wire_of x)
    = ("POST", "http://em2/experiments/e1/simulations/3/mark_as_complete") :: rest.
Proof.
  destruct (unreadable_output_is_reported example_lib (Net_of example_client) example_config
              ["em2"; "em1"] (3 * Second) 3 (OpenFails "permission denied")
              "permission denied" 0 [1%nat] "em2" idle_wire
              (or_introl eq_refl) eq_refl eq_refl eq_refl)
    as (r & Hread & _ & Hreason & _ & x & rest & Hx & Hcalls).
  exists r, x. eexists. split; [exact Hread|]. split.
  - destruct Hreason as [Hreason|Hreason]; [exact Hreason|].
    exfalso. simpl in Hread. injection Hread as <-. discriminate.
  - split; [exact Hx|]. rewrite Hcalls. reflexivity.
Defined.

(** ** Unpacking the code base *)

Lemma cloneZipItem_readers (os : Os) (f : ZipFile) (dest : string) (disk disk' : Disk)
    (err : option string) :
  cloneZipItem os f dest disk = (disk', err) ->
  (err = None -> open_readers disk' = open_readers disk) /\
  (open_readers disk <= open_readers disk' <= S (open_readers disk))%nat.
Proof.
  unfold cloneZipItem. intros H.
  destruct (MkdirAll_err os _); [injection H as <- <-; split; [done|simpl; lia]|].
  destruct (Open_err os f); [injection H as <- <-; split; [done|simpl; lia]|].
  destruct (IsDir f); simpl in H.
  - injection H as <- <-. simpl. lia.
  - destruct (Create_err os _); [injection H as <- <-; split; [done|simpl; lia]|].
    destruct (Copy_fails os f) as [[written e]|]; injection H as <- <-; simpl;
      (split; [done|lia]) || lia.
Qed.

(** X13.  [cloneZipItem] forgets its reader on two paths.  The reader of the
    entry is closed when the function returns nil, and nothing was opened
    when [os.MkdirAll] or [f.Open] failed; but when [os.Create] or
    [io.Copy] fails the function returns without [rc.Close()], and one
    reader more is open than before. *)
Theorem cloneZipItem_reader_leak (os : Os) (f : ZipFile) (dest : string) (disk disk' : Disk)
    (err : option string) :
  cloneZipItem os f dest disk = (disk', err) ->
  let path := Join os dest (Name f) in
  let leaks := MkdirAll_err os (Dir os path) = None /\ Open_err os f = None /\
               IsDir f = false /\
               (Create_err os path <> None \/ Copy_fails os f <> None) in
  (leaks -> err <> None /\ open_readers disk' = S (open_readers disk)) /\
  (~ leaks -> open_readers disk' = open_readers disk).
Proof.
  intros H path leaks. subst leaks path. unfold cloneZipItem in H.
  destruct (MkdirAll_err os _); [injection H as <- <-; split; [intros []|]; done|].
  destruct (Open_err os f); [injection H as <- <-; split; [intros (_ & ? & _)|]; done|].
  destruct (IsDir f); simpl in H.
  - injection H as <- <-. simpl. split; [intros (_ & _ & ? & _)|]; done.
  - destruct (Create_err os _).
    + injection H as <- <-. simpl. split; [done|]. intros Hn. destruct Hn. eauto.
    + destruct (Copy_fails os f) as [[written e]|]; injection H as <- <-; simpl.
      * split; [done|]. intros Hn. destruct Hn. eauto 6.
      * split; [|done]. intros (_ & _ & _ & [?|?]); done.
Qed.

Lemma cloneZipItem_reader_leak_witness :
  exists disk',
    cloneZipItem example_os {| Name := "locked"; IsDir := false; Data := "x" |} "code_base"
      empty_disk = (disk', Some "permission denied") /\
    open_readers disk' = 1%nat.
Proof.
  eexists. split; [reflexivity|].
  refine (proj2 (proj1 (cloneZipItem_reader_leak example_os
                          {| Name := "locked"; IsDir := false; Data := "x" |} "code_base"
                          empty_disk _ _ eq_refl) _)).
  repeat split. left. discriminate.
Defined.

(** X14.  [Extract] stops at the first entry that fails: it returns that
    entry's error, the entries before it have been unpacked, and the
    entries after it are not touched, whatever they are. *)
Theorem Extract_stops_at_first_error (os : Os) (pre post : list ZipFile) (f : ZipFile)
    (dest : string) (disk disk1 disk2 : Disk) (err : string) :
  Extract os (inr pre) dest disk = (disk1, None) ->
  cloneZipItem os f dest disk1 = (disk2, Some err) ->
  Extract os (inr (pre ++ f :: post)) dest disk = (disk2, Some err).
Proof.
  simpl. revert disk. induction pre as [|g pre IH]; intros disk Hpre Hf; simpl in *.
  - injection Hpre as ->. by rewrite Hf.
  - destruct (cloneZipItem os g dest disk) as [d [e|]]; [discriminate|]. by apply IH.
Qed.

Lemma Extract_stops_at_first_error_witness :
  exists disk2,
    Extract example_os (inr example_archive) "code_base" empty_disk
    = (disk2, Some "permission denied") /\
    files disk2 !! "code_base/executor" = Some "#!/bin/sh" /\
    files disk2 !! "code_base/input_writer" = None.
Proof.
  eexists. split.
  - eapply (Extract_stops_at_first_error example_os
             [{| Name := "executor"; IsDir := false; Data := "#!/bin/sh" |}]
             [{| Name := "input_writer"; IsDir := false; Data := "#!/bin/sh" |}]
             {| Name := "locked"; IsDir := false; Data := "x" |} "code_base" empty_disk);
      reflexivity.
  - split; reflexivity.
Defined.

Lemma cloneZipItem_files (os : Os) (f : ZipFile) (dest : string) (disk disk' : Disk)
    (p : string) :
  cloneZipItem os f dest disk = (disk', None) ->
  files disk' !! p =
  if negb (IsDir f) && bool_decide (Join os dest (Name f) = p)
  then Some (Data f) else files disk !! p.
Proof.
  unfold cloneZipItem. intros H.
  destruct (MkdirAll_err os _); [discriminate|].
  destruct (Open_err os f); [discriminate|].
  destruct (IsDir f); simpl in *.
  - by injection H as <-.
  - destruct (Create_err os _); [discriminate|].
    destruct (Copy_fails os f) as [[written e]|]; [discriminate|].
    injection H as <-. simpl.
    case_bool_decide as Hp; [subst; by rewrite lookup_insert_eq|by rewrite lookup_insert_ne].
Qed.

(** X15.  When [Extract] returns nil, the files on disk are those of before
    overwritten by the archive: a path to which a file entry is unpacked
    holds the data of the last such entry, every other path is as it was;
    and every reader that was opened has been closed. *)
Theorem Extract_success (os : Os) (entries : list ZipFile) (dest : string)
    (disk disk' : Disk) :
  Extract os (inr entries) dest disk = (disk', None) ->
  (forall p, files disk' !! p =
             match unpacked os entries dest p with
             | Some data => Some data
             | None => files disk !! p
             end) /\
  open_readers disk' = open_readers disk.
Proof.
  simpl. revert disk. induction entries as [|f rest IH]; intros disk H; simpl in H.
  - injection H as <-. done.
  - destruct (cloneZipItem os f dest disk) as [d [e|]] eqn:Hf; [discriminate|].
    destruct (IH d H) as [Hfiles Hreaders]. split.
    + intros p. rewrite Hfiles. simpl.
      destruct (unpacked os rest dest p); [done|].
      rewrite (cloneZipItem_files os f dest disk d p Hf).
      by destruct (negb (IsDir f) && bool_decide (Join os dest (Name f) = p)).
    + rewrite Hreaders. by apply (cloneZipItem_readers os f dest disk d None Hf).
Qed.

Lemma Extract_success_witness :
  exists disk',
    Extract example_os
      (inr [{| Name := "executor"; IsDir := false; Data := "old" |};
            {| Name := "bin"; IsDir := true; Data := "" |};
            {| Name := "executor"; IsDir := false; Data := "new" |}])
      "code_base" empty_disk = (disk', None) /\
    files disk' !! "code_base/executor" = Some "new" /\
    files disk' !! "code_base/bin" = None /\
    open_readers disk' = 0%nat.
Proof.
  eexists. split; [reflexivity|].
  pose proof (Extract_success example_os
                [{| Name := "executor"; IsDir := false; Data := "old" |};
                 {| Name := "bin"; IsDir := true; Data := "" |};
                 {| Name := "executor"; IsDir := false; Data := "new" |}]
                "code_base" empty_disk _ eq_refl) as [Hfiles Hreaders].
  split; [exact (Hfiles "code_base/executor")|].
  split; [exact (Hfiles "code_base/bin")|exact Hreaders].
Defined.

(** A failing [Extract] leaves at most one reader open. *)
Lemma Extract_readers (os : Os) (entries : list ZipFile) (dest : string)
    (disk disk' : Disk) (err : option string) :
  Extract os (inr entries) dest disk = (disk', err) ->
  (open_readers disk <= open_readers disk' <= S (open_readers disk))%nat.
Proof.
  simpl. revert disk. induction entries as [|f rest IH]; intros disk H; simpl in H.
  - injection H as <- <-. lia.
  - destruct (cloneZipItem os f dest disk) as [d [e|]] eqn:Hf.
    + injection H as <- <-. by apply (cloneZipItem_readers os f dest disk d (Some e) Hf).
    + apply IH in H.
      pose proof (proj1 (cloneZipItem_readers os f dest disk d None Hf) eq_refl). lia.
Qed.

(** ** The Experiment Manager client *)

(** X16.  [GetNextSimulationRunConfig] returns a configuration only for a
    response with status code 200 whose body was read and is a JSON object
    or [null]; the map returned reads as that object (as the empty map for
    [null]), and the body has been closed.  Every such response is
    accepted. *)
Theorem GetNextSimulationRunConfig_ok
    (parse : string -> option JSON) (dispatch : EmDispatch) :
  (forall m closed,
     GetNextSimulationRunConfig parse dispatch = (EmOk m, closed) ->
     closed = true /\
     exists body,
       dispatch = em_reply 200 body /\
       ((parse body = Some JNull /\ m = ∅) \/
        exists fields, parse body = Some (JObject fields) /\
                       forall key, m !! key = fields_get key fields)) /\
  (forall body fields,
     dispatch = em_reply 200 body -> parse body = Some (JObject fields) ->
     exists m, GetNextSimulationRunConfig parse dispatch = (EmOk m, true)).
Proof.
  split.
  - intros m closed H. unfold GetNextSimulationRunConfig, response_code_error in H.
    destruct dispatch as [e|[code rd]]; [discriminate|]. simpl in H.
    case_bool_decide as Hcode; [|case_bool_decide; discriminate]. subst code.
    destruct rd as [body|e]; [|discriminate].
    destruct (parse body) as [[| | | | |fields]|] eqn:Hparse; simpl in H; try discriminate.
    + injection H as <- <-. split; [done|]. exists body. split; [done|]. left. done.
    + injection H as <- <-. split; [done|]. exists body. split; [done|]. right.
      exists fields. split; [done|]. intros key.
      rewrite lookup_Unmarshal_object. by destruct (fields_get key fields).
  - intros body fields -> Hparse. unfold GetNextSimulationRunConfig. simpl.
    rewrite Hparse. simpl. eauto.
Qed.

(** X17.  For every status code other than 200, whatever the body, both methods
    return the error [Experiment manager response code: <code>] (the
    branch for 500 gives the same text as the general one) and leave the
    body of the response open: [resp.Body.Close()] is deferred only on
    the 200 path. *)
Theorem em_other_status_codes
    (parse : string -> option JSON) (resp : EmResponse) :
  em_StatusCode resp <> 200 ->
  GetNextSimulationRunConfig parse (EmResponds resp)
  = (EmError ("Experiment manager response code: " +:+ Itoa (em_StatusCode resp)), false) /\
  MarkSimulationRunAsComplete parse (EmResponds resp)
  = (EmError ("Experiment manager response code: " +:+ Itoa (em_StatusCode resp)), false).
Proof.
  intros Hcode. unfold GetNextSimulationRunConfig, MarkSimulationRunAsComplete.
  rewrite !bool_decide_eq_false_2 by done. unfold response_code_error.
  case_bool_decide as H500; [rewrite H500|]; done.
Qed.

Lemma em_other_status_codes_witness :
  GetNextSimulationRunConfig em_parse (em_reply 500 "job 3")
  = (EmError "Experiment manager response code: 500", false) /\
  MarkSimulationRunAsComplete em_parse (em_reply 500 "job 3")
  = (EmError "Experiment manager response code: 500", false).
Proof.
  exact (em_other_status_codes em_parse {| em_StatusCode := 500; em_Body := ReadOk "job 3" |}
           ltac:(discriminate)).
Defined.

(** X18.  The body of a response is closed by the two methods exactly when its
    status code is 200. *)
Theorem em_body_closed_iff_200
    (parse : string -> option JSON) (resp : EmResponse) :
  (snd (GetNextSimulationRunConfig parse (EmResponds resp)) = true <-> em_StatusCode resp = 200) /\
  (snd (MarkSimulationRunAsComplete parse (EmResponds resp)) = true <-> em_StatusCode resp = 200).
Proof.
  unfold GetNextSimulationRunConfig, MarkSimulationRunAsComplete, response_code_error.
  split; case_bool_decide; simpl; try done; case_bool_decide; simpl; split; done.
Qed.

(** X19.  [MarkSimulationRunAsComplete] reports success exactly for a response
    with status code 200 whose body decodes to an object (or [null]) in
    which [status] is either missing or the string [ok]: a reply that
    says nothing about the status counts as a success. *)
Theorem MarkSimulationRunAsComplete_ok
    (parse : string -> option JSON) (dispatch : EmDispatch) (m : gmap string JSON) :
  (exists closed, MarkSimulationRunAsComplete parse dispatch = (EmOk m, closed)) <->
  exists body,
    dispatch = em_reply 200 body /\
    Unmarshal_map (parse body) ∅ = (m, false) /\
    (m !! "status" = None \/ m !! "status" = Some (JString "ok")).
Proof.
  unfold MarkSimulationRunAsComplete, response_code_error. split.
  - intros [closed H].
    destruct dispatch as [e|[code rd]]; [discriminate|]. simpl in H.
    case_bool_decide as Hcode; [|case_bool_decide; discriminate]. subst code.
    destruct rd as [body|e]; [|discriminate].
    destruct (Unmarshal_map (parse body) ∅) as [m' []] eqn:Hum; [discriminate|].
    exists body. split; [done|].
    destruct (m' !! "status") as [[| | |status| |]|] eqn:Hst; simpl in H; try discriminate.
    + case_bool_decide as Hok.
      * destruct (m' !! "reason") as [[]|]; discriminate.
      * injection H as <- <-. split; [done|]. right. rewrite Hst.
        destruct (decide (status = "ok")) as [->|]; [done|contradiction].
    + injection H as <- <-. split; [done|]. by left.
  - intros (body & -> & Hum & Hst). simpl. rewrite Hum.
    destruct Hst as [-> | ->]; simpl; eauto.
Qed.

(** X20.  [MarkSimulationRunAsComplete] panics exactly for a response with
    status code 200 whose body decodes and in which [status] is there but
    not a string, or is a string other than [ok] while [reason] is there
    but not a string: both type assertions are unchecked. *)
Theorem MarkSimulationRunAsComplete_panics
    (parse : string -> option JSON) (dispatch : EmDispatch) :
  (exists closed, MarkSimulationRunAsComplete parse dispatch = (EmPanic, closed)) <->
  exists body m,
    dispatch = em_reply 200 body /\
    Unmarshal_map (parse body) ∅ = (m, false) /\
    ((is_Some (m !! "status") /\ assert_string (m !! "status") = None) \/
     (exists status, m !! "status" = Some (JString status) /\ status <> "ok" /\
                     is_Some (m !! "reason") /\ assert_string (m !! "reason") = None)).
Proof.
  unfold MarkSimulationRunAsComplete, response_code_error. split.
  - intros [closed H].
    destruct dispatch as [e|[code rd]]; [discriminate|]. simpl in H.
    case_bool_decide as Hcode; [|case_bool_decide; discriminate]. subst code.
    destruct rd as [body|e]; [|discriminate].
    destruct (Unmarshal_map (parse body) ∅) as [m []] eqn:Hum; [discriminate|].
    exists body, m. split; [done|]. split; [done|].
    destruct (m !! "status") as [statusVal|] eqn:Hst; [|discriminate].
    destruct statusVal as [| | |status| |]; simpl in H; try (left; split; [eauto|done]).
    right. exists status. split; [done|].
    case_bool_decide as Hok; [|discriminate]. split; [done|].
    destruct (m !! "reason") as [reasonVal|]; [|discriminate].
    destruct reasonVal; simpl in H; try discriminate; split; eauto.
  - intros (body & m & -> & Hum & Hcase). simpl. rewrite Hum.
    destruct Hcase as [[[v Hv] Has]|(status & Hst & Hok & [v Hv] & Har)].
    + rewrite Hv in *. destruct v; simpl in Has; try discriminate; simpl; eauto.
    + rewrite Hst. simpl. rewrite bool_decide_eq_true_2 by done.
      rewrite Hv in *. destruct v; simpl in Har; try discriminate; simpl; eauto.
Qed.

(** X21.  When the Experiment Manager refuses (a string [status] other than
    [ok]), the error returned is its [reason] if that is a string, and a
    fixed text if no reason was given. *)
Theorem MarkSimulationRunAsComplete_refused
    (parse : string -> option JSON) (body status : string) (m : gmap string JSON) :
  Unmarshal_map (parse body) ∅ = (m, false) ->
  m !! "status" = Some (JString status) ->
  status <> "ok" ->
  (forall reason, m !! "reason" = Some (JString reason) ->
     MarkSimulationRunAsComplete parse (em_reply 200 body) = (EmError reason, true)) /\
  (m !! "reason" = None ->
     MarkSimulationRunAsComplete parse (em_reply 200 body)
     = (EmError "Something went wrong but without any details", true)).
Proof.
  intros Hum Hst Hok. unfold MarkSimulationRunAsComplete. simpl. rewrite Hum, Hst. simpl.
  rewrite bool_decide_eq_true_2 by done. split.
  - intros reason ->. done.
  - intros ->. done.
Qed.

Lemma MarkSimulationRunAsComplete_refused_witness :
  MarkSimulationRunAsComplete em_parse (em_reply 200 "refused")
  = (EmError "already completed", true).
Proof.
  refine (proj1 (MarkSimulationRunAsComplete_refused em_parse "refused" "error" _
                   eq_refl _ _) "already completed" _);
    [reflexivity|discriminate|reflexivity].
Defined.

Lemma GetNextSimulationRunConfig_ok_witness :
  exists m, GetNextSimulationRunConfig em_parse (em_reply 200 "job 3") = (EmOk m, true).
Proof.
  exact (proj2 (GetNextSimulationRunConfig_ok em_parse (em_reply 200 "job 3"))
           "job 3" _ eq_refl eq_refl).
Defined.

Lemma MarkSimulationRunAsComplete_ok_witness :
  exists closed,
    MarkSimulationRunAsComplete em_parse (em_reply 200 "empty object") = (EmOk ∅, closed).
Proof.
  apply (MarkSimulationRunAsComplete_ok em_parse (em_reply 200 "empty object") ∅).
  exists "empty object". split; [reflexivity|]. split; [reflexivity|]. by left.
Defined.

Lemma MarkSimulationRunAsComplete_panics_witness :
  exists closed,
    MarkSimulationRunAsComplete em_parse (em_reply 200 "status 1") = (EmPanic, closed).
Proof.
  apply (MarkSimulationRunAsComplete_panics em_parse (em_reply 200 "status 1")).
  exists "status 1", (<["status" := JNumber 1]> ∅).
  split; [reflexivity|]. split; [reflexivity|]. left. split; [|reflexivity].
  exists (JNumber 1). reflexivity.
Defined.

(** ** More on the handshake *)

Lemma ack_pending_initial : ack_pending initial.
Proof. unfold ack_pending, initial. simpl. discriminate. Qed.

Lemma ack_pending_step (l : Label) (s s' : State) :
  handshake_inv s -> ack_pending s -> step l s = Some s' -> ack_pending s'.
Proof.
  intros (J1 & J2 & J3 & J4 & J5 & J6) K Hstep. unfold ack_pending in *.
  destruct s as [mpc monpc cpc msgs fin proc]. unfold step in Hstep. simpl in *.
  destruct proc; try discriminate Hstep.
  destruct l as [[| |] o].
  - unfold step_main, main_or_exit, main_branch in Hstep. simpl in Hstep.
    destruct mpc; step_cases Hstep; chan_facts; injection Hstep as <-; simpl in *;
      try done; intros; destruct cpc; simpl in *; intuition congruence.
  - unfold step_monitor in Hstep. simpl in Hstep.
    destruct monpc; step_cases Hstep; chan_facts; injection Hstep as <-; simpl in *;
      try done; intros; try (intuition congruence).
    all: destruct cpc; simpl in *; try discriminate;
      match goal with
      | H : (?n < 1)%nat |- S ?n = 1%nat => f_equal; lia
      end.
  - unfold step_cleanup in Hstep. simpl in Hstep.
    destruct cpc; step_cases Hstep; chan_facts; injection Hstep as <-; simpl in *;
      try done; intros; try discriminate.
Qed.

Lemma ack_pending_run (trace : list Label) :
  forall s s', handshake_inv s -> ack_pending s -> run trace s = Some s' -> ack_pending s'.
Proof.
  induction trace as [|l trace IH]; intros s s' Hinv K Hrun; simpl in Hrun.
  - by injection Hrun as <-.
  - destruct (step l s) as [s1|] eqn:Hstep; [|discriminate].
    eapply IH; [by eapply handshake_inv_step|by eapply ack_pending_step|done].
Qed.

(** X22.  The clean-up goroutine, once started, can take its step exactly when
    the monitor has acknowledged: it is not held up by anything else, and
    nothing else lets it through. *)
Theorem cleanup_enabled_iff_acknowledged (trace : list Label) (s : State) (o : Outcome) :
  run trace initial = Some s ->
  process s = Running ->
  cleanup_pc s = C_Receive ->
  is_Some (step (TCleanup, o) s) <-> acknowledged (monitor_pc s) = true.
Proof.
  intros Hrun Hproc Hpc.
  pose proof (handshake_inv_reachable s (ex_intro _ trace Hrun)) as (J1 & J2 & _).
  pose proof (ack_pending_run trace initial s handshake_inv_initial ack_pending_initial Hrun)
    as K.
  unfold ack_pending in K. rewrite Hpc in K. simpl in K.
  unfold step, step_cleanup, chan_recv. rewrite Hproc, Hpc.
  assert (Hcl : closed (finished s) = false).
  { destruct (closed (finished s)); [|done]. rewrite (J2 eq_refl) in Hpc. discriminate. }
  rewrite Hcl. split.
  - destruct (queued (finished s)) eqn:Hq; [by intros [? ?]|]. intros _. apply J1. left. lia.
  - intros Hack. rewrite (K Hack eq_refl). eauto.
Qed.

Lemma cleanup_enabled_iff_acknowledged_witness :
  exists s,
    run [(TMonitor, No); (TMonitor, Yes); (TMain, Yes); (TMain, Yes); (TMain, Yes);
         (TMain, No); (TMain, Yes); (TMain, No); (TMain, No); (TMain, Yes)] initial = Some s /\
    cleanup_pc s = C_Receive /\
    is_Some (step (TCleanup, Yes) s).
Proof.
  eexists. split; [reflexivity|]. split; [reflexivity|].
  apply (cleanup_enabled_iff_acknowledged
           [(TMonitor, No); (TMonitor, Yes); (TMain, Yes); (TMain, Yes); (TMain, Yes);
            (TMain, No); (TMain, Yes); (TMain, No); (TMain, No); (TMain, Yes)] _ Yes
           eq_refl eq_refl eq_refl).
  reflexivity.
Defined.

(** X23.  The channels are never misused.  Whatever the interleaving, no
    goroutine sends on a closed channel or closes a channel twice: a step
    ends in a run-time panic only where the step itself dereferences a nil
    result. *)
Theorem channels_never_misused (trace : list Label) (s s' : State) (t : Thread) (o : Outcome) :
  run trace initial = Some s ->
  step (t, o) s = Some s' ->
  o <> Panics ->
  process s' <> Crashed.
Proof.
  intros Hrun Hstep Ho.
  pose proof (handshake_inv_reachable s (ex_intro _ trace Hrun)) as (J1 & J2 & J3 & J4 & J5 & J6).
  destruct s as [mpc monpc cpc msgs fin proc]. unfold step in Hstep. simpl in *.
  destruct proc; try discriminate Hstep.
  destruct t.
  - unfold step_main, main_or_exit, main_branch in Hstep. simpl in Hstep.
    destruct mpc; step_cases Hstep; injection Hstep as <-; simpl; try done.
    + rewrite J5 in * by eauto. discriminate.
    + unfold chan_close in *. rewrite J6 in * by done. discriminate.
  - unfold step_monitor in Hstep. simpl in Hstep.
    destruct monpc; step_cases Hstep; injection Hstep as <-; simpl; try done.
    all: unfold chan_send in *; destruct (closed fin) eqn:Hcl;
      [rewrite (J2 eq_refl) in J1; by specialize (J1 (or_intror eq_refl))
      |case_bool_decide; discriminate].
  - unfold step_cleanup in Hstep. simpl in Hstep.
    destruct cpc; step_cases Hstep; injection Hstep as <-; simpl; try done.
    unfold chan_close in *. destruct (closed fin) eqn:Hcl; [|discriminate].
    by specialize (J2 eq_refl).
Qed.

Lemma channels_never_misused_witness :
  exists s s',
    run [(TMonitor, Yes); (TMain, Yes); (TMain, Yes)] initial = Some s /\
    step (TMain, Yes) s = Some s' /\
    closed (messages s') = true /\
    process s' <> Crashed.
Proof.
  eexists _, _. split; [reflexivity|]. split; [reflexivity|]. split; [reflexivity|].
  apply (channels_never_misused [(TMonitor, Yes); (TMain, Yes); (TMain, Yes)] _ _ TMain Yes
           eq_refl eq_refl).
  discriminate.
Defined.

Lemma monitor_honours_stop_witness :
  exists s s',
    run trace_stop_seen initial = Some s /\
    monitor_pc s = Mon_Select /\
    step (TMonitor, Yes) s = Some s' /\ monitor_pc s' = Mon_AckStopped.
Proof.
  eexists _, _. split; [reflexivity|]. split; [reflexivity|].
  destruct (monitor_honours_stop trace_stop_seen _ eq_refl eq_refl eq_refl eq_refl Yes)
    as (s' & Hstep & Hpc).
  split; [reflexivity|reflexivity].
Defined.

Lemma monitor_ack_never_blocks_witness :
  exists s s',
    run [(TMonitor, No)] initial = Some s /\
    step (TMonitor, Yes) s = Some s' /\
    monitor_pc s' = Mon_Return /\ queued (finished s') = 1%nat.
Proof.
  eexists _, _. split; [reflexivity|].
  destruct (monitor_ack_never_blocks [(TMonitor, No)] _ eq_refl eq_refl
              (or_intror eq_refl) Yes) as (s' & Hstep & Hpc & Hq).
  repeat split; reflexivity.
Defined.

(** ** Getting the code base *)

Lemma cloneZipItem_dirs (os : Os) (f : ZipFile) (dest : string) (disk disk' : Disk)
    (err : option string) :
  cloneZipItem os f dest disk = (disk', err) -> dirs disk ⊆ dirs disk'.
Proof.
  unfold cloneZipItem. intros H.
  destruct (MkdirAll_err os _); [by injection H as <- <-|].
  destruct (Open_err os f); [injection H as <- <-; simpl; set_solver|].
  destruct (IsDir f); simpl in H; [injection H as <- <-; simpl; set_solver|].
  destruct (Create_err os _); [injection H as <- <-; simpl; set_solver|].
  destruct (Copy_fails os f) as [[written e]|]; injection H as <- <-; simpl; set_solver.
Qed.

Lemma Extract_dirs (os : Os) (archive : string + list ZipFile) (dest : string)
    (disk disk' : Disk) (err : option string) :
  Extract os archive dest disk = (disk', err) -> dirs disk ⊆ dirs disk'.
Proof.
  destruct archive as [e|entries]; simpl; [by intros [= <- <-]|].
  revert disk. induction entries as [|f rest IH]; intros disk H; simpl in H.
  - by injection H as <- <-.
  - destruct (cloneZipItem os f dest disk) as [d [e|]] eqn:Hf.
    + injection H as <- <-. by eapply cloneZipItem_dirs.
    + apply IH in H. apply cloneZipItem_dirs in Hf. set_solver.
Qed.

(** X26.  A start that fails while getting the code base is never repaired by a
    restart.  Once [os.MkdirAll(codeBaseDir)] has succeeded, the directory
    is on the disk however step 3 ends (a [Fatal] of the dispatcher, a file
    that cannot be written, exit code 2 for a damaged archive); a worker
    started afterwards on that disk finds the directory, sends no
    [code_base] request and unpacks nothing: it goes on with the disk as
    it is. *)
Theorem code_base_not_refetched
    (os : Os) (cb : CodeBaseOs) (client : Http) (config : SimulationManagerConfig)
    (experimentManagers : list string) (communicationTimeout : Z) (perm : list nat)
    (codeBaseDir : string) (disk disk1 : Disk) (now : Z) (end1 : CodeBaseEnd) :
  MkdirAll_err os codeBaseDir = None ->
  main_getCodeBase os cb client config experimentManagers communicationTimeout perm
    codeBaseDir disk now = Some (disk1, end1) ->
  codeBaseDir ∈ dirs disk1 /\
  forall os' cb' client' config' experimentManagers' communicationTimeout' perm' now',
    main_getCodeBase os' cb' client' config' experimentManagers' communicationTimeout' perm'
      codeBaseDir disk1 now' = Some (disk1, CodeBaseReady now').
Proof.
  intros Hmk Hrun.
  assert (Hin : codeBaseDir ∈ dirs disk1).
  { unfold main_getCodeBase in Hrun. case_bool_decide as Hdir.
    { by injection Hrun as <- <-. }
    rewrite Hmk in Hrun.
    destruct (ExecuteScalarmRequest _ _ _ _ _ _ _) as [[[body|e|] t]|]; try discriminate;
      try (injection Hrun as <- <-; simpl; set_solver).
    destruct (Create_err os _); [injection Hrun as <- <-; simpl; set_solver|].
    destruct (write_fails cb) as [[written e]|]; [injection Hrun as <- <-; simpl; set_solver|].
    destruct (Extract os _ codeBaseDir _) as [d1 e1] eqn:H1 in Hrun.
    apply Extract_dirs in H1. simpl in H1.
    destruct e1; [injection Hrun as <- <-; set_solver|].
    destruct (Extract os _ codeBaseDir d1) as [d2 e2] eqn:H2 in Hrun.
    apply Extract_dirs in H2.
    destruct e2; [injection Hrun as <- <-; set_solver|].
    destruct (chmod_err cb); injection Hrun as <- <-; set_solver. }
  split; [done|]. intros. unfold main_getCodeBase. by rewrite bool_decide_eq_true_2.
Qed.

Lemma code_base_not_refetched_witness :
  exists disk1,
    main_getCodeBase example_os damaged_zip discovery_client example_config ["em1"]
      (3 * Second) [0%nat] "code_base" empty_disk 0 = Some (disk1, CodeBaseExits 2) /\
    main_getCodeBase example_os damaged_zip unreachable_client example_config ["em1"]
      (3 * Second) [0%nat] "code_base" disk1 9 = Some (disk1, CodeBaseReady 9).
Proof.
  eexists. split; [reflexivity|].
  exact (proj2 (code_base_not_refetched example_os damaged_zip discovery_client example_config
                  ["em1"] (3 * Second) [0%nat] "code_base" empty_disk _ 0 _ eq_refl eq_refl)
           example_os damaged_zip unreachable_client example_config ["em1"] (3 * Second)
           [0%nat] 9).
Defined.
